(** * The confirmed-native-extra deposit worker

    A shallow embedding of [src/confirmed-native-extra.ts], the worker that
    back-fills missed native-token deposits.  The file holds two versions of
    the worker, separated by a document separator: the original one
    ([Module V1]) and the refactored one ([Module V2]).

    Layout:
    - JavaScript values as the code reads them ([JsVal], [typeof], [truthy],
      property reads, [toString]);
    - the numeric helpers of the libraries the worker imports
      ([ethers.BigNumber.from], [ethers.utils.formatEther], the [ns]
      wrapper);
    - programs as finite trees of external calls ([Prog]) and their
      execution against an arbitrary deterministic outside world ([run]),
      the mapper calls of [pMap] under any schedule ([pMap_run]);
    - the two workers;
    - the vocabulary of the properties and a concrete deployment;
    - lemmas, and the properties C1 to C10;
    - further properties of the stages of a task, of a scan and of the
      helpers of the handler (X1 to X18).

    The queue itself is not modelled: [runScanByOrderId] stands for the
    callback that the worker hands to [queue.run], run for one delivered
    order id (the worker starts the queue only when [etherscanApiKey] is
    set, so the key is a non-empty string there). *)

From Stdlib Require Import String Ascii List ZArith Lia Bool.
From Stdlib Require Import DecimalString DecimalZ.
Import ListNotations.

#[local] Open Scope string_scope.
#[local] Open Scope Z_scope.

#[local] Set Warnings "-register-all".

(* ===================================================================== *)
(** * Faults and outcomes *)
(* ===================================================================== *)

(** What a JavaScript [throw] (or a rejected promise) carries. *)
Inductive Fault : Type :=
| AssertionError (msg : string)      (* node's assert *)
| JsError (msg : string)             (* new Error(msg) *)
| TypeError (msg : string)           (* a read or a call on the wrong kind of value *)
| InvalidAmount (input : string)     (* ns: malformed numeric input *)
| InvalidBigNumber (msg : string)    (* ethers.BigNumber.from *)
| ZodError                           (* schema.parse *)
| External (msg : string).           (* a collaborator rejected *)

Definition fault_message (e : Fault) : string :=
  match e with
  | AssertionError m | JsError m | TypeError m | InvalidBigNumber m
  | External m => m
  | InvalidAmount i => "InvalidAmount: " ++ i
  | ZodError => "ZodError"
  end.

Inductive Outcome (A : Type) : Type :=
| Ok (a : A)
| Fail (e : Fault).
Arguments Ok {A} a.
Arguments Fail {A} e.

Definition obind {A B} (o : Outcome A) (k : A -> Outcome B) : Outcome B :=
  match o with
  | Ok a => k a
  | Fail e => Fail e
  end.

Declare Scope outcome_scope.
Delimit Scope outcome_scope with outcome.
Notation "x <- e ;; k" := (obind e (fun x => k))
  (at level 61, e at next level, right associativity) : outcome_scope.
Notation "e ;; k" := (obind e (fun _ => k))
  (at level 61, right associativity) : outcome_scope.

(* ===================================================================== *)
(** * JavaScript values *)
(* ===================================================================== *)

(** The values the worker receives from its collaborators.  Numbers are
    integers: the worker reads of a number only its type, its truthiness
    and its decimal rendering.  [JBig] is an instance of ethers' BigNumber
    (an object). *)
Inductive JsVal : Type :=
| JUndefined
| JNull
| JBool (b : bool)
| JNum (n : Z)
| JStr (s : string)
| JBig (n : Z)
| JArr (xs : list JsVal)
| JObj (fields : list (string * JsVal)).

(** [typeof v] *)
Definition typeof (v : JsVal) : string :=
  match v with
  | JUndefined => "undefined"
  | JBool _ => "boolean"
  | JNum _ => "number"
  | JStr _ => "string"
  | JNull | JBig _ | JArr _ | JObj _ => "object"
  end.

(** ToBoolean, as used by [!v], [v && ...] and [assert(v)]. *)
Definition truthy (v : JsVal) : bool :=
  match v with
  | JUndefined | JNull => false
  | JBool b => b
  | JNum n => negb (n =? 0)
  | JStr s => negb (s =? EmptyString)%string
  | JBig _ | JArr _ | JObj _ => true
  end.

(** [v === undefined] *)
Definition is_undefined (v : JsVal) : bool :=
  match v with
  | JUndefined => true
  | _ => false
  end.

Fixpoint lookup_field (name : string) (fields : list (string * JsVal)) : JsVal :=
  match fields with
  | [] => JUndefined
  | (k, v) :: rest => if (k =? name)%string then v else lookup_field name rest
  end.

(** [v.name] for the data properties the worker reads (hash, from, to,
    value, gasLimit, gasPrice, blockHash, result): reading from undefined or
    null throws, a primitive, a BigNumber or an array has none of them. *)
Definition js_get (v : JsVal) (name : string) : Outcome JsVal :=
  match v with
  | JUndefined =>
      Fail (TypeError ("Cannot read properties of undefined (reading '" ++ name ++ "')"))
  | JNull =>
      Fail (TypeError ("Cannot read properties of null (reading '" ++ name ++ "')"))
  | JObj fields => Ok (lookup_field name fields)
  | JBool _ | JNum _ | JStr _ | JBig _ | JArr _ => Ok JUndefined
  end.

(** Decimal rendering of an integer: ["0"], ["42"], ["-7"]. *)
Definition decimal_of_Z (n : Z) : string :=
  NilZero.string_of_int (Z.to_int n).

(** ToString, as a template literal applies it. *)
Fixpoint ToString (v : JsVal) : string :=
  match v with
  | JUndefined => "undefined"
  | JNull => "null"
  | JBool true => "true"
  | JBool false => "false"
  | JNum n => decimal_of_Z n
  | JStr s => s
  | JBig n => decimal_of_Z n
  | JArr xs =>
      String.concat ","
        (map (fun x => match x with
                       | JUndefined | JNull => EmptyString
                       | _ => ToString x
                       end) xs)
  | JObj _ => "[object Object]"
  end.

(** [v.toString()]: a method call, so it throws on undefined and null. *)
Definition call_toString (v : JsVal) : Outcome string :=
  match v with
  | JUndefined =>
      Fail (TypeError "Cannot read properties of undefined (reading 'toString')")
  | JNull =>
      Fail (TypeError "Cannot read properties of null (reading 'toString')")
  | _ => Ok (ToString v)
  end.

(** ASCII lower-casing (addresses are ASCII). *)
Definition lower_ascii (c : ascii) : ascii :=
  let n := nat_of_ascii c in
  if (Nat.leb 65 n && Nat.leb n 90)%bool then ascii_of_nat (n + 32) else c.

Fixpoint lower (s : string) : string :=
  match s with
  | EmptyString => EmptyString
  | String c s' => String (lower_ascii c) (lower s')
  end.

(** [v.toLowerCase()]: only strings have the method. *)
Definition call_toLowerCase (v : JsVal) : Outcome string :=
  match v with
  | JStr s => Ok (lower s)
  | JUndefined =>
      Fail (TypeError "Cannot read properties of undefined (reading 'toLowerCase')")
  | JNull =>
      Fail (TypeError "Cannot read properties of null (reading 'toLowerCase')")
  | _ => Fail (TypeError "toLowerCase is not a function")
  end.

(** [assert.equal(actual, expected, msg)] of [assert.strict], on strings. *)
Definition assert_equal (actual expected msg : string) : Outcome unit :=
  if (actual =? expected)%string then Ok tt else Fail (AssertionError msg).

(** [assert(v, msg)] *)
Definition assert (v : JsVal) (msg : string) : Outcome unit :=
  if truthy v then Ok tt else Fail (AssertionError msg).

(* ===================================================================== *)
(** * Numbers in strings *)
(* ===================================================================== *)

(** A decimal integer, [/^-?[0-9]+$/]. *)
Definition parse_decimal (s : string) : option Z :=
  option_map Z.of_int (NilZero.int_of_string s).

Definition hex_digit (c : ascii) : option Z :=
  let n := Z.of_nat (nat_of_ascii c) in
  if (48 <=? n) && (n <=? 57) then Some (n - 48)
  else if (97 <=? n) && (n <=? 102) then Some (n - 87)
  else if (65 <=? n) && (n <=? 70) then Some (n - 55)
  else None.

Fixpoint hex_value (s : string) (acc : Z) : option Z :=
  match s with
  | EmptyString => Some acc
  | String c s' =>
      match hex_digit c with
      | Some d => hex_value s' (16 * acc + d)
      | None => None
      end
  end.

(** The sign of a text and what follows it. *)
Definition negative_text (s : string) : bool :=
  match s with
  | String a _ => Ascii.eqb a "-"
  | EmptyString => false
  end.

Definition unsigned (s : string) : string :=
  match s with
  | String a t => if Ascii.eqb a "-" then t else s
  | EmptyString => s
  end.

(** An instance of ethers' BigNumber.  It keeps the hexadecimal text of
    its number, and bn.js reads that text at every comparison and
    arithmetic operation.  [BigNumber.from] turns a text with the prefix
    [0x] into the text of the number it denotes ([BigOf]).  It takes a
    text with the upper-case prefix [0X] for one without prefix and puts
    [0x] in front of it: the [X] stays among the digits, where bn.js
    rejects it ([BigUnreadable], with the text that bn.js is given). *)
Inductive BigNumber : Type :=
| BigOf (n : Z)
| BigUnreadable (text : string).

(** What [toHex] and [toBN] leave of [0X] followed by [digits], once [0x]
    is put in front: an even number of characters is kept as it is; an
    odd one gets a zero after [0x], and the trimming of a leading [0x00]
    then takes that zero and the zero of [0X] away. *)
Definition unreadable_text (negative : bool) (digits : string) : string :=
  (if negative then "-" else EmptyString)
    ++ (if Nat.even (String.length digits) then "0X" else "X") ++ digits.

(** A hexadecimal integer, [/^-?0x[0-9a-f]+$/i], as [BigNumber.from]
    keeps it. *)
Definition parse_hex (s : string) : option BigNumber :=
  let negative := negative_text s in
  match unsigned s with
  | String z (String x (String c t')) =>
      if negb (Ascii.eqb z "0") then None
      else if Ascii.eqb x "x" then
        option_map (fun n => BigOf (if negative then - n else n))
          (hex_value (String c t') 0)
      else if Ascii.eqb x "X" then
        option_map (fun _ => BigUnreadable (unreadable_text negative (String c t')))
          (hex_value (String c t') 0)
      else None
  | _ => None
  end.

Definition MAX_SAFE_INTEGER : Z := 9007199254740991.

(** [ethers.BigNumber.from(v)] for the values the worker passes to it: a
    BigNumber is kept, a string is read as hexadecimal or decimal, a safe
    integer is accepted, anything else is rejected. *)
Definition BigNumber_from (v : JsVal) : Outcome BigNumber :=
  match v with
  | JBig n => Ok (BigOf n)
  | JStr s =>
      match parse_hex s with
      | Some b => Ok b
      | None =>
          match parse_decimal s with
          | Some n => Ok (BigOf n)
          | None => Fail (InvalidBigNumber "invalid BigNumber string")
          end
      end
  | JNum n =>
      if (n <? MAX_SAFE_INTEGER) && (- MAX_SAFE_INTEGER <? n)
      then Ok (BigOf n) else Fail (InvalidBigNumber "overflow")
  | _ => Fail (InvalidBigNumber "invalid BigNumber value")
  end.

(** [toBN(b)]: the number of a BigNumber, as bn.js reads its text; bn.js
    throws an [Error] on a character that is not a hexadecimal digit. *)
Definition toBN (b : BigNumber) : Outcome Z :=
  match b with
  | BigOf n => Ok n
  | BigUnreadable text => Fail (JsError ("Invalid character in " ++ text))
  end.

(** The number that the first operation on [BigNumber.from(v)] works
    with: [gt], [lt] and the like start by reading their operands with
    [toBN]. *)
Definition BigNumber_value (v : JsVal) : Outcome Z :=
  (b <- BigNumber_from v ;; toBN b)%outcome.

(** The last [k] decimal digits of [n], zero-padded. *)
Fixpoint digits_padded (k : nat) (n : Z) : list ascii :=
  match k with
  | O => []
  | S k' => digits_padded k' (n / 10) ++ [ascii_of_nat (48 + Z.to_nat (n mod 10))]
  end.

Fixpoint drop_leading_zeros (l : list ascii) : list ascii :=
  match l with
  | "0"%char :: l' => drop_leading_zeros l'
  | _ => l
  end.

(** What formatFixed keeps of the padded fraction: the digits without the
    trailing zeros, or a single zero digit when there is nothing else. *)
Definition strip_trailing_zeros (l : list ascii) : list ascii :=
  match List.rev (drop_leading_zeros (List.rev l)) with
  | [] => ["0"%char]
  | l' => l'
  end.

(** [ethers.utils.formatEther(wei)], that is [formatFixed(wei, 18)]: it
    starts with [BigNumber.from(wei)] and the comparison [lt(Zero)]. *)
Definition formatEther (wei : JsVal) : Outcome string :=
  (value <- BigNumber_value wei ;;
   let negative := value <? 0 in
   let value := Z.abs value in
   let multiplier := 10 ^ 18 in
   let fraction :=
     string_of_list_ascii
       (strip_trailing_zeros (digits_padded 18 (value mod multiplier))) in
   let whole := decimal_of_Z (value / multiplier) in
   let text := whole ++ "." ++ fraction in
   Ok (if negative then "-" ++ text else text))%outcome.

(** Modelled from the spec: the [ns] wrapper of bignumber.js imported from
    [@sideshift/shared] is not part of the sources.  Section 4.1 of the
    specification gives its contract: the operands are decimal strings in
    the smallest unit, the result is the exact value as a fixed-point
    decimal string, and a malformed numeric input fails with
    [InvalidAmount]. *)
Module ns.

Definition number (s : string) : Outcome Z :=
  match parse_decimal s with
  | Some n => Ok n
  | None => Fail (InvalidAmount s)
  end.

Definition sum (a b : string) : Outcome string :=
  (x <- number a ;; y <- number b ;; Ok (decimal_of_Z (x + y)))%outcome.

Definition times (a b : string) : Outcome string :=
  (x <- number a ;; y <- number b ;; Ok (decimal_of_Z (x * y)))%outcome.

End ns.

(** The amount attributed to the sender, as both workers compute it:
    [ns.sum(value, ns.times(gasLimit, gasPrice))] on the three strings. *)
Definition total (value gasLimit gasPrice : string) : Outcome string :=
  (fee <- ns.times gasLimit gasPrice ;; ns.sum value fee)%outcome.

(* ===================================================================== *)
(** * Data of the worker *)
(* ===================================================================== *)

(** The columns of the [Order] entity that the worker reads.
    [order_depositAddress] is [None] when the address is unassigned,
    [order_createdAt] is [createdAt.getTime()]. *)
Record DepositAddress : Type := { da_address : string }.

Record Order : Type := {
  order_id : string;
  order_depositAddress : option DepositAddress;
  order_createdAt : Z
}.

Record NativeMethod : Type := {
  nm_asset : string;
  nm_id : string
}.

(** What the worker takes from [contextLazy]. *)
Record Context : Type := {
  nativeMethod : NativeMethod;
  etherscanApiKey : string;
  account : string      (* config.evmAccount *)
}.

(** An element accepted by [accountTxListResultSchema]. *)
Record EtherscanTx : Type := {
  tx_hash : string;
  tx_from : string;
  tx_to : string;
  tx_value : string
}.

(** [z.object({hash, from, to, value : z.string()})] on one element: the
    four keys must hold strings, other keys are dropped. *)
Definition parse_entry (v : JsVal) : Outcome EtherscanTx :=
  match v with
  | JObj fields =>
      match lookup_field "hash" fields, lookup_field "from" fields,
            lookup_field "to" fields, lookup_field "value" fields with
      | JStr h, JStr f, JStr t, JStr x =>
          Ok {| tx_hash := h; tx_from := f; tx_to := t; tx_value := x |}
      | _, _, _, _ => Fail ZodError
      end
  | _ => Fail ZodError
  end.

Fixpoint parse_entries (l : list JsVal) : Outcome (list EtherscanTx) :=
  match l with
  | [] => Ok []
  | v :: l' =>
      (e <- parse_entry v ;; es <- parse_entries l' ;; Ok (e :: es))%outcome
  end.

(** [accountTxListResultSchema.parse(res)] *)
Definition accountTxListResultSchema_parse (res : JsVal) : Outcome (list EtherscanTx) :=
  match res with
  | JArr xs => parse_entries xs
  | _ => Fail ZodError
  end.

(** [Array.prototype.filter] with a callback that may throw. *)
Fixpoint js_filter {A : Type} (f : A -> Outcome bool) (l : list A) : Outcome (list A) :=
  match l with
  | [] => Ok []
  | x :: l' =>
      (keep <- f x ;;
       rest <- js_filter f l' ;;
       Ok (if keep then x :: rest else rest))%outcome
  end.

(** [ethers.BigNumber.from(tx.value).gt(0)]: [from] may throw, and so may
    [gt], which reads the number with [toBN]. *)
Definition value_gt_0 (tx : EtherscanTx) : Outcome bool :=
  (v <- BigNumber_value (JStr (tx_value tx)) ;; Ok (0 <? v))%outcome.

(** The candidate selection of both workers:
    [txs.filter((tx) => ethers.BigNumber.from(tx.value).gt(0)).slice(0, 10)] *)
Definition trimmedTxs (txs : list EtherscanTx) : Outcome (list EtherscanTx) :=
  (kept <- js_filter value_gt_0 txs ;; Ok (firstn 10 kept))%outcome.

(* ===================================================================== *)
(** * Programs: trees of external calls *)
(* ===================================================================== *)

(** The calls that leave the process. *)
Inductive Call : Type :=
| FindOneBy (orderId : string)
    (* db.getRepository(Order).findOneBy({ id }) *)
| GetOne (depositMethodId : string) (address : JsVal)
    (* the query of fetchOrderForAddress *)
| AxiosGet (url : string)
| GetTransaction (hash : string)
    (* nodeProvider.getTransaction(hash) *)
| MaybeInternalCreateDeposit (orderId : string) (txid : JsVal)
                             (amount : string) (uniqueId : string).

(** What a call resolves to. *)
Definition Resp (c : Call) : Type :=
  match c with
  | FindOneBy _ | GetOne _ _ => option Order
  | AxiosGet _ | GetTransaction _ => JsVal
  | MaybeInternalCreateDeposit _ _ _ _ => bool
  end.

Inductive Level : Type := info | error.

(** One call of the logger: [logger.level(cause?, msg, ...args)]. *)
Record LogEntry : Type := {
  log_level : Level;
  log_cause : option Fault;
  log_msg : string;
  log_args : list JsVal
}.

(** An asynchronous function body: it returns, throws, logs, or awaits a
    call and goes on with what the call resolved or rejected with. *)
Inductive Prog (R : Type) : Type :=
| Ret (r : R)
| Throw (e : Fault)
| Log (l : LogEntry) (k : Prog R)
| Await (c : Call) (k : Outcome (Resp c) -> Prog R).
Arguments Ret {R} r.
Arguments Throw {R} e.
Arguments Log {R} l k.
Arguments Await {R} c k.

Fixpoint bind {A B : Type} (p : Prog A) (f : A -> Prog B) : Prog B :=
  match p with
  | Ret a => f a
  | Throw e => Throw e
  | Log l k => Log l (bind k f)
  | Await c k => Await c (fun r => bind (k r) f)
  end.

(** [try { p } catch (e) { h e }] *)
Fixpoint try_catch {A : Type} (p : Prog A) (h : Fault -> Prog A) : Prog A :=
  match p with
  | Ret a => Ret a
  | Throw e => h e
  | Log l k => Log l (try_catch k h)
  | Await c k => Await c (fun r => try_catch (k r) h)
  end.

(** A synchronous computation inside an asynchronous body. *)
Definition lift {A : Type} (o : Outcome A) : Prog A :=
  match o with
  | Ok a => Ret a
  | Fail e => Throw e
  end.

(** [await call]: a rejection is thrown at the [await]. *)
Definition await (c : Call) : Prog (Resp c) :=
  Await c (fun r => lift r).

Definition logger_info (msg : string) (args : list JsVal) : Prog unit :=
  Log {| log_level := info; log_cause := None; log_msg := msg; log_args := args |}
      (Ret tt).

Definition logger_error (cause : option Fault) (msg : string) (args : list JsVal)
  : Prog unit :=
  Log {| log_level := error; log_cause := cause; log_msg := msg; log_args := args |}
      (Ret tt).

Declare Scope prog_scope.
Delimit Scope prog_scope with prog.
Bind Scope prog_scope with Prog.
Notation "x <- e ;; k" := (bind e (fun x => k))
  (at level 61, e at next level, right associativity) : prog_scope.
Notation "e ;; k" := (bind e (fun _ => k))
  (at level 61, right associativity) : prog_scope.

(** How the queue handler ends: it returns a value, or it awaits
    [pMap(trimmedTxs, mapper)], one mapper call per element, and then
    returns undefined. *)
Inductive TaskEnd : Type :=
| Returned (v : JsVal)
| AwaitsPMap (mappers : list (Prog unit)).

#[local] Open Scope prog_scope.

(* ===================================================================== *)
(** * The original worker (before the separator) *)
(* ===================================================================== *)

Module V1.
Section Worker.

Variable ctx : Context.
(** Modelled from the spec: [getEthereumNativeDepositUniqueId] is imported
    from [./shared], which is not part of the sources.  Section 3 of the
    specification makes the unique id a deterministic string derived from
    the native method and the transaction hash: a function of the two. *)
Variable getEthereumNativeDepositUniqueId : NativeMethod -> JsVal -> string.

Definition fetchOrderForAddress (address : JsVal) : Prog (option Order) :=
  order <- await (GetOne (nm_id (nativeMethod ctx)) address) ;;
  Ret order.

Definition scanTxid (tx : JsVal) : Prog bool :=
  lift (assert_equal (typeof tx) "object" "tx is not object") ;;
  from <- lift (js_get tx "from") ;;
  lift (assert from "from missing") ;;
  hash <- lift (js_get tx "hash") ;;
  if negb (typeof hash =? "string")%string
  then Throw (JsError "txid must be string") else
  blockHash <- lift (js_get tx "blockHash") ;;
  if negb (typeof blockHash =? "string")%string
  then Throw (JsError "blockHash must be string") else
  isGasPriceAndToAddressCorrect <-
    lift (to <- js_get tx "to" ;;
          if negb (truthy to) then Ok false else
          lowered <- call_toLowerCase to ;;
          if negb (lowered =? lower (account ctx))%string then Ok false else
          gasPrice <- js_get tx "gasPrice" ;;
          Ok (negb (is_undefined gasPrice)))%outcome ;;
  if negb isGasPriceAndToAddressCorrect then Ret false else
  total <-
    lift (value <- js_get tx "value" ;;
          valueStr <- call_toString value ;;
          gasLimit <- js_get tx "gasLimit" ;;
          gasLimitStr <- call_toString gasLimit ;;
          gasPrice <- js_get tx "gasPrice" ;;
          gasPriceStr <- call_toString gasPrice ;;
          total valueStr gasLimitStr gasPriceStr)%outcome ;;
  order <- fetchOrderForAddress from ;;
  match order with
  | None => Ret false
  | Some order =>
      value <- lift (js_get tx "value") ;;
      valueAsEther <- lift (formatEther value) ;;
      totalAsEther <- lift (formatEther (JStr total)) ;;
      wasCredited <-
        await (MaybeInternalCreateDeposit
                 (order_id order) hash totalAsEther
                 (getEthereumNativeDepositUniqueId (nativeMethod ctx) hash)) ;;
      if negb wasCredited then Ret false else
      logger_info
        ("Stored deposit. " ++ ToString hash ++ ". " ++ valueAsEther ++ " "
           ++ nm_asset (nativeMethod ctx) ++ " for order " ++ order_id order)
        [] ;;
      Ret true
  end.

Definition getEtherScanTxListForAddress (address : string) (blockNumber : JsVal)
  : Prog (list EtherscanTx) :=
  res <- await (AxiosGet
    ("https://api.etherscan.io/api?module=account&action=txlist&address="
       ++ address ++ "&startblock=" ++ ToString blockNumber
       ++ "&sort=desc&apikey=" ++ etherscanApiKey ctx)) ;;
  lift (accountTxListResultSchema_parse res).

Definition getEtherScanBlocknumber (timestamp : Z) : Prog JsVal :=
  try_catch
    (blockNumber <- await (AxiosGet
       ("https://api.etherscan.io/api?module=block&action=getblocknobytime&timestamp="
          ++ ToString (JNum timestamp) ++ "&closest=before&apikey="
          ++ etherscanApiKey ctx)) ;;
     lift (js_get blockNumber "result"))
    (fun err =>
       logger_error (Some err)
         "Error fetching block number for order timestamp %s: %s"
         [JNum timestamp; JStr (fault_message err)] ;;
       Ret JUndefined).

(** The callback given to [pMap]. *)
Definition mapper (etherscanTx : EtherscanTx) : Prog unit :=
  ethersTx <- await (GetTransaction (tx_hash etherscanTx)) ;;
  if negb (truthy ethersTx) then
    logger_error None "Transaction %s not found" [JStr (tx_hash etherscanTx)]
  else
    logger_info "Scanning tx %s" [JStr (tx_hash etherscanTx)] ;;
    _ <- scanTxid ethersTx ;;
    Ret tt.

(** The callback that [runScanByOrderId] gives to [queue.run], for one
    delivered order id. *)
Definition runScanByOrderId (orderId : string) : Prog TaskEnd :=
  logger_info "Processing queued task to look at order %s for deposits"
    [JStr orderId] ;;
  order <- await (FindOneBy orderId) ;;
  match order with
  | None =>
      logger_error None "Order %s not found" [JStr orderId] ;;
      Ret (Returned JUndefined)
  | Some order =>
      match order_depositAddress order with
      | None =>
          logger_error None "Order %s has no deposit address" [JStr orderId] ;;
          Ret (Returned JUndefined)
      | Some depositAddress =>
          blockNumber <- getEtherScanBlocknumber (order_createdAt order) ;;
          if negb (truthy blockNumber) then Ret (Returned JUndefined) else
          fetched <-
            try_catch
              (txs <- getEtherScanTxListForAddress
                        (da_address depositAddress) blockNumber ;;
               Ret (Some txs))
              (fun err =>
                 logger_error (Some err) "Error fetching txs for order %s: %s"
                   [JStr orderId; JStr (fault_message err)] ;;
                 Ret None) ;;
          match fetched with
          | None => Ret (Returned JUndefined)
          | Some txs =>
              trimmed <- lift (trimmedTxs txs) ;;
              logger_info "Found %s transactions for order %s"
                [JNum (Z.of_nat (length txs)); JStr orderId] ;;
              Ret (AwaitsPMap (map mapper trimmed))
          end
      end
  end.

End Worker.
End V1.

(* ===================================================================== *)
(** * The refactored worker (after the separator) *)
(* ===================================================================== *)

Module V2.
Section Worker.

Variable ctx : Context.
(** Modelled from the spec: as in [V1], the helper of [./shared] is a
    function of the native method and of the hash. *)
Variable getEthereumNativeDepositUniqueId : NativeMethod -> JsVal -> string.

Definition fetchOrderForAddress (address : JsVal) : Prog (option Order) :=
  order <- await (GetOne (nm_id (nativeMethod ctx)) address) ;;
  Ret order.

Definition validateTx (tx : JsVal) : Outcome unit :=
  (assert_equal (typeof tx) "object" "tx is not object" ;;
   from <- js_get tx "from" ;;
   assert from "from missing" ;;
   txid <- js_get tx "hash" ;;
   blockHash <- js_get tx "blockHash" ;;
   if negb (typeof txid =? "string")%string
   then Fail (JsError "txid must be string") else
   if negb (typeof blockHash =? "string")%string
   then Fail (JsError "blockHash must be string") else
   Ok tt)%outcome.

Definition scanTxid (tx : JsVal) : Prog bool :=
  lift (validateTx tx) ;;
  txid <- lift (js_get tx "hash") ;;
  isGasPriceAndToAddressCorrect <-
    lift (to <- js_get tx "to" ;;
          if negb (truthy to) then Ok false else
          lowered <- call_toLowerCase to ;;
          if negb (lowered =? lower (account ctx))%string then Ok false else
          gasPrice <- js_get tx "gasPrice" ;;
          Ok (negb (is_undefined gasPrice)))%outcome ;;
  if negb isGasPriceAndToAddressCorrect then Ret false else
  total <-
    lift (value <- js_get tx "value" ;;
          valueStr <- call_toString value ;;
          gasLimit <- js_get tx "gasLimit" ;;
          gasLimitStr <- call_toString gasLimit ;;
          gasPrice <- js_get tx "gasPrice" ;;
          gasPriceStr <- call_toString gasPrice ;;
          total valueStr gasLimitStr gasPriceStr)%outcome ;;
  from <- lift (js_get tx "from") ;;
  order <- fetchOrderForAddress from ;;
  match order with
  | None => Ret false
  | Some order =>
      value <- lift (js_get tx "value") ;;
      valueAsEther <- lift (formatEther value) ;;
      totalAsEther <- lift (formatEther (JStr total)) ;;
      wasCredited <-
        await (MaybeInternalCreateDeposit
                 (order_id order) txid totalAsEther
                 (getEthereumNativeDepositUniqueId (nativeMethod ctx) txid)) ;;
      if negb wasCredited then Ret false else
      logger_info
        ("Stored deposit. " ++ ToString txid ++ ". " ++ valueAsEther ++ " "
           ++ nm_asset (nativeMethod ctx) ++ " for order " ++ order_id order)
        [] ;;
      Ret true
  end.

Definition getEtherScanTxListForAddressInDesc
    (address : string) (blockNumber : JsVal) (orderId : string)
  : Prog (option (list EtherscanTx)) :=
  try_catch
    (res <- await (AxiosGet
       ("https://api.etherscan.io/api?module=account&action=txlist&address="
          ++ address ++ "&startblock=" ++ ToString blockNumber
          ++ "&sort=desc&apikey=" ++ etherscanApiKey ctx)) ;;
     txList <- lift (accountTxListResultSchema_parse res) ;;
     Ret (Some txList))
    (fun err =>
       logger_error (Some err) "Error fetching txs for order %s: %s"
         [JStr orderId; JStr (fault_message err)] ;;
       Ret None).

Definition getEtherScanBlocknumber (timestamp : Z) : Prog JsVal :=
  try_catch
    (blockNumber <- await (AxiosGet
       ("https://api.etherscan.io/api?module=block&action=getblocknobytime&timestamp="
          ++ ToString (JNum timestamp) ++ "&closest=before&apikey="
          ++ etherscanApiKey ctx)) ;;
     lift (js_get blockNumber "result"))
    (fun err =>
       logger_error (Some err)
         "Error fetching block number for order timestamp %s: %s"
         [JNum timestamp; JStr (fault_message err)] ;;
       Ret JUndefined).

Definition checkIfOrderExistsAndOrderAddressAssigned
    (orderId : string) (order : option Order) : Prog bool :=
  match order with
  | None =>
      logger_error None "Order %s not found" [JStr orderId] ;;
      Ret false
  | Some o =>
      match order_depositAddress o with
      | None =>
          logger_error None "Order %s has no deposit address" [JStr orderId] ;;
          Ret false
      | Some _ => Ret true
      end
  end.

(** [order.createdAt.getTime()] on what [findOneBy] resolved to. *)
Definition createdAt_getTime (order : option Order) : Outcome Z :=
  match order with
  | Some o => Ok (order_createdAt o)
  | None => Fail (TypeError "Cannot read properties of null (reading 'createdAt')")
  end.

(** [order.depositAddress.address] *)
Definition depositAddress_address (order : option Order) : Outcome string :=
  match order with
  | Some o =>
      match order_depositAddress o with
      | Some d => Ok (da_address d)
      | None => Fail (TypeError "Cannot read properties of null (reading 'address')")
      end
  | None => Fail (TypeError "Cannot read properties of null (reading 'depositAddress')")
  end.

Definition mapper (etherscanTx : EtherscanTx) : Prog unit :=
  ethersTx <- await (GetTransaction (tx_hash etherscanTx)) ;;
  if negb (truthy ethersTx) then
    logger_error None "Transaction %s not found" [JStr (tx_hash etherscanTx)]
  else
    logger_info "Scanning tx %s" [JStr (tx_hash etherscanTx)] ;;
    _ <- scanTxid ethersTx ;;
    Ret tt.

Definition runScanByOrderId (orderId : string) : Prog TaskEnd :=
  logger_info "Processing queued task to look at order %s for deposits"
    [JStr orderId] ;;
  order <- await (FindOneBy orderId) ;;
  isOrderAndOrderAddressCorrect <-
    checkIfOrderExistsAndOrderAddressAssigned orderId order ;;
  if negb isOrderAndOrderAddressCorrect then Ret (Returned (JBool true)) else
  timestamp <- lift (createdAt_getTime order) ;;
  blockNumber <- getEtherScanBlocknumber timestamp ;;
  if negb (truthy blockNumber) then Ret (Returned JUndefined) else
  address <- lift (depositAddress_address order) ;;
  txs <- getEtherScanTxListForAddressInDesc address blockNumber orderId ;;
  match txs with
  | None => Ret (Returned JUndefined)
  | Some txs =>
      trimmed <- lift (trimmedTxs txs) ;;
      logger_info "Found %s transactions for order %s"
        [JNum (Z.of_nat (length txs)); JStr orderId] ;;
      Ret (AwaitsPMap (map mapper trimmed))
  end.

End Worker.
End V2.

(* ===================================================================== *)
(** * Running a program against the outside world *)
(* ===================================================================== *)

(** What an observer outside the process sees: log lines, and calls with
    what they resolved or rejected with. *)
Inductive Event : Type :=
| EvLog (l : LogEntry)
| EvCall (c : Call) (r : Outcome (Resp c)).

Section Run.

(** The outside world (order store, explorer, node, ledger) is any
    deterministic machine: a state, and an answer to every call. *)
Variable W : Type.
Variable respond : forall c : Call, W -> Outcome (Resp c) * W.

Fixpoint run {R : Type} (p : Prog R) (w : W) : Outcome R * W * list Event :=
  match p with
  | Ret r => (Ok r, w, [])
  | Throw e => (Fail e, w, [])
  | Log l k =>
      let '(o, w', t) := run k w in (o, w', EvLog l :: t)
  | Await c k =>
      let '(r, w1) := respond c w in
      let '(o, w2, t) := run (k r) w1 in
      (o, w2, EvCall c r :: t)
  end.

(** [pMap(items, mapper)] as the workers call it, without options, so with
    p-map's defaults [concurrency: Infinity] and [stopOnError: true]: the
    items are an array, so the mapper is called on every item when [pMap]
    starts, before any of the calls can settle (each first awaits the
    node); a rejection rejects the promise that [pMap] returned, and the
    mapper calls already started go on to their end.  The awaits of the
    calls interleave: [pMap_run], below, runs them under any schedule.
    [run_all] is the run under one schedule, the one that answers the
    calls of the first item to its end, then those of the second, and so
    on ([run_all_is_a_schedule]). *)
Fixpoint run_all (ps : list (Prog unit)) (w : W)
  : list (Outcome unit) * W * list Event :=
  match ps with
  | [] => ([], w, [])
  | p :: ps' =>
      let '(o, w1, t1) := run p w in
      let '(os, w2, t2) := run_all ps' w1 in
      (o :: os, w2, (t1 ++ t2)%list)
  end.

(** What the promise of [pMap] settles to under that schedule: the first
    rejection, if any; there the first in time is the first in the order
    of the items.  [pMap_promise] is the promise under any schedule. *)
Fixpoint settle (outs : list (Outcome unit)) : Outcome JsVal :=
  match outs with
  | [] => Ok JUndefined
  | Fail e :: _ => Fail e
  | Ok _ :: outs' => settle outs'
  end.

(** One delivery of the queue: the handler, then the mapper calls. *)
Definition run_task (t : Prog TaskEnd) (w : W) : Outcome JsVal * W * list Event :=
  let '(o, w1, tr) := run t w in
  match o with
  | Fail e => (Fail e, w1, tr)
  | Ok (Returned v) => (Ok v, w1, tr)
  | Ok (AwaitsPMap mappers) =>
      let '(outs, w2, tr2) := run_all mappers w1 in
      (settle outs, w2, (tr ++ tr2)%list)
  end.

End Run.

Arguments run {W} respond {R} p w.
Arguments run_all {W} respond ps w.
Arguments run_task {W} respond t w.

(** A credit call as it appears in a trace, with the answer of the ledger. *)
Record Credit : Type := {
  cr_orderId : string;
  cr_txid : JsVal;
  cr_amount : string;
  cr_uniqueId : string;
  cr_answer : Outcome bool
}.

Definition credit_of (e : Event) : option Credit :=
  match e with
  | EvLog _ => None
  | EvCall c r =>
      match c as c0 return Outcome (Resp c0) -> option Credit with
      | MaybeInternalCreateDeposit orderId txid amount uniqueId =>
          fun r => Some {| cr_orderId := orderId; cr_txid := txid;
                           cr_amount := amount; cr_uniqueId := uniqueId;
                           cr_answer := r |}
      | _ => fun _ => None
      end r
  end.

Fixpoint credit_calls (tr : list Event) : list Credit :=
  match tr with
  | [] => []
  | e :: tr' =>
      match credit_of e with
      | Some c => c :: credit_calls tr'
      | None => credit_calls tr'
      end
  end.

(** The credits a trace created: the credit calls answered [true]. *)
Definition created (c : Credit) : bool :=
  match cr_answer c with
  | Ok true => true
  | _ => false
  end.

(** The unique ids under which a trace created credits, in order. *)
Definition created_ids (tr : list Event) : list string :=
  map cr_uniqueId (filter created (credit_calls tr)).

(** The calls of a trace, without the answers. *)
Definition calls (tr : list Event) : list Call :=
  flat_map (fun e => match e with EvLog _ => [] | EvCall c _ => [c] end) tr.

(** The calls of a trace to the explorer, the node or the ledger. *)
Definition is_later_step (e : Event) : bool :=
  match e with
  | EvCall (AxiosGet _) _ | EvCall (GetTransaction _) _
  | EvCall (GetOne _ _) _ | EvCall (MaybeInternalCreateDeposit _ _ _ _) _ => true
  | _ => false
  end.

Definition logs (tr : list Event) : list LogEntry :=
  flat_map (fun e => match e with EvLog l => [l] | EvCall _ _ => [] end) tr.

(** Two programs that make the same calls and log the same lines whatever
    the answers, and end in related results. *)
Inductive sim {A B : Type} (RR : A -> B -> Prop) : Prog A -> Prog B -> Prop :=
| sim_Ret a b : RR a b -> sim RR (Ret a) (Ret b)
| sim_Throw e : sim RR (Throw e) (Throw e)
| sim_Log l k1 k2 : sim RR k1 k2 -> sim RR (Log l k1) (Log l k2)
| sim_Await c k1 k2 :
    (forall r, sim RR (k1 r) (k2 r)) -> sim RR (Await c k1) (Await c k2).

(** Two ends of the handler that differ at most by the value returned. *)
Inductive same_end : TaskEnd -> TaskEnd -> Prop :=
| same_Returned v1 v2 : same_end (Returned v1) (Returned v2)
| same_AwaitsPMap ms1 ms2 :
    Forall2 (sim eq) ms1 ms2 -> same_end (AwaitsPMap ms1) (AwaitsPMap ms2).

(** Outcomes that agree on whether, and with what, the task failed. *)
Definition same_settlement {A B : Type} (o1 : Outcome A) (o2 : Outcome B) : Prop :=
  match o1, o2 with
  | Ok _, Ok _ => True
  | Fail e1, Fail e2 => e1 = e2
  | _, _ => False
  end.

(* ===================================================================== *)
(** * pMap under any schedule *)
(* ===================================================================== *)

(** The synchronous part of a call: it runs, logging, up to its next
    await or up to its end. *)
Fixpoint advance {R : Type} (p : Prog R) : Prog R * list Event :=
  match p with
  | Log l k => let '(q, t) := advance k in (q, EvLog l :: t)
  | _ => (p, [])
  end.

Definition settled {R : Type} (p : Prog R) : bool :=
  match p with
  | Ret _ | Throw _ => true
  | _ => false
  end.

(** A program that stands at an await or at its end. *)
Definition ready {R : Type} (p : Prog R) : bool :=
  match p with
  | Log _ _ => false
  | _ => true
  end.

Definition awaits {R : Type} (p : Prog R) : bool :=
  match p with
  | Await _ _ => true
  | _ => false
  end.

(** The fault of a call that threw. *)
Definition thrown (p : Prog unit) : list Fault :=
  match p with
  | Throw e => [e]
  | _ => []
  end.

(** The faults among outcomes, in their order. *)
Definition faults (outs : list (Outcome unit)) : list Fault :=
  flat_map (fun o => match o with Fail e => [e] | Ok _ => [] end) outs.

(** A mapper call in flight: what is left of it, and what it did so far. *)
Record Flight : Type := {
  rest : Prog unit;
  did : list Event
}.

(** The call of the mapper on one item, up to its first await. *)
Definition take_off (p : Prog unit) : Flight :=
  let '(q, t) := advance p in {| rest := q; did := t |}.

Fixpoint set_nth {A : Type} (i : nat) (x : A) (l : list A) : list A :=
  match l, i with
  | [], _ => []
  | _ :: l', O => x :: l'
  | y :: l', S i' => y :: set_nth i' x l'
  end.

Section Pool.

Variable W : Type.
Variable respond : forall c : Call, W -> Outcome (Resp c) * W.

(** The mapper calls of one [pMap], one per item and in the order of the
    items, the outside world, every event so far in the order of time,
    and the faults of the calls that threw, in the order of time. *)
Record Pool : Type := {
  flights : list Flight;
  pool_world : W;
  pool_trace : list Event;
  rejections : list Fault
}.

(** [pMap] starts: the mapper is called on every item, in order, and
    each call runs up to its first await.  No call has been answered by
    then: what a call awaits comes from outside the process, in a later
    turn of the event loop. *)
Definition start_pool (ps : list (Prog unit)) (w : W) : Pool :=
  {| flights := map take_off ps;
     pool_world := w;
     pool_trace := flat_map did (map take_off ps);
     rejections := flat_map (fun f => thrown (rest f)) (map take_off ps) |}.

(** The call on item [i] is resumed: the world answers the call it
    awaits, and it runs up to its next await or up to its end.  Nothing
    happens when it has ended; what the other calls did, and whether one
    of them threw, plays no part. *)
Definition resume (i : nat) (st : Pool) : Pool :=
  match nth_error (flights st) i with
  | Some f =>
      match rest f with
      | Await c k =>
          let '(r, w') := respond c (pool_world st) in
          let '(q, t) := advance (k r) in
          {| flights :=
               set_nth i {| rest := q; did := (did f ++ EvCall c r :: t)%list |}
                 (flights st);
             pool_world := w';
             pool_trace := (pool_trace st ++ EvCall c r :: t)%list;
             rejections := (rejections st ++ thrown q)%list |}
      | _ => st
      end
  | None => st
  end.

(** A schedule names, one after the other, the items whose call is
    resumed: the order in which the answers arrive.  Every order is a
    schedule. *)
Definition resume_all (sched : list nat) (st : Pool) : Pool :=
  fold_left (fun st i => resume i st) sched st.

Definition pMap_run (sched : list nat) (ps : list (Prog unit)) (w : W) : Pool :=
  resume_all sched (start_pool ps w).

Definition all_settled (st : Pool) : bool :=
  forallb (fun f => settled (rest f)) (flights st).

(** The promise that [pMap] returned: rejected with the first fault in
    time; fulfilled once every call has returned; pending otherwise.  The
    handler awaits it and returns nothing. *)
Definition pMap_promise (st : Pool) : option (Outcome JsVal) :=
  match rejections st with
  | e :: _ => Some (Fail e)
  | [] => if all_settled st then Some (Ok JUndefined) else None
  end.

(** One delivery of the queue under a schedule of the mapper calls. *)
Definition run_task_under (sched : list nat) (t : Prog TaskEnd) (w : W)
  : option (Outcome JsVal) * W * list Event :=
  let '(o, w1, tr) := run respond t w in
  match o with
  | Fail e => (Some (Fail e), w1, tr)
  | Ok (Returned v) => (Some (Ok v), w1, tr)
  | Ok (AwaitsPMap mappers) =>
      let st := pMap_run sched mappers w1 in
      (pMap_promise st, pool_world st, (tr ++ pool_trace st)%list)
  end.

End Pool.

Arguments flights {W} p.
Arguments pool_world {W} p.
Arguments pool_trace {W} p.
Arguments rejections {W} p.
Arguments start_pool {W} ps w.
Arguments resume {W} respond i st.
Arguments resume_all {W} respond sched st.
Arguments pMap_run {W} respond sched ps w.
Arguments all_settled {W} st.
Arguments pMap_promise {W} st.
Arguments run_task_under {W} respond sched t w.

(* ===================================================================== *)
(** * Vocabulary of the properties *)
(* ===================================================================== *)

(** The value of a listed transaction, when it is a number. *)
Definition numeric (tx : EtherscanTx) : Prop :=
  exists n, BigNumber_value (JStr (tx_value tx)) = Ok n.

(** The texts that are numbers, by their characters: an optional minus
    sign, then either decimal digits, at least one, or the prefix [0x] in
    lower case and hexadecimal digits, at least one. *)
Definition is_digit (c : ascii) : bool :=
  match c with
  | "0" | "1" | "2" | "3" | "4" | "5" | "6" | "7" | "8" | "9" => true
  | _ => false
  end%char.

Definition is_hex_digit (c : ascii) : bool :=
  match c with
  | "0" | "1" | "2" | "3" | "4" | "5" | "6" | "7" | "8" | "9"
  | "a" | "b" | "c" | "d" | "e" | "f"
  | "A" | "B" | "C" | "D" | "E" | "F" => true
  | _ => false
  end%char.

Fixpoint all_chars (f : ascii -> bool) (s : string) : bool :=
  match s with
  | EmptyString => true
  | String c s' => f c && all_chars f s'
  end.

Definition decimal_text (s : string) : bool :=
  match unsigned s with
  | EmptyString => false
  | t => all_chars is_digit t
  end.

Definition hex_text (s : string) : bool :=
  match unsigned s with
  | String z (String x (String c t)) =>
      Ascii.eqb z "0" && Ascii.eqb x "x" && all_chars is_hex_digit (String c t)
  | _ => false
  end.

Definition number_text (s : string) : bool := hex_text s || decimal_text s.

(** The two faults of a value that is not a number: the one of
    [BigNumber.from], and the one of bn.js on a text it cannot read. *)
Definition value_fault (e : Fault) : Prop :=
  e = InvalidBigNumber "invalid BigNumber string" \/
  exists text, e = JsError ("Invalid character in " ++ text).

(** [e] is the fault of the first value of [txs], in the order of the
    listing, that is not a number. *)
Definition first_unreadable (txs : list EtherscanTx) (e : Fault) : Prop :=
  exists good bad rest,
    txs = (good ++ bad :: rest)%list /\
    Forall numeric good /\
    BigNumber_value (JStr (tx_value bad)) = Fail e.

(** The value of a listed transaction as an integer (0 when it is not a
    number). *)
Definition amount (tx : EtherscanTx) : Z :=
  match BigNumber_value (JStr (tx_value tx)) with
  | Ok n => n
  | Fail _ => 0
  end.

(** What the filter of the selection keeps. *)
Definition positive (tx : EtherscanTx) : bool := 0 <? amount tx.

(** [tx.name], undefined when [tx] has no such property (or is itself
    undefined or null). *)
Definition field (tx : JsVal) (name : string) : JsVal :=
  match js_get tx name with
  | Ok v => v
  | Fail _ => JUndefined
  end.

(** Text of log lines. *)
Fixpoint starts_with (p s : string) : bool :=
  match p, s with
  | EmptyString, _ => true
  | String a p', String b s' => Ascii.eqb a b && starts_with p' s'
  | String _ _, EmptyString => false
  end.

(** [needle] occurs in [hay]. *)
Fixpoint contains (needle hay : string) : bool :=
  match hay with
  | EmptyString => starts_with needle hay
  | String _ hay' => starts_with needle hay || contains needle hay'
  end.

(** ** What one scan does *)

Section ScanShape.

Variable ctx : Context.
Variable uniqueId : NativeMethod -> JsVal -> string.
Variable W : Type.
Variable respond : forall c : Call, W -> Outcome (Resp c) * W.

(** The line logged after a credit. *)
Definition stored_deposit (txid valueAsEther orderId : string) : LogEntry :=
  {| log_level := info;
     log_cause := None;
     log_msg := "Stored deposit. " ++ txid ++ ". " ++ valueAsEther ++ " "
                  ++ nm_asset (nativeMethod ctx) ++ " for order " ++ orderId;
     log_args := [] |}.

(** The total of a transaction record, from its three fields. *)
Definition total_of_tx (tx : JsVal) : Outcome string :=
  (valueStr <- call_toString (field tx "value") ;;
   gasLimitStr <- call_toString (field tx "gasLimit") ;;
   gasPriceStr <- call_toString (field tx "gasPrice") ;;
   total valueStr gasLimitStr gasPriceStr)%outcome.

(** The order lookup of a scan. *)
Definition lookup_call (tx : JsVal) : Call :=
  GetOne (nm_id (nativeMethod ctx)) (field tx "from").

(** The credit call of a scan, for the order found, the hash [h] and the
    amount in ether. *)
Definition credit_call (order : Order) (h amount : string) : Call :=
  MaybeInternalCreateDeposit (order_id order) (JStr h) amount
    (uniqueId (nativeMethod ctx) (JStr h)).

(** The three ways a scan can go: no call at all; the order lookup only;
    the order lookup, the credit call and, after a credit, one log line. *)
Inductive scan_run (tx : JsVal) (w : W) : Outcome bool * W * list Event -> Prop :=
| scan_no_call o :
    o <> Ok true ->
    scan_run tx w (o, w, [])
| scan_lookup_only r1 w1 o :
    respond (lookup_call tx) w = (r1, w1) ->
    o <> Ok true ->
    scan_run tx w (o, w1, [EvCall (lookup_call tx) r1])
| scan_credit order h valueAsEther tot totalAsEther w1 r2 w2 :
    field tx "hash" = JStr h ->
    respond (lookup_call tx) w = (Ok (Some order), w1) ->
    total_of_tx tx = Ok tot ->
    formatEther (field tx "value") = Ok valueAsEther ->
    formatEther (JStr tot) = Ok totalAsEther ->
    respond (credit_call order h totalAsEther) w1 = (r2, w2) ->
    scan_run tx w
      (r2, w2,
       EvCall (lookup_call tx) (Ok (Some order))
         :: EvCall (credit_call order h totalAsEther) r2
         :: match r2 with
            | Ok true => [EvLog (stored_deposit h valueAsEther (order_id order))]
            | _ => []
            end).

End ScanShape.

(** ** What a run does to the ledger *)

Section LedgerShape.

Variable W : Type.
Variable credited : W -> string -> Prop.

(** What a run does to the ledger: it keeps the credits, and the ids under
    which it created credits were not credited before, are credited
    after, and are pairwise distinct. *)
Definition ledger_step (w w' : W) (tr : list Event) : Prop :=
  (forall u, credited w u -> credited w' u) /\
  (forall u, In u (created_ids tr) -> credited w' u /\ ~ credited w u) /\
  NoDup (created_ids tr).

End LedgerShape.

Arguments ledger_step {W} credited w w' tr.

(** ** What one task does *)

(** The first line of every task. *)
Definition processing_line (orderId : string) : LogEntry :=
  {| log_level := info; log_cause := None;
     log_msg := "Processing queued task to look at order %s for deposits";
     log_args := [JStr orderId] |}.

(** The error line of a task that cannot go on. *)
Definition order_error_line (msg orderId : string) : LogEntry :=
  {| log_level := error; log_cause := None;
     log_msg := msg; log_args := [JStr orderId] |}.


(* ===================================================================== *)
(** * A concrete deployment, for examples *)
(* ===================================================================== *)

Module Scenario.

Definition ctx : Context :=
  {| nativeMethod := {| nm_asset := "ETH"; nm_id := "ethereum-native" |};
     etherscanApiKey := "KEY";
     account := "0xAbCd00000000000000000000000000000000Ef01" |}.

Definition uniqueId (m : NativeMethod) (hash : JsVal) : string :=
  nm_id m ++ "/" ++ ToString hash.

Definition payer : string := "0x1111111111111111111111111111111111111111".

Definition order : Order :=
  {| order_id := "order-1";
     order_depositAddress := Some {| da_address := payer |};
     order_createdAt := 1700000000000 |}.

(** A deposit of 1 ether to the account, gas limit 21000 at 50 gwei. *)
Definition deposit (hash : string) : JsVal :=
  JObj [("hash", JStr hash);
        ("blockHash", JStr "0xb10c");
        ("from", JStr payer);
        ("to", JStr "0xABCD00000000000000000000000000000000EF01");
        ("value", JBig 1000000000000000000);
        ("gasLimit", JBig 21000);
        ("gasPrice", JBig 50000000000)].

(** An entry of the explorer's listing, parsed and raw. *)
Definition listed_tx (hash value : string) : EtherscanTx :=
  {| tx_hash := hash; tx_from := payer;
     tx_to := "0xabcd00000000000000000000000000000000ef01";
     tx_value := value |}.

(** Fifteen listed transactions, eleven of positive value, with zero-value
    ones interleaved. *)
Definition interleaved : list EtherscanTx :=
  [listed_tx "0x01" "5"; listed_tx "0x02" "0"; listed_tx "0x03" "1";
   listed_tx "0x04" "0"; listed_tx "0x05" "2"; listed_tx "0x06" "9";
   listed_tx "0x07" "0"; listed_tx "0x08" "4"; listed_tx "0x09" "4";
   listed_tx "0x0a" "0"; listed_tx "0x0b" "8"; listed_tx "0x0c" "1";
   listed_tx "0x0d" "6"; listed_tx "0x0e" "3"; listed_tx "0x0f" "7"].

Definition listed (hash value : string) : JsVal :=
  JObj [("hash", JStr hash); ("from", JStr payer);
        ("to", JStr "0xabcd00000000000000000000000000000000ef01");
        ("value", JStr value)].

(** The outside world: the order above, an explorer that lists three
    transactions, a node that knows ["0xgood"] and answers a record
    without block hash for ["0xbad"], and a ledger that remembers the
    unique ids it credited. *)
Definition respond (c : Call) (credited : list string)
  : Outcome (Resp c) * list string :=
  match c as c0 return Outcome (Resp c0) * list string with
  | FindOneBy id =>
      (Ok (if (id =? "order-1")%string then Some order else None), credited)
  | GetOne _ address =>
      (Ok (if (ToString address =? payer)%string then Some order else None),
       credited)
  | AxiosGet url =>
      (Ok (if starts_with "https://api.etherscan.io/api?module=block" url
           then JObj [("result", JStr "18500000")]
           else JArr [listed "0xbad" "7"; listed "0xnone" "0";
                      listed "0xgood" "1000000000000000000"]),
       credited)
  | GetTransaction hash =>
      (Ok (if (hash =? "0xgood")%string then deposit hash
           else JObj [("hash", JStr hash); ("from", JStr payer)]),
       credited)
  | MaybeInternalCreateDeposit _ _ _ u =>
      if existsb (String.eqb u) credited
      then (Ok false, credited)
      else (Ok true, u :: credited)
  end.

End Scenario.

(** A well-formed transfer (value, gas limit and gas price present) to an
    address that is not the configured account. *)
Definition transfer_to_other_account : JsVal :=
  JObj [("hash", JStr "0xfeed");
        ("blockHash", JStr "0xb10c");
        ("from", JStr Scenario.payer);
        ("to", JStr "0x2222222222222222222222222222222222222222");
        ("value", JBig 1000000000000000000);
        ("gasLimit", JBig 21000);
        ("gasPrice", JBig 50000000000)].

(** The credit call of the scan of [Scenario.deposit "0xgood"]. *)
Definition good_credit : Credit :=
  {| cr_orderId := "order-1";
     cr_txid := JStr "0xgood";
     cr_amount := "1.00105";
     cr_uniqueId := "ethereum-native/0xgood";
     cr_answer := Ok true |}.

(** The scan of that deposit, on an empty ledger. *)
Definition good_scan : Outcome bool * list string * list Event :=
  run Scenario.respond
    (V2.scanTxid Scenario.ctx Scenario.uniqueId (Scenario.deposit "0xgood")) [].

(** The ledger of [Scenario] is idempotent by unique id. *)
Definition scenario_credited (w : list string) (u : string) : Prop := In u w.

(** The same deposit scanned a second time, after the first scan credited it. *)
Definition replayed_scan : Outcome bool * list string * list Event :=
  run Scenario.respond
    (V2.scanTxid Scenario.ctx Scenario.uniqueId (Scenario.deposit "0xgood"))
    ["ethereum-native/0xgood"].

(* ===================================================================== *)
(** * Vocabulary of the stages of a task *)
(* ===================================================================== *)

(** The JSON of a listed transaction, as the explorer sends it. *)
Definition entry_json (tx : EtherscanTx) : JsVal :=
  JObj [("hash", JStr (tx_hash tx)); ("from", JStr (tx_from tx));
        ("to", JStr (tx_to tx)); ("value", JStr (tx_value tx))].

(** [v] is an object whose four listed keys hold the strings of [tx]. *)
Definition entry_of (v : JsVal) (tx : EtherscanTx) : Prop :=
  exists fields,
    v = JObj fields /\
    lookup_field "hash" fields = JStr (tx_hash tx) /\
    lookup_field "from" fields = JStr (tx_from tx) /\
    lookup_field "to" fields = JStr (tx_to tx) /\
    lookup_field "value" fields = JStr (tx_value tx).

(** The two requests to the explorer. *)
Definition block_url (ctx : Context) (timestamp : Z) : string :=
  "https://api.etherscan.io/api?module=block&action=getblocknobytime&timestamp="
    ++ ToString (JNum timestamp) ++ "&closest=before&apikey=" ++ etherscanApiKey ctx.

Definition txlist_url (ctx : Context) (address : string) (blockNumber : JsVal) : string :=
  "https://api.etherscan.io/api?module=account&action=txlist&address="
    ++ address ++ "&startblock=" ++ ToString blockNumber
    ++ "&sort=desc&apikey=" ++ etherscanApiKey ctx.

(** What the block-number request gives: [res.result], or the fault of the
    request or of the read. *)
Definition block_number_of (r : Outcome JsVal) : Outcome JsVal :=
  (res <- r ;; js_get res "result")%outcome.

(** What the listing request gives: the parsed body, or the fault of the
    request or of the schema. *)
Definition listing_of (r : Outcome JsVal) : Outcome (list EtherscanTx) :=
  (res <- r ;; accountTxListResultSchema_parse res)%outcome.

(** The other log lines of a task. *)
Definition block_error_line (timestamp : Z) (e : Fault) : LogEntry :=
  {| log_level := error; log_cause := Some e;
     log_msg := "Error fetching block number for order timestamp %s: %s";
     log_args := [JNum timestamp; JStr (fault_message e)] |}.

Definition fetch_error_line (orderId : string) (e : Fault) : LogEntry :=
  {| log_level := error; log_cause := Some e;
     log_msg := "Error fetching txs for order %s: %s";
     log_args := [JStr orderId; JStr (fault_message e)] |}.

Definition found_line (listed : nat) (orderId : string) : LogEntry :=
  {| log_level := info; log_cause := None;
     log_msg := "Found %s transactions for order %s";
     log_args := [JNum (Z.of_nat listed); JStr orderId] |}.

Definition not_found_line (hash : string) : LogEntry :=
  {| log_level := error; log_cause := None;
     log_msg := "Transaction %s not found"; log_args := [JStr hash] |}.

Definition scanning_line (hash : string) : LogEntry :=
  {| log_level := info; log_cause := None;
     log_msg := "Scanning tx %s"; log_args := [JStr hash] |}.

(** The hashes asked of the node, and the requests sent to the explorer, in
    the order of a trace. *)
Definition node_lookups (tr : list Event) : list string :=
  flat_map (fun c => match c with GetTransaction h => [h] | _ => [] end) (calls tr).

Definition explorer_requests (tr : list Event) : list string :=
  flat_map (fun c => match c with AxiosGet url => [url] | _ => [] end) (calls tr).

(** A record that the scanner takes for a payment to the account: it passes
    the guard, its destination is the account up to case, and it has a gas
    price. *)
Definition pays_account (ctx : Context) (tx : JsVal) : Prop :=
  V2.validateTx tx = Ok tt /\
  (exists s, field tx "to" = JStr s /\ s <> EmptyString /\
             lower s = lower (account ctx)) /\
  field tx "gasPrice" <> JUndefined.

(** What a task asks of the explorer, of the node and of the ledger.
    Either it ends before the mapping: nothing is asked of the node or of
    the ledger, and at most two requests went to the explorer.  Or the
    explorer listed [txs], all of numeric value: the node is asked for the
    hashes of the first ten positive-value transactions of [txs], in the
    order of the listing, the ledger is called at most once per hash, and
    exactly two requests went to the explorer. *)
Definition follows_listing (tr : list Event) : Prop :=
  (node_lookups tr = [] /\
   credit_calls tr = [] /\
   (length (explorer_requests tr) <= 2)%nat) \/
  (exists url (r : Outcome JsVal) txs,
      In (EvCall (AxiosGet url) r) tr /\
      listing_of r = Ok txs /\
      Forall numeric txs /\
      node_lookups tr = map tx_hash (firstn 10 (filter positive txs)) /\
      (length (credit_calls tr) <= length (node_lookups tr))%nat /\
      length (explorer_requests tr) = 2%nat).

(** A deployment whose explorer answers [block] to the block-number
    request and [listing] to the listing request; the order store knows the
    order of [Scenario], the node knows no transaction. *)
Module Outage.

Definition respond (block listing : Outcome JsVal) (c : Call) (w : unit)
  : Outcome (Resp c) * unit :=
  match c as c0 return Outcome (Resp c0) * unit with
  | FindOneBy _ => (Ok (Some Scenario.order), tt)
  | GetOne _ _ => (Ok None, tt)
  | AxiosGet url =>
      (if starts_with "https://api.etherscan.io/api?module=block" url
       then block else listing, tt)
  | GetTransaction _ => (Ok JNull, tt)
  | MaybeInternalCreateDeposit _ _ _ _ => (Ok false, tt)
  end.

(** The block number the explorer of [Scenario] answers. *)
Definition block : Outcome JsVal := Ok (JObj [("result", JStr "18500000")]).

(** A failed request. *)
Definition timeout : Outcome JsVal := Fail (External "timeout of 10000ms exceeded").

(** A listing with two entries whose value is not a number: the first
    has an upper-case hexadecimal prefix, the second is a word. *)
Definition bad_listing : Outcome JsVal :=
  Ok (JArr [Scenario.listed "0x01" "5"; Scenario.listed "0x02" "0X1F";
            Scenario.listed "0x03" "five"]).

End Outage.

Section TaskStages.

Variable ctx : Context.
Variable W : Type.
Variable respond : forall c : Call, W -> Outcome (Resp c) * W.
Variable mapper : EtherscanTx -> Prog unit.

(** The ways the handler can go before the mapping, stage by stage: the
    order store rejects; the order is missing or has no address; no block
    number; no listing; the selection throws; the mapping starts. *)
Inductive task_prefix (orderId : string) (w : W)
  : Outcome TaskEnd * W * list Event -> Prop :=
| prefix_store_rejects e w1 :
    respond (FindOneBy orderId) w = (Fail e, w1) ->
    task_prefix orderId w
      (Fail e, w1,
       [EvLog (processing_line orderId); EvCall (FindOneBy orderId) (Fail e)])
| prefix_no_order v w1 :
    respond (FindOneBy orderId) w = (Ok None, w1) ->
    task_prefix orderId w
      (Ok (Returned v), w1,
       [EvLog (processing_line orderId); EvCall (FindOneBy orderId) (Ok None);
        EvLog (order_error_line "Order %s not found" orderId)])
| prefix_no_address v o w1 :
    respond (FindOneBy orderId) w = (Ok (Some o), w1) ->
    order_depositAddress o = None ->
    task_prefix orderId w
      (Ok (Returned v), w1,
       [EvLog (processing_line orderId); EvCall (FindOneBy orderId) (Ok (Some o));
        EvLog (order_error_line "Order %s has no deposit address" orderId)])
| prefix_block_fails o d w1 r1 w2 e :
    respond (FindOneBy orderId) w = (Ok (Some o), w1) ->
    order_depositAddress o = Some d ->
    respond (AxiosGet (block_url ctx (order_createdAt o))) w1 = (r1, w2) ->
    block_number_of r1 = Fail e ->
    task_prefix orderId w
      (Ok (Returned JUndefined), w2,
       [EvLog (processing_line orderId); EvCall (FindOneBy orderId) (Ok (Some o));
        EvCall (AxiosGet (block_url ctx (order_createdAt o))) r1;
        EvLog (block_error_line (order_createdAt o) e)])
| prefix_no_block o d w1 r1 w2 blockNumber :
    respond (FindOneBy orderId) w = (Ok (Some o), w1) ->
    order_depositAddress o = Some d ->
    respond (AxiosGet (block_url ctx (order_createdAt o))) w1 = (r1, w2) ->
    block_number_of r1 = Ok blockNumber ->
    truthy blockNumber = false ->
    task_prefix orderId w
      (Ok (Returned JUndefined), w2,
       [EvLog (processing_line orderId); EvCall (FindOneBy orderId) (Ok (Some o));
        EvCall (AxiosGet (block_url ctx (order_createdAt o))) r1])
| prefix_no_listing o d w1 r1 w2 blockNumber r2 w3 e :
    respond (FindOneBy orderId) w = (Ok (Some o), w1) ->
    order_depositAddress o = Some d ->
    respond (AxiosGet (block_url ctx (order_createdAt o))) w1 = (r1, w2) ->
    block_number_of r1 = Ok blockNumber ->
    truthy blockNumber = true ->
    respond (AxiosGet (txlist_url ctx (da_address d) blockNumber)) w2 = (r2, w3) ->
    listing_of r2 = Fail e ->
    task_prefix orderId w
      (Ok (Returned JUndefined), w3,
       [EvLog (processing_line orderId); EvCall (FindOneBy orderId) (Ok (Some o));
        EvCall (AxiosGet (block_url ctx (order_createdAt o))) r1;
        EvCall (AxiosGet (txlist_url ctx (da_address d) blockNumber)) r2;
        EvLog (fetch_error_line orderId e)])
| prefix_selection_throws o d w1 r1 w2 blockNumber r2 w3 txs e :
    respond (FindOneBy orderId) w = (Ok (Some o), w1) ->
    order_depositAddress o = Some d ->
    respond (AxiosGet (block_url ctx (order_createdAt o))) w1 = (r1, w2) ->
    block_number_of r1 = Ok blockNumber ->
    truthy blockNumber = true ->
    respond (AxiosGet (txlist_url ctx (da_address d) blockNumber)) w2 = (r2, w3) ->
    listing_of r2 = Ok txs ->
    trimmedTxs txs = Fail e ->
    task_prefix orderId w
      (Fail e, w3,
       [EvLog (processing_line orderId); EvCall (FindOneBy orderId) (Ok (Some o));
        EvCall (AxiosGet (block_url ctx (order_createdAt o))) r1;
        EvCall (AxiosGet (txlist_url ctx (da_address d) blockNumber)) r2])
| prefix_scanning o d w1 r1 w2 blockNumber r2 w3 txs selected :
    respond (FindOneBy orderId) w = (Ok (Some o), w1) ->
    order_depositAddress o = Some d ->
    respond (AxiosGet (block_url ctx (order_createdAt o))) w1 = (r1, w2) ->
    block_number_of r1 = Ok blockNumber ->
    truthy blockNumber = true ->
    respond (AxiosGet (txlist_url ctx (da_address d) blockNumber)) w2 = (r2, w3) ->
    listing_of r2 = Ok txs ->
    trimmedTxs txs = Ok selected ->
    task_prefix orderId w
      (Ok (AwaitsPMap (map mapper selected)), w3,
       [EvLog (processing_line orderId); EvCall (FindOneBy orderId) (Ok (Some o));
        EvCall (AxiosGet (block_url ctx (order_createdAt o))) r1;
        EvCall (AxiosGet (txlist_url ctx (da_address d) blockNumber)) r2;
        EvLog (found_line (length txs) orderId)]).

End TaskStages.

(** [p], followed along the events [t], stands at [q]. *)
Inductive leads {R : Type} : Prog R -> list Event -> Prog R -> Prop :=
| leads_here p : leads p [] p
| leads_log l k t q : leads k t q -> leads (Log l k) (EvLog l :: t) q
| leads_call c k r t q : leads (k r) t q -> leads (Await c k) (EvCall c r :: t) q.

Section FlightShape.

Variable mapper : EtherscanTx -> Prog unit.
Variable scan : JsVal -> Prog bool.

(** Where the mapper call for the candidate [c] can stand: it awaits the
    node; the node rejected, and the call threw that; the node does not
    know the transaction, and the call logged that and returned; or the
    node gave the transaction [tx], and the call follows the scan of
    [tx]: it returns when the scan returns, and throws what the scan
    throws. *)
Inductive flight_of (c : EtherscanTx) : Flight -> Prop :=
| flight_waits :
    flight_of c {| rest := mapper c; did := [] |}
| flight_node_failed e :
    flight_of c
      {| rest := Throw e;
         did := [EvCall (GetTransaction (tx_hash c)) (Fail e)] |}
| flight_skipped tx :
    truthy tx = false ->
    flight_of c
      {| rest := Ret tt;
         did := [EvCall (GetTransaction (tx_hash c)) (Ok tx);
                 EvLog (not_found_line (tx_hash c))] |}
| flight_scans tx evs q :
    truthy tx = true ->
    leads (scan tx) evs q ->
    flight_of c
      {| rest := (_ <- q ;; Ret tt)%prog;
         did := EvCall (GetTransaction (tx_hash c)) (Ok tx)
                  :: EvLog (scanning_line (tx_hash c)) :: evs |}.

End FlightShape.

Section TaskShape.

Variable W : Type.
Variable respond : forall c : Call, W -> Outcome (Resp c) * W.

(** The mapper calls of one [pMap] on the candidates [cs], from the world
    [w] and under the schedule [sched], do not abort one another:
    - every call stands at a stage of its own candidate, whatever the
      others did;
    - what a call did is part of the events of the task;
    - the faults that rejected are the faults of the calls that threw, no
      call throws for another;
    - resuming calls further never takes a fault back: the promise stays
      rejected with the first fault in time;
    - the calls can always be resumed until each has returned or thrown,
      and then every candidate has been looked up at the node. *)
Definition calls_go_on
    (mapper : EtherscanTx -> Prog unit) (scan : JsVal -> Prog bool)
    (cs : list EtherscanTx) (w : W) (sched : list nat) : Prop :=
  let st := pMap_run respond sched (map mapper cs) w in
  Forall2 (flight_of mapper scan) cs (flights st) /\
  (forall f, In f (flights st) -> incl (did f) (pool_trace st)) /\
  (forall e, In e (rejections st) <->
             exists f, In f (flights st) /\ rest f = Throw e) /\
  (forall more,
      exists later,
        rejections (pMap_run respond (sched ++ more) (map mapper cs) w)
        = (rejections st ++ later)%list) /\
  (forall e more,
      pMap_promise st = Some (Fail e) ->
      pMap_promise (pMap_run respond (sched ++ more) (map mapper cs) w)
      = Some (Fail e)) /\
  (exists more,
      all_settled (pMap_run respond (sched ++ more) (map mapper cs) w) = true) /\
  (all_settled st = true ->
   forall c, In c cs ->
     exists r, In (EvCall (GetTransaction (tx_hash c)) r) (pool_trace st)).

End TaskShape.

(* ===================================================================== *)
(** * Examples *)
(* ===================================================================== *)

Example formatEther_one : formatEther (JBig (10 ^ 18)) = Ok "1.0".
Proof. reflexivity. Qed.
Example formatEther_frac : formatEther (JStr "5000021000000000000") = Ok "5.000021".
Proof. reflexivity. Qed.
Example formatEther_small : formatEther (JStr "0x10") = Ok "0.000000000000000016".
Proof. reflexivity. Qed.
Example formatEther_neg : formatEther (JBig (-1500000000000000000)) = Ok "-1.5".
Proof. reflexivity. Qed.
Example formatEther_bad :
  formatEther (JStr "1e+21") = Fail (InvalidBigNumber "invalid BigNumber string").
Proof. reflexivity. Qed.
Example ToString_arr : ToString (JArr [JNum 1; JNull; JStr "a"]) = "1,,a".
Proof. reflexivity. Qed.
Example BigNumber_from_hex : BigNumber_value (JStr "-0x1F") = Ok (-31).
Proof. reflexivity. Qed.
Example BigNumber_from_leading_zeros : BigNumber_value (JStr "007") = Ok 7.
Proof. reflexivity. Qed.
Example BigNumber_from_upper_prefix :
  BigNumber_from (JStr "0X1F") = Ok (BigUnreadable "0X1F") /\
  BigNumber_value (JStr "0X1F") = Fail (JsError "Invalid character in 0X1F") /\
  BigNumber_value (JStr "-0X1") = Fail (JsError "Invalid character in -X1").
Proof. repeat split. Qed.
Example BigNumber_from_fraction :
  BigNumber_from (JStr "1.5") = Fail (InvalidBigNumber "invalid BigNumber string").
Proof. reflexivity. Qed.
Example BigNumber_from_empty :
  BigNumber_from (JStr EmptyString) = Fail (InvalidBigNumber "invalid BigNumber string").
Proof. reflexivity. Qed.
Example BigNumber_from_unsafe :
  BigNumber_from (JNum 9007199254740991) = Fail (InvalidBigNumber "overflow").
Proof. reflexivity. Qed.
Example lower_address :
  lower "0xAbCd00000000000000000000000000000000Ef01"
  = "0xabcd00000000000000000000000000000000ef01".
Proof. reflexivity. Qed.
Example schema_drops_other_keys :
  accountTxListResultSchema_parse
    (JArr [JObj [("blockNumber", JStr "1"); ("hash", JStr "0xa"); ("from", JStr "0xb");
                 ("to", JStr "0xc"); ("value", JStr "5")]])
  = Ok [{| tx_hash := "0xa"; tx_from := "0xb"; tx_to := "0xc"; tx_value := "5" |}].
Proof. reflexivity. Qed.
Example schema_rejects_number_value :
  accountTxListResultSchema_parse
    (JArr [JObj [("hash", JStr "0xa"); ("from", JStr "0xb");
                 ("to", JStr "0xc"); ("value", JNum 5)]])
  = Fail ZodError.
Proof. reflexivity. Qed.
(** A value that is not a number makes the filter callback throw. *)
Example selection_throws_on_text :
  trimmedTxs [Scenario.listed_tx "0xa" "5"; Scenario.listed_tx "0xb" "five"]
  = Fail (InvalidBigNumber "invalid BigNumber string").
Proof. reflexivity. Qed.


(* ===================================================================== *)
(** * General lemmas *)
(* ===================================================================== *)

Section RunFacts.

Variable W : Type.
Variable respond : forall c : Call, W -> Outcome (Resp c) * W.

Lemma run_bind {A B : Type} (p : Prog A) (f : A -> Prog B) (w : W) :
  run respond (bind p f) w =
  let '(o, w1, t1) := run respond p w in
  match o with
  | Ok a => let '(o2, w2, t2) := run respond (f a) w1 in (o2, w2, (t1 ++ t2)%list)
  | Fail e => (Fail e, w1, t1)
  end.
Proof.
  revert w; induction p as [a | e | l k IH | c k IH]; intros w; simpl.
  - destruct (run respond (f a) w) as [[o2 w2] t2]; reflexivity.
  - reflexivity.
  - rewrite IH. destruct (run respond k w) as [[o w1] t1].
    destruct o as [a | e]; [| reflexivity].
    destruct (run respond (f a) w1) as [[o2 w2] t2]; reflexivity.
  - destruct (respond c w) as [r w1]. rewrite IH.
    destruct (run respond (k r) w1) as [[o w2] t1].
    destruct o as [a | e]; [| reflexivity].
    destruct (run respond (f a) w2) as [[o2 w3] t2]; reflexivity.
Qed.

Lemma run_sim {A B : Type} (RR : A -> B -> Prop) (p : Prog A) (q : Prog B) :
  sim RR p q ->
  forall w,
    let '(o1, w1, t1) := run respond p w in
    let '(o2, w2, t2) := run respond q w in
    w1 = w2 /\ t1 = t2 /\
    match o1, o2 with
    | Ok a, Ok b => RR a b
    | Fail e1, Fail e2 => e1 = e2
    | _, _ => False
    end.
Proof.
  induction 1 as [a b Hab | e | l k1 k2 _ IH | c k1 k2 _ IH]; intros w; simpl.
  - auto.
  - auto.
  - specialize (IH w).
    destruct (run respond k1 w) as [[o1 w1] t1].
    destruct (run respond k2 w) as [[o2 w2] t2].
    destruct IH as (-> & -> & Ho). auto.
  - destruct (respond c w) as [r w'].
    specialize (IH r w').
    destruct (run respond (k1 r) w') as [[o1 w1] t1].
    destruct (run respond (k2 r) w') as [[o2 w2] t2].
    destruct IH as (-> & -> & Ho). auto.
Qed.

Lemma run_all_sim (ms1 ms2 : list (Prog unit)) :
  Forall2 (sim eq) ms1 ms2 ->
  forall w, run_all respond ms1 w = run_all respond ms2 w.
Proof.
  induction 1 as [| p q ms1 ms2 Hpq _ IH]; intros w; simpl; [reflexivity |].
  pose proof (run_sim eq p q Hpq w) as Hrun.
  destruct (run respond p w) as [[o1 w1] t1].
  destruct (run respond q w) as [[o2 w2] t2].
  destruct Hrun as (-> & -> & Ho).
  rewrite IH.
  destruct o1 as [[] | e1], o2 as [[] | e2]; try contradiction; subst; reflexivity.
Qed.

Lemma run_all_app (ps qs : list (Prog unit)) (w : W) :
  run_all respond (ps ++ qs)%list w =
  let '(os1, w1, t1) := run_all respond ps w in
  let '(os2, w2, t2) := run_all respond qs w1 in
  ((os1 ++ os2)%list, w2, (t1 ++ t2)%list).
Proof.
  revert w; induction ps as [| p ps IH]; intros w; simpl.
  - destruct (run_all respond qs w) as [[os2 w2] t2]; reflexivity.
  - destruct (run respond p w) as [[o w1] t1].
    rewrite IH.
    destruct (run_all respond ps w1) as [[os1 w2] t2].
    destruct (run_all respond qs w2) as [[os2 w3] t3].
    rewrite app_assoc; reflexivity.
Qed.

End RunFacts.

Lemma sim_refl {A : Type} (RR : A -> A -> Prop) (p : Prog A) :
  (forall a, RR a a) -> sim RR p p.
Proof.
  intros HR; induction p; constructor; auto.
Qed.

Lemma sim_bind {A1 A2 B1 B2 : Type}
    (RA : A1 -> A2 -> Prop) (RB : B1 -> B2 -> Prop)
    (p : Prog A1) (q : Prog A2) (f : A1 -> Prog B1) (g : A2 -> Prog B2) :
  sim RA p q ->
  (forall a b, RA a b -> sim RB (f a) (g b)) ->
  sim RB (bind p f) (bind q g).
Proof.
  intros Hpq Hfg; induction Hpq; simpl; try constructor; auto.
Qed.

Lemma sim_try_catch {A : Type} (p q : Prog A) (h1 h2 : Fault -> Prog A) :
  sim eq p q ->
  (forall e, sim eq (h1 e) (h2 e)) ->
  sim eq (try_catch p h1) (try_catch q h2).
Proof.
  intros Hpq Hh; induction Hpq; simpl; try constructor; auto.
Qed.

Lemma sim_of_eq {A : Type} (p q : Prog A) : p = q -> sim eq p q.
Proof.
  intros ->; apply sim_refl; reflexivity.
Qed.

(* ===================================================================== *)
(** * Decimal strings *)
(* ===================================================================== *)

Lemma parse_decimal_of_Z (n : Z) : parse_decimal (decimal_of_Z n) = Some n.
Proof.
  unfold parse_decimal, decimal_of_Z.
  rewrite NilZero.isi.
  - simpl. now rewrite DecimalZ.of_to.
  - destruct n as [| p | p]; simpl; try discriminate.
    intros [= H]. now apply DecimalPos.Unsigned.to_uint_nonnil in H.
  - destruct n as [| p | p]; simpl; try discriminate.
    intros [= H]. now apply DecimalPos.Unsigned.to_uint_nonnil in H.
Qed.

Lemma ns_number_of_Z (n : Z) : ns.number (decimal_of_Z n) = Ok n.
Proof.
  unfold ns.number. now rewrite parse_decimal_of_Z.
Qed.

Lemma total_exact (sv sl sp : string) (v l p : Z) :
  parse_decimal sv = Some v ->
  parse_decimal sl = Some l ->
  parse_decimal sp = Some p ->
  total sv sl sp = Ok (decimal_of_Z (v + l * p)).
Proof.
  intros Hv Hl Hp. unfold total, ns.times, ns.sum, ns.number.
  rewrite Hl, Hp, Hv. simpl.
  rewrite parse_decimal_of_Z. reflexivity.
Qed.

(* ===================================================================== *)
(** * The texts that are numbers *)
(* ===================================================================== *)

Lemma uint_of_string_digits (s : string) :
  (exists d, NilEmpty.uint_of_string s = Some d) <-> all_chars is_digit s = true.
Proof.
  induction s as [| c s IH]; simpl.
  - split; eauto.
  - destruct (NilEmpty.uint_of_string s) as [d |].
    + assert (Hs : all_chars is_digit s = true) by (apply IH; eauto).
      rewrite Hs, andb_true_r.
      destruct c as [[|] [|] [|] [|] [|] [|] [|] [|]]; simpl;
        (split; [intros [d' H]; first [discriminate H | reflexivity]
                | intros H; first [discriminate H | eauto]]).
    + assert (Hs : all_chars is_digit s = false).
      { destruct (all_chars is_digit s); [| reflexivity].
        destruct (proj2 IH eq_refl) as [d H]. discriminate H. }
      rewrite Hs, andb_false_r.
      split; [intros [d H]; discriminate H | discriminate].
Qed.

Lemma parse_decimal_text (s : string) :
  (exists n, parse_decimal s = Some n) <-> decimal_text s = true.
Proof.
  unfold parse_decimal, NilZero.int_of_string, decimal_text, unsigned.
  destruct s as [| a s]; [split; [intros [n H]; discriminate H | discriminate] |].
  destruct (Ascii.eqb a "-").
  - unfold NilZero.uint_of_string.
    destruct s as [| b s]; [split; [intros [n H]; discriminate H | discriminate] |].
    rewrite <- uint_of_string_digits.
    destruct (NilEmpty.uint_of_string (String b s)) as [d |]; simpl;
      split; intros [x H]; first [discriminate H | eauto].
  - unfold NilZero.uint_of_string.
    rewrite <- uint_of_string_digits.
    destruct (NilEmpty.uint_of_string (String a s)) as [d |]; simpl;
      split; intros [x H]; first [discriminate H | eauto].
Qed.

Lemma is_hex_digit_spec (c : ascii) :
  is_hex_digit c = match hex_digit c with Some _ => true | None => false end.
Proof.
  destruct c as [[|] [|] [|] [|] [|] [|] [|] [|]]; reflexivity.
Qed.

Lemma hex_value_digits (s : string) (acc : Z) :
  (exists n, hex_value s acc = Some n) <-> all_chars is_hex_digit s = true.
Proof.
  revert acc. induction s as [| c s IH]; intros acc; simpl.
  - split; eauto.
  - rewrite is_hex_digit_spec.
    destruct (hex_digit c) as [d |]; simpl.
    + apply IH.
    + split; [intros [n H]; discriminate H | discriminate].
Qed.

(** A text that [BigNumber.from] keeps unreadable is no number text. *)
Lemma parse_hex_unreadable (s text : string) :
  parse_hex s = Some (BigUnreadable text) -> number_text s = false.
Proof.
  unfold parse_hex, number_text, hex_text, decimal_text.
  destruct (unsigned s) as [| z [| x [| c t]]]; try discriminate.
  remember (hex_value (String c t) 0) as hv.
  destruct (Ascii.eqb z "0"); cbn [negb]; [| discriminate].
  destruct (Ascii.eqb x "x") eqn:Hx.
  - intros H. destruct hv; discriminate H.
  - destruct (Ascii.eqb_spec x "X") as [-> |]; [| discriminate].
    intros _. simpl. apply andb_false_r.
Qed.

Lemma parse_hex_number (s : string) :
  (exists n, parse_hex s = Some (BigOf n)) <-> hex_text s = true.
Proof.
  unfold parse_hex, hex_text.
  destruct (unsigned s) as [| z [| x [| c t]]];
    try (split; [intros [n H]; discriminate H | discriminate]).
  destruct (Ascii.eqb z "0"); cbn [negb andb];
    [| split; [intros [n H]; discriminate H | intros H; discriminate H]].
  destruct (Ascii.eqb x "x"); cbn [andb].
  - rewrite <- (hex_value_digits (String c t) 0).
    remember (hex_value (String c t) 0) as hv.
    destruct hv as [n |]; cbn [option_map]; split; intros [m H];
      first [discriminate H | eauto].
  - split; [| intros H; discriminate H].
    remember (hex_value (String c t) 0) as hv.
    intros [n H]. destruct (Ascii.eqb x "X"); [| discriminate H].
    destruct hv; discriminate H.
Qed.

(** The values that the selection can read are the number texts. *)
Lemma BigNumber_value_number_text (s : string) :
  (exists n, BigNumber_value (JStr s) = Ok n) <-> number_text s = true.
Proof.
  unfold BigNumber_value, BigNumber_from.
  destruct (parse_hex s) as [[n | text] |] eqn:Hhex; cbn.
  - split; [intros _ | eauto].
    unfold number_text. rewrite (proj1 (parse_hex_number s)) by eauto. reflexivity.
  - rewrite (parse_hex_unreadable s text Hhex).
    split; [intros [n H]; discriminate H | discriminate].
  - assert (Hh : hex_text s = false).
    { destruct (hex_text s) eqn:Hh; [| reflexivity].
      destruct (proj2 (parse_hex_number s) Hh) as [n H]. congruence. }
    unfold number_text. rewrite Hh. simpl.
    rewrite <- parse_decimal_text.
    destruct (parse_decimal s) as [n |]; cbn;
      split; intros [m H]; first [discriminate H | eauto].
Qed.

Lemma numeric_number_text (tx : EtherscanTx) :
  numeric tx <-> number_text (tx_value tx) = true.
Proof.
  apply BigNumber_value_number_text.
Qed.

Lemma Forall_numeric_number_text (txs : list EtherscanTx) :
  Forall numeric txs <-> Forall (fun tx => number_text (tx_value tx) = true) txs.
Proof.
  split; apply Forall_impl; intros tx; apply numeric_number_text.
Qed.

(* ===================================================================== *)
(** * The candidate selection *)
(* ===================================================================== *)

Lemma js_filter_numeric (txs : list EtherscanTx) :
  Forall numeric txs ->
  js_filter value_gt_0 txs = Ok (filter positive txs).
Proof.
  induction 1 as [| tx txs [n Hn] _ IH]; simpl; [reflexivity |].
  rewrite IH. unfold value_gt_0, positive, amount. rewrite Hn. reflexivity.
Qed.

Lemma js_filter_returns (txs out : list EtherscanTx) :
  js_filter value_gt_0 txs = Ok out -> Forall numeric txs.
Proof.
  revert out; induction txs as [| tx txs IH]; intros out; simpl; [constructor |].
  unfold value_gt_0 at 1.
  destruct (BigNumber_value (JStr (tx_value tx))) as [n | e] eqn:Hn; simpl;
    [| discriminate].
  destruct (js_filter value_gt_0 txs) as [rest | e]; simpl; [| discriminate].
  intros _. constructor; [exists n; exact Hn | eapply IH; reflexivity].
Qed.

Lemma trimmedTxs_numeric (txs : list EtherscanTx) :
  Forall numeric txs ->
  trimmedTxs txs = Ok (firstn 10 (filter positive txs)).
Proof.
  intros H. unfold trimmedTxs. rewrite (js_filter_numeric txs H). reflexivity.
Qed.

Lemma trimmedTxs_returns (txs out : list EtherscanTx) :
  trimmedTxs txs = Ok out ->
  Forall numeric txs /\ out = firstn 10 (filter positive txs).
Proof.
  intros Hsel.
  assert (Hnum : Forall numeric txs).
  { unfold trimmedTxs in Hsel.
    destruct (js_filter value_gt_0 txs) as [kept | e] eqn:Hf.
    - exact (js_filter_returns txs kept Hf).
    - discriminate Hsel. }
  split; [exact Hnum |].
  rewrite (trimmedTxs_numeric txs Hnum) in Hsel. congruence.
Qed.

Lemma filter_all_zero (txs : list EtherscanTx) :
  Forall (fun tx => amount tx = 0) txs -> filter positive txs = [].
Proof.
  induction 1 as [| tx txs Hz _ IH]; simpl; [reflexivity |].
  unfold positive at 1. rewrite Hz. simpl. exact IH.
Qed.

(* ===================================================================== *)
(** * The structural guard *)
(* ===================================================================== *)

Lemma typeof_string_inv (v : JsVal) :
  (typeof v =? "string")%string = true -> exists s, v = JStr s.
Proof.
  destruct v; simpl; try discriminate. eauto.
Qed.

Section Guard.

Variable ctx : Context.
Variable uniqueId : NativeMethod -> JsVal -> string.

(** A record that passes the guard is an object with a truthy [from], a
    string [hash] and a string [blockHash]. *)
Lemma validateTx_ok_inv (tx : JsVal) :
  V2.validateTx tx = Ok tt ->
  exists fields h b,
    tx = JObj fields /\
    truthy (lookup_field "from" fields) = true /\
    lookup_field "hash" fields = JStr h /\
    lookup_field "blockHash" fields = JStr b.
Proof.
  unfold V2.validateTx.
  destruct tx as [| | b | n | s | n | xs | fields]; simpl; try discriminate.
  unfold assert.
  destruct (truthy (lookup_field "from" fields)) eqn:Hfrom; simpl; [| discriminate].
  destruct (typeof (lookup_field "hash" fields) =? "string")%string eqn:Hh;
    simpl; [| discriminate].
  destruct (typeof (lookup_field "blockHash" fields) =? "string")%string eqn:Hb;
    simpl; [| discriminate].
  intros _.
  apply typeof_string_inv in Hh, Hb.
  destruct Hh as [h Hh], Hb as [b Hb].
  exists fields, h, b. auto.
Qed.

Lemma validateTx_ok_intro (fields : list (string * JsVal)) (h b : string) :
  truthy (lookup_field "from" fields) = true ->
  lookup_field "hash" fields = JStr h ->
  lookup_field "blockHash" fields = JStr b ->
  V2.validateTx (JObj fields) = Ok tt.
Proof.
  intros Hfrom Hh Hb. unfold V2.validateTx, assert. simpl.
  rewrite Hfrom, Hh, Hb. reflexivity.
Qed.

(** The original worker runs the same guard, inline, before anything
    else: the two [scanTxid] are the same tree. *)
Lemma scanTxid_same (tx : JsVal) :
  V1.scanTxid ctx uniqueId tx = V2.scanTxid ctx uniqueId tx.
Proof.
  unfold V1.scanTxid, V2.scanTxid, V2.validateTx, V1.fetchOrderForAddress,
    V2.fetchOrderForAddress.
  destruct tx as [| | b | n | s | n | xs | fields]; try reflexivity.
  simpl. unfold assert.
  destruct (truthy (lookup_field "from" fields)); simpl; [| reflexivity].
  destruct (typeof (lookup_field "hash" fields) =? "string")%string;
    simpl; [| reflexivity].
  destruct (typeof (lookup_field "blockHash" fields) =? "string")%string;
    simpl; reflexivity.
Qed.

End Guard.

(* ===================================================================== *)
(** * Text of log lines *)
(* ===================================================================== *)

Lemma starts_with_app (x b : string) : starts_with x (x ++ b) = true.
Proof.
  induction x as [| c x IH]; simpl; [reflexivity |].
  rewrite Ascii.eqb_refl. exact IH.
Qed.

Lemma contains_starts_with (x s : string) :
  starts_with x s = true -> contains x s = true.
Proof.
  destruct s; simpl; intros ->; reflexivity.
Qed.

Lemma contains_head (x b : string) : contains x (x ++ b) = true.
Proof.
  apply contains_starts_with, starts_with_app.
Qed.

Lemma contains_self (x : string) : contains x x = true.
Proof.
  apply contains_starts_with.
  induction x as [| c x IH]; simpl; [reflexivity |].
  rewrite Ascii.eqb_refl. exact IH.
Qed.

Lemma contains_skip (a x s : string) :
  contains x s = true -> contains x (a ++ s) = true.
Proof.
  intros H. induction a as [| c a IH]; simpl; [exact H |].
  rewrite IH. apply orb_true_r.
Qed.

(* ===================================================================== *)
(** * What one scan does *)
(* ===================================================================== *)

#[local] Arguments String.append : simpl never.

Section ScanFacts.

Variable ctx : Context.
Variable uniqueId : NativeMethod -> JsVal -> string.
Variable W : Type.
Variable respond : forall c : Call, W -> Outcome (Resp c) * W.

Lemma scan_run_spec (tx : JsVal) (w : W) :
  scan_run ctx uniqueId W respond tx w (run respond (V2.scanTxid ctx uniqueId tx) w).
Proof.
  unfold V2.scanTxid.
  destruct (V2.validateTx tx) as [[] | e] eqn:Hv; simpl;
    [| apply (scan_no_call ctx uniqueId W respond); discriminate].
  destruct (validateTx_ok_inv tx Hv) as (fields & h & b & -> & Hfrom & Hh & Hb).
  simpl. rewrite Hh.
  destruct (truthy (lookup_field "to" fields)); simpl;
    [| apply (scan_no_call ctx uniqueId W respond); discriminate].
  destruct (call_toLowerCase (lookup_field "to" fields)) as [lowered | e]; simpl;
    [| apply (scan_no_call ctx uniqueId W respond); discriminate].
  destruct (lowered =? lower (account ctx))%string; simpl;
    [| apply (scan_no_call ctx uniqueId W respond); discriminate].
  destruct (is_undefined (lookup_field "gasPrice" fields)); simpl;
    [apply (scan_no_call ctx uniqueId W respond); discriminate |].
  match goal with
  | |- context [lift ?o] => destruct o as [tot | e] eqn:Htot
  end; simpl; [| apply (scan_no_call ctx uniqueId W respond); discriminate].
  destruct (respond (GetOne (nm_id (nativeMethod ctx)) (lookup_field "from" fields)) w)
    as [r1 w1] eqn:Hr1.
  destruct r1 as [[order |] | e]; simpl;
    try (eapply (scan_lookup_only ctx uniqueId W respond); [exact Hr1 | discriminate]).
  destruct (formatEther (lookup_field "value" fields)) as [valueAsEther | e] eqn:Hve;
    simpl; [| eapply (scan_lookup_only ctx uniqueId W respond); [exact Hr1 | discriminate]].
  destruct (formatEther (JStr tot)) as [totalAsEther | e] eqn:Hte;
    simpl; [| eapply (scan_lookup_only ctx uniqueId W respond); [exact Hr1 | discriminate]].
  destruct (respond (MaybeInternalCreateDeposit (order_id order) (JStr h) totalAsEther
                       (uniqueId (nativeMethod ctx) (JStr h))) w1)
    as [r2 w2] eqn:Hr2.
  pose proof (scan_credit ctx uniqueId W respond (JObj fields) w order h valueAsEther tot totalAsEther
                w1 r2 w2 Hh Hr1 Htot Hve Hte Hr2) as Hrun.
  destruct r2 as [[|] | e]; simpl; exact Hrun.
Qed.

End ScanFacts.

Example scan_credits_once :
  run Scenario.respond
      (V2.scanTxid Scenario.ctx Scenario.uniqueId (Scenario.deposit "0xgood")) []
  = (Ok true,
     ["ethereum-native/0xgood"],
     [EvCall (GetOne "ethereum-native" (JStr Scenario.payer)) (Ok (Some Scenario.order));
      EvCall (MaybeInternalCreateDeposit "order-1" (JStr "0xgood") "1.00105"
                "ethereum-native/0xgood") (Ok true);
      EvLog {| log_level := info; log_cause := None;
               log_msg := "Stored deposit. 0xgood. 1.0 ETH for order order-1";
               log_args := [] |}]).
Proof. vm_compute. reflexivity. Qed.

Example task_example :
  let '(o, w, tr) :=
    run_task Scenario.respond
      (V1.runScanByOrderId Scenario.ctx Scenario.uniqueId "order-1") [] in
  o = Fail (JsError "blockHash must be string") /\
  w = ["ethereum-native/0xgood"] /\
  calls tr =
    [FindOneBy "order-1";
     AxiosGet "https://api.etherscan.io/api?module=block&action=getblocknobytime&timestamp=1700000000000&closest=before&apikey=KEY";
     AxiosGet "https://api.etherscan.io/api?module=account&action=txlist&address=0x1111111111111111111111111111111111111111&startblock=18500000&sort=desc&apikey=KEY";
     GetTransaction "0xbad";
     GetTransaction "0xgood";
     GetOne "ethereum-native" (JStr Scenario.payer);
     MaybeInternalCreateDeposit "order-1" (JStr "0xgood") "1.00105"
       "ethereum-native/0xgood"].
Proof. vm_compute. repeat split. Qed.

(* ===================================================================== *)
(** * The amount attributed to the sender *)
(* ===================================================================== *)

(** C2, as the specification states it, fails on its own example: for
    value 1000000000000000000, gas limit 21000 and gas price 50000000000
    the total is 1001050000000000000, not 2050000000000000000. *)
Lemma total_example_is_not_as_stated :
  total "1000000000000000000" "21000" "50000000000" = Ok "1001050000000000000" /\
  total "1000000000000000000" "21000" "50000000000" <> Ok "2050000000000000000" /\
  parse_decimal "2050000000000000000"
    <> Some (1000000000000000000 + 21000 * 50000000000).
Proof.
  split; [vm_compute; reflexivity |].
  split; vm_compute; discriminate.
Qed.

(** C2 (amended): for all non-negative decimal strings value, gasLimit and
    gasPrice, the total is value + gasLimit * gasPrice exactly, as a plain
    decimal string that reads back as that integer; for value
    1000000000000000000, gas limit 21000 and gas price 50000000000 it is
    1001050000000000000. *)
Theorem total_is_exact (value gasLimit gasPrice : string) (v l p : Z) :
  parse_decimal value = Some v -> 0 <= v ->
  parse_decimal gasLimit = Some l -> 0 <= l ->
  parse_decimal gasPrice = Some p -> 0 <= p ->
  exists out,
    total value gasLimit gasPrice = Ok out /\
    out = decimal_of_Z (v + l * p) /\
    parse_decimal out = Some (v + l * p) /\
    total "1000000000000000000" "21000" "50000000000" = Ok "1001050000000000000".
Proof.
  intros Hv _ Hl _ Hp _.
  exists (decimal_of_Z (v + l * p)).
  split; [apply total_exact; assumption |].
  split; [reflexivity |].
  split; [apply parse_decimal_of_Z | vm_compute; reflexivity].
Qed.

Lemma total_is_exact_witness :
  exists out,
    total "5000000000000000000" "21000" "1000000000" = Ok out /\
    out = decimal_of_Z (5000000000000000000 + 21000 * 1000000000) /\
    parse_decimal out = Some (5000000000000000000 + 21000 * 1000000000) /\
    total "1000000000000000000" "21000" "50000000000" = Ok "1001050000000000000".
Proof.
  apply (total_is_exact "5000000000000000000" "21000" "1000000000"
           5000000000000000000 21000 1000000000);
    solve [reflexivity | lia].
Defined.

(* ===================================================================== *)
(** * The candidate selection: properties *)
(* ===================================================================== *)

Lemma selected_are_positive (txs : list EtherscanTx) :
  Forall (fun tx => 0 < amount tx) (firstn 10 (filter positive txs)).
Proof.
  apply Forall_forall. intros tx Hin.
  assert (Hin' : In tx (filter positive txs)).
  { rewrite <- (firstn_skipn 10 (filter positive txs)).
    apply in_or_app; left; exact Hin. }
  apply filter_In in Hin'. destruct Hin' as [_ Hpos].
  unfold positive in Hpos. lia.
Qed.

(** C4: for any sequence of listed transactions, whatever the selection
    returns has at most 10 elements, each of positive value, and is the
    first ten of the positive-value transactions in their order of listing
    (a prefix of the filtered input); the selection returns exactly when
    every value is the text of a number (decimal digits, or [0x] and
    hexadecimal digits, after an optional minus sign), and an empty or
    all-zero sequence gives the empty selection, not an error. *)
Theorem selection_bounded_positive_ordered (txs : list EtherscanTx) :
  (Forall (fun tx => number_text (tx_value tx) = true) txs ->
   exists out, trimmedTxs txs = Ok out) /\
  (forall out,
      trimmedTxs txs = Ok out ->
      Forall (fun tx => number_text (tx_value tx) = true) txs /\
      (length out <= 10)%nat /\
      Forall (fun tx => 0 < amount tx) out /\
      out = firstn 10 (filter positive txs) /\
      exists rest, filter positive txs = (out ++ rest)%list) /\
  (Forall (fun tx => BigNumber_value (JStr (tx_value tx)) = Ok 0) txs ->
   trimmedTxs txs = Ok []) /\
  (Forall (fun tx => tx_value tx = "0") txs -> trimmedTxs txs = Ok []) /\
  trimmedTxs [] = Ok [].
Proof.
  assert (Hzero : Forall (fun tx => BigNumber_value (JStr (tx_value tx)) = Ok 0) txs ->
                  trimmedTxs txs = Ok []).
  { intros Hzero.
    assert (Hnum : Forall numeric txs).
    { eapply Forall_impl; [| exact Hzero]. intros tx Htx. exists 0. exact Htx. }
    rewrite (trimmedTxs_numeric txs Hnum).
    rewrite filter_all_zero; [reflexivity |].
    eapply Forall_impl; [| exact Hzero].
    intros tx Htx. unfold amount. rewrite Htx. reflexivity. }
  split.
  { intros Hnum. eexists. apply trimmedTxs_numeric.
    apply Forall_numeric_number_text. exact Hnum. }
  split.
  { intros out Hsel.
    destruct (trimmedTxs_returns txs out Hsel) as [Hnum ->].
    split; [apply Forall_numeric_number_text; exact Hnum |].
    split; [apply firstn_le_length |].
    split; [apply selected_are_positive |].
    split; [reflexivity |].
    exists (skipn 10 (filter positive txs)).
    symmetry. apply firstn_skipn. }
  split; [exact Hzero |].
  split; [| reflexivity].
  intros Hz. apply Hzero.
  eapply Forall_impl; [| exact Hz]. intros tx ->. reflexivity.
Qed.

Lemma selection_bounded_positive_ordered_witness :
  (exists out, trimmedTxs Scenario.interleaved = Ok out) /\
  (Forall (fun tx => number_text (tx_value tx) = true) Scenario.interleaved /\
   (length (firstn 10 (filter positive Scenario.interleaved)) <= 10)%nat /\
   Forall (fun tx => 0 < amount tx) (firstn 10 (filter positive Scenario.interleaved)) /\
   firstn 10 (filter positive Scenario.interleaved)
     = firstn 10 (filter positive Scenario.interleaved) /\
   exists rest,
     filter positive Scenario.interleaved
       = (firstn 10 (filter positive Scenario.interleaved) ++ rest)%list) /\
  trimmedTxs [Scenario.listed_tx "0xa" "0"; Scenario.listed_tx "0xb" "0x0"] = Ok [] /\
  trimmedTxs [Scenario.listed_tx "0xa" "0"; Scenario.listed_tx "0xb" "0"] = Ok [].
Proof.
  destruct (selection_bounded_positive_ordered Scenario.interleaved)
    as (Hreturns & Hshape & _ & _ & _).
  destruct (selection_bounded_positive_ordered
              [Scenario.listed_tx "0xa" "0"; Scenario.listed_tx "0xb" "0x0"])
    as (_ & _ & Hzero & _ & _).
  destruct (selection_bounded_positive_ordered
              [Scenario.listed_tx "0xa" "0"; Scenario.listed_tx "0xb" "0"])
    as (_ & _ & _ & Hzero' & _).
  split.
  - apply Hreturns. repeat constructor.
  - split.
    + apply Hshape. vm_compute. reflexivity.
    + split; [apply Hzero | apply Hzero']; repeat constructor.
Defined.

(** C5, as the specification states it, fails: no input with at least ten
    positive-value transactions makes the selection return fewer than ten.
    The filter runs before the slice, so interleaved zero-value transactions
    never use up a place. *)
Lemma no_input_yields_fewer_than_ten :
  ~ exists txs out,
      (10 <= length (filter positive txs))%nat /\
      trimmedTxs txs = Ok out /\
      (length out < 10)%nat.
Proof.
  intros (txs & out & Hten & Hsel & Hlt).
  destruct (trimmedTxs_returns txs out Hsel) as [_ ->].
  rewrite length_firstn in Hlt. lia.
Qed.

(** C5 (amended): for every input sequence whose values are the texts of
    numbers, the selection returns the first min(10, k) positive-value
    transactions of the input in their order of listing, where k is the
    number of positive-value transactions of the input; with at least ten
    of them it returns exactly ten, each of positive value, however
    zero-value transactions are interleaved. *)
Theorem selection_fills_ten (txs : list EtherscanTx) :
  Forall (fun tx => number_text (tx_value tx) = true) txs ->
  exists out,
    trimmedTxs txs = Ok out /\
    out = firstn 10 (filter positive txs) /\
    Forall (fun tx => 0 < amount tx) out /\
    length out = Nat.min 10 (length (filter positive txs)) /\
    ((10 <= length (filter positive txs))%nat -> length out = 10%nat).
Proof.
  intros Hnum. apply Forall_numeric_number_text in Hnum.
  exists (firstn 10 (filter positive txs)).
  split; [apply trimmedTxs_numeric; exact Hnum |].
  split; [reflexivity |].
  split; [apply selected_are_positive |].
  rewrite length_firstn.
  split; [reflexivity | lia].
Qed.

Lemma selection_fills_ten_witness :
  exists out,
    trimmedTxs Scenario.interleaved = Ok out /\
    out = firstn 10 (filter positive Scenario.interleaved) /\
    Forall (fun tx => 0 < amount tx) out /\
    length out = Nat.min 10 (length (filter positive Scenario.interleaved)) /\
    ((10 <= length (filter positive Scenario.interleaved))%nat ->
     length out = 10%nat).
Proof.
  apply (selection_fills_ten Scenario.interleaved).
  repeat constructor.
Defined.

(* ===================================================================== *)
(** * The scanner: guard, rejection, success observation *)
(* ===================================================================== *)

Section Scanner.

Variable ctx : Context.
Variable uniqueId : NativeMethod -> JsVal -> string.

(** C8: the guard fails with an error when the record is not
    object-shaped, when its [from] is absent or empty, when its
    transaction id is not a string, or when its block hash is not a
    string; both workers run it first, so such a record makes the scan
    throw that error before any amount is computed and without any call:
    no order lookup, no credit call. *)
Theorem guard_rejects_malformed (tx : JsVal) :
  typeof tx <> "object" \/
  truthy (field tx "from") = false \/
  typeof (field tx "hash") <> "string" \/
  typeof (field tx "blockHash") <> "string" ->
  exists e,
    V2.validateTx tx = Fail e /\
    V2.scanTxid ctx uniqueId tx = Throw e /\
    V1.scanTxid ctx uniqueId tx = Throw e /\
    forall (W : Type) (respond : forall c : Call, W -> Outcome (Resp c) * W) (w : W),
      run respond (V2.scanTxid ctx uniqueId tx) w = (Fail e, w, []) /\
      run respond (V1.scanTxid ctx uniqueId tx) w = (Fail e, w, []).
Proof.
  intros Hbad.
  destruct (V2.validateTx tx) as [[] | e] eqn:Hv.
  - exfalso.
    destruct (validateTx_ok_inv tx Hv) as (fields & h & b & -> & Hfrom & Hh & Hb).
    unfold field in Hbad. simpl in Hbad. rewrite Hfrom, Hh, Hb in Hbad.
    simpl in Hbad.
    destruct Hbad as [H | [H | [H | H]]]; solve [discriminate H | now apply H].
  - exists e.
    assert (H2 : V2.scanTxid ctx uniqueId tx = Throw e).
    { unfold V2.scanTxid. rewrite Hv. reflexivity. }
    assert (H1 : V1.scanTxid ctx uniqueId tx = Throw e).
    { rewrite scanTxid_same. exact H2. }
    repeat split; auto.
    + rewrite H2. reflexivity.
    + rewrite H1. reflexivity.
Qed.

(** C3: a validated transaction whose destination is absent (undefined,
    null or empty), or is a string that does not equal the configured
    account case-insensitively, or whose gas price is absent, makes the
    scan return false: the whole scan is that return, so no error is
    raised and neither the order lookup nor the credit call is made. *)
Theorem scan_rejects_irrelevant (tx : JsVal) :
  V2.validateTx tx = Ok tt ->
  (truthy (field tx "to") = false \/ exists s, field tx "to" = JStr s) ->
  (truthy (field tx "to") = false \/
   (exists s, field tx "to" = JStr s /\ lower s <> lower (account ctx)) \/
   field tx "gasPrice" = JUndefined) ->
  V2.scanTxid ctx uniqueId tx = Ret false /\
  V1.scanTxid ctx uniqueId tx = Ret false /\
  forall (W : Type) (respond : forall c : Call, W -> Outcome (Resp c) * W) (w : W),
    run respond (V2.scanTxid ctx uniqueId tx) w = (Ok false, w, []) /\
    run respond (V1.scanTxid ctx uniqueId tx) w = (Ok false, w, []) /\
    credit_calls (snd (run respond (V2.scanTxid ctx uniqueId tx) w)) = [].
Proof.
  intros Hv Htyped Hirrelevant.
  assert (H2 : V2.scanTxid ctx uniqueId tx = Ret false).
  { destruct (validateTx_ok_inv tx Hv) as (fields & h & b & -> & Hfrom & Hh & Hb).
    unfold V2.scanTxid. rewrite Hv.
    unfold field in Htyped, Hirrelevant. simpl in Htyped, Hirrelevant. simpl.
    destruct (truthy (lookup_field "to" fields)) eqn:Hto; simpl; [| reflexivity].
    destruct Htyped as [Habs | [s Hs]]; [discriminate Habs |].
    rewrite Hs. simpl.
    destruct (lower s =? lower (account ctx))%string eqn:Hacc; simpl;
      [| reflexivity].
    destruct Hirrelevant as [Habs | [(s' & Hs' & Hneq) | Hgas]].
    - discriminate Habs.
    - exfalso. apply Hneq. rewrite Hs in Hs'. injection Hs' as <-.
      apply String.eqb_eq. exact Hacc.
    - rewrite Hgas. reflexivity. }
  assert (H1 : V1.scanTxid ctx uniqueId tx = Ret false).
  { rewrite scanTxid_same. exact H2. }
  repeat split; auto; rewrite ?H1, ?H2; reflexivity.
Qed.

End Scanner.

Lemma guard_rejects_malformed_witness :
  exists e,
    V2.validateTx (JObj [("hash", JNum 7); ("from", JStr Scenario.payer)]) = Fail e /\
    V2.scanTxid Scenario.ctx Scenario.uniqueId
      (JObj [("hash", JNum 7); ("from", JStr Scenario.payer)]) = Throw e /\
    V1.scanTxid Scenario.ctx Scenario.uniqueId
      (JObj [("hash", JNum 7); ("from", JStr Scenario.payer)]) = Throw e /\
    forall (W : Type) (respond : forall c : Call, W -> Outcome (Resp c) * W) (w : W),
      run respond (V2.scanTxid Scenario.ctx Scenario.uniqueId
                     (JObj [("hash", JNum 7); ("from", JStr Scenario.payer)])) w
        = (Fail e, w, []) /\
      run respond (V1.scanTxid Scenario.ctx Scenario.uniqueId
                     (JObj [("hash", JNum 7); ("from", JStr Scenario.payer)])) w
        = (Fail e, w, []).
Proof.
  apply (guard_rejects_malformed Scenario.ctx Scenario.uniqueId
           (JObj [("hash", JNum 7); ("from", JStr Scenario.payer)])).
  right; right; left. vm_compute. discriminate.
Defined.

Lemma scan_rejects_irrelevant_witness :
  V2.scanTxid Scenario.ctx Scenario.uniqueId transfer_to_other_account = Ret false /\
  V1.scanTxid Scenario.ctx Scenario.uniqueId transfer_to_other_account = Ret false /\
  forall (W : Type) (respond : forall c : Call, W -> Outcome (Resp c) * W) (w : W),
    run respond (V2.scanTxid Scenario.ctx Scenario.uniqueId transfer_to_other_account) w
      = (Ok false, w, []) /\
    run respond (V1.scanTxid Scenario.ctx Scenario.uniqueId transfer_to_other_account) w
      = (Ok false, w, []) /\
    credit_calls
      (snd (run respond
              (V2.scanTxid Scenario.ctx Scenario.uniqueId transfer_to_other_account) w))
      = [].
Proof.
  apply (scan_rejects_irrelevant Scenario.ctx Scenario.uniqueId
           transfer_to_other_account).
  - reflexivity.
  - right. eexists. reflexivity.
  - right; left. eexists. split; [reflexivity |]. vm_compute. discriminate.
Defined.

Section SuccessObservation.

Variable ctx : Context.
Variable uniqueId : NativeMethod -> JsVal -> string.
Variable W : Type.
Variable respond : forall c : Call, W -> Outcome (Resp c) * W.

(** C9 (amended): whenever the credit call of a scan is answered true,
    the scan logs exactly one line, which records the transaction id, the
    transferred value in ether ([formatEther(tx.value)], not the credited
    total), the asset and the order id, and the scan returns true. *)
Theorem credit_is_logged_once (tx : JsVal) (w : W) (c : Credit) :
  In c (credit_calls (snd (run respond (V2.scanTxid ctx uniqueId tx) w))) ->
  cr_answer c = Ok true ->
  exists h valueAsEther,
    field tx "hash" = JStr h /\
    cr_txid c = JStr h /\
    formatEther (field tx "value") = Ok valueAsEther /\
    logs (snd (run respond (V2.scanTxid ctx uniqueId tx) w))
      = [stored_deposit ctx h valueAsEther (cr_orderId c)] /\
    contains h (log_msg (stored_deposit ctx h valueAsEther (cr_orderId c))) = true /\
    contains valueAsEther
      (log_msg (stored_deposit ctx h valueAsEther (cr_orderId c))) = true /\
    contains (nm_asset (nativeMethod ctx))
      (log_msg (stored_deposit ctx h valueAsEther (cr_orderId c))) = true /\
    contains (cr_orderId c)
      (log_msg (stored_deposit ctx h valueAsEther (cr_orderId c))) = true /\
    fst (fst (run respond (V2.scanTxid ctx uniqueId tx) w)) = Ok true /\
    run respond (V1.scanTxid ctx uniqueId tx) w
      = run respond (V2.scanTxid ctx uniqueId tx) w.
Proof.
  intros Hin Htrue.
  pose proof (scan_run_spec ctx uniqueId W respond tx w) as Hrun.
  rewrite (scanTxid_same ctx uniqueId tx).
  destruct (run respond (V2.scanTxid ctx uniqueId tx) w) as [[o w'] tr].
  cbn [fst snd] in Hin |- *.
  inversion Hrun as [o0 Ho | r1 w1 o0 Hr1 Ho
                     | order h valueAsEther tot totalAsEther w1 r2 w2
                         Hh Hr1 Htot Hve Hte Hr2];
    subst; simpl in Hin; try contradiction.
  destruct o as [[|] | e]; simpl in Hin; destruct Hin as [<- | []];
    simpl in Htrue; try discriminate Htrue.
  exists h, valueAsEther.
  repeat split; try reflexivity; auto; unfold stored_deposit; cbn [log_msg];
    repeat first [apply contains_head | apply contains_self | apply contains_skip].
Qed.

End SuccessObservation.

(** C9, as the specification states it, fails: the deposit of 1 ether with
    a fee of 0.00105 ether is credited for 1.00105, and the line logged
    after the credit reads 1.0: it does not record the credited amount. *)
Lemma success_line_omits_credited_amount :
  credit_calls (snd good_scan) = [good_credit] /\
  cr_answer good_credit = Ok true /\
  map log_msg (logs (snd good_scan))
    = ["Stored deposit. 0xgood. 1.0 ETH for order order-1"] /\
  forallb (fun l => contains (cr_amount good_credit) (log_msg l))
    (logs (snd good_scan)) = false.
Proof.
  vm_compute. repeat split.
Qed.

Lemma credit_is_logged_once_witness :
  exists h valueAsEther,
    field (Scenario.deposit "0xgood") "hash" = JStr h /\
    cr_txid good_credit = JStr h /\
    formatEther (field (Scenario.deposit "0xgood") "value") = Ok valueAsEther /\
    logs (snd (run Scenario.respond
                 (V2.scanTxid Scenario.ctx Scenario.uniqueId
                    (Scenario.deposit "0xgood")) []))
      = [stored_deposit Scenario.ctx h valueAsEther (cr_orderId good_credit)] /\
    contains h
      (log_msg (stored_deposit Scenario.ctx h valueAsEther (cr_orderId good_credit)))
      = true /\
    contains valueAsEther
      (log_msg (stored_deposit Scenario.ctx h valueAsEther (cr_orderId good_credit)))
      = true /\
    contains (nm_asset (nativeMethod Scenario.ctx))
      (log_msg (stored_deposit Scenario.ctx h valueAsEther (cr_orderId good_credit)))
      = true /\
    contains (cr_orderId good_credit)
      (log_msg (stored_deposit Scenario.ctx h valueAsEther (cr_orderId good_credit)))
      = true /\
    fst (fst (run Scenario.respond
                (V2.scanTxid Scenario.ctx Scenario.uniqueId
                   (Scenario.deposit "0xgood")) [])) = Ok true /\
    run Scenario.respond
      (V1.scanTxid Scenario.ctx Scenario.uniqueId (Scenario.deposit "0xgood")) []
    = run Scenario.respond
        (V2.scanTxid Scenario.ctx Scenario.uniqueId (Scenario.deposit "0xgood")) [].
Proof.
  apply (credit_is_logged_once Scenario.ctx Scenario.uniqueId (list string)
           Scenario.respond (Scenario.deposit "0xgood") [] good_credit).
  - vm_compute. left. reflexivity.
  - reflexivity.
Defined.

(* ===================================================================== *)
(** * The task: orders that cannot be reconciled *)
(* ===================================================================== *)

Section UnreconcilableOrder.

Variable ctx : Context.
Variable uniqueId : NativeMethod -> JsVal -> string.
Variable W : Type.
Variable respond : forall c : Call, W -> Outcome (Resp c) * W.

(** C7: when the order is absent from the store, or has no deposit
    address, the task of either worker logs an error line and returns
    normally; the only call it makes is the order lookup: no call to the
    explorer (block number, transaction history), to the node or to the
    ledger. *)
Theorem task_ends_without_order_or_address (orderId : string) (w : W) :
  fst (respond (FindOneBy orderId) w) = Ok None \/
  (exists o, fst (respond (FindOneBy orderId) w) = Ok (Some o) /\
             order_depositAddress o = None) ->
  exists v1 v2 msg,
    let r := fst (respond (FindOneBy orderId) w) in
    let w' := snd (respond (FindOneBy orderId) w) in
    let tr := [EvLog (processing_line orderId);
               EvCall (FindOneBy orderId) r;
               EvLog (order_error_line msg orderId)] in
    run_task respond (V1.runScanByOrderId ctx uniqueId orderId) w = (Ok v1, w', tr) /\
    run_task respond (V2.runScanByOrderId ctx uniqueId orderId) w = (Ok v2, w', tr) /\
    (msg = "Order %s not found" \/ msg = "Order %s has no deposit address") /\
    calls tr = [FindOneBy orderId] /\
    existsb is_later_step tr = false.
Proof.
  intros Horder.
  unfold run_task, V1.runScanByOrderId, V2.runScanByOrderId. simpl.
  destruct (respond (FindOneBy orderId) w) as [r w'] eqn:Hr.
  simpl in Horder |- *.
  destruct Horder as [-> | (o & -> & Haddr)].
  - exists JUndefined, (JBool true), "Order %s not found". simpl.
    repeat split; auto.
  - exists JUndefined, (JBool true), "Order %s has no deposit address". simpl.
    rewrite Haddr. simpl.
    repeat split; auto.
Qed.

End UnreconcilableOrder.

Lemma task_ends_without_order_or_address_witness :
  exists v1 v2 msg,
    let r := fst (Scenario.respond (FindOneBy "order-9") []) in
    let w' := snd (Scenario.respond (FindOneBy "order-9") []) in
    let tr := [EvLog (processing_line "order-9");
               EvCall (FindOneBy "order-9") r;
               EvLog (order_error_line msg "order-9")] in
    run_task Scenario.respond
      (V1.runScanByOrderId Scenario.ctx Scenario.uniqueId "order-9") [] = (Ok v1, w', tr) /\
    run_task Scenario.respond
      (V2.runScanByOrderId Scenario.ctx Scenario.uniqueId "order-9") [] = (Ok v2, w', tr) /\
    (msg = "Order %s not found" \/ msg = "Order %s has no deposit address") /\
    calls tr = [FindOneBy "order-9"] /\
    existsb is_later_step tr = false.
Proof.
  apply (task_ends_without_order_or_address Scenario.ctx Scenario.uniqueId
           (list string) Scenario.respond "order-9" []).
  left. reflexivity.
Defined.


Lemma calls_app (t1 t2 : list Event) : calls (t1 ++ t2) = (calls t1 ++ calls t2)%list.
Proof.
  unfold calls. apply flat_map_app.
Qed.

(* ===================================================================== *)
(** * Redelivery: the unique id and the idempotent ledger *)
(* ===================================================================== *)

Section Idempotency.

Variable ctx : Context.
Variable uniqueId : NativeMethod -> JsVal -> string.
Variable W : Type.
Variable respond : forall c : Call, W -> Outcome (Resp c) * W.

(** Modelled from the spec: the credit ledger is an external service.
    Section 4.5 of the specification gives its contract: the call returns
    true only if it newly created a credit, and false if a credit under the
    same unique id already exists.  [credited w u] says that the ledger of
    the world [w] holds a credit under [u]. *)
Variable credited : W -> string -> Prop.

(** A call under a unique id that is already credited is answered false. *)
Hypothesis ledger_replay :
  forall w orderId txid amount u,
    credited w u ->
    fst (respond (MaybeInternalCreateDeposit orderId txid amount u) w) = Ok false.

(** A call answered true has created the credit. *)
Hypothesis ledger_new :
  forall w orderId txid amount u,
    fst (respond (MaybeInternalCreateDeposit orderId txid amount u) w) = Ok true ->
    credited (snd (respond (MaybeInternalCreateDeposit orderId txid amount u) w)) u.

(** No call removes a credit. *)
Hypothesis ledger_keeps :
  forall c w u, credited w u -> credited (snd (respond c w)) u.

Lemma credit_calls_app (t1 t2 : list Event) :
  credit_calls (t1 ++ t2) = (credit_calls t1 ++ credit_calls t2)%list.
Proof.
  induction t1 as [| e t1 IH]; simpl; [reflexivity |].
  destruct (credit_of e); simpl; now rewrite IH.
Qed.

Lemma created_ids_app (t1 t2 : list Event) :
  created_ids (t1 ++ t2) = (created_ids t1 ++ created_ids t2)%list.
Proof.
  unfold created_ids. now rewrite credit_calls_app, filter_app, map_app.
Qed.

Lemma ledger_step_nil (w : W) : ledger_step credited w w [].
Proof.
  unfold ledger_step. repeat split; auto; try contradiction. constructor.
Qed.

Lemma ledger_step_trans (w w1 w2 : W) (t1 t2 : list Event) :
  ledger_step credited w w1 t1 ->
  ledger_step credited w1 w2 t2 ->
  ledger_step credited w w2 (t1 ++ t2).
Proof.
  unfold ledger_step.
  intros (Hk1 & Hn1 & Hd1) (Hk2 & Hn2 & Hd2).
  rewrite created_ids_app.
  split; [auto |].
  split.
  - intros u Hin. apply in_app_or in Hin. destruct Hin as [Hin | Hin].
    + destruct (Hn1 u Hin). auto.
    + destruct (Hn2 u Hin) as [Hafter Hbefore]. split; [exact Hafter | auto].
  - clear Hk2. induction (created_ids t1) as [| u l IH]; simpl; [exact Hd2 |].
    inversion Hd1 as [| ? ? Hnotin Hd1']; subst.
    constructor.
    + intros Hin. apply in_app_or in Hin. destruct Hin as [Hin | Hin];
        [contradiction |].
      destruct (Hn2 u Hin) as [_ Hfresh]. apply Hfresh.
      apply (Hn1 u). left. reflexivity.
    + apply IH; [| exact Hd1'].
      intros u' Hin'. apply Hn1. right. exact Hin'.
Qed.

Lemma ledger_step_call (c : Call) (w : W) :
  ledger_step credited w (snd (respond c w)) [EvCall c (fst (respond c w))].
Proof.
  unfold ledger_step.
  split; [intros u; apply ledger_keeps |].
  pose proof (ledger_replay w) as Hrep.
  pose proof (ledger_new w) as Hnew.
  destruct c as [id | m a | url | h | orderId txid amount u]; cbn;
    try solve [split; [intros ? [] | constructor]].
  specialize (Hrep orderId txid amount u).
  specialize (Hnew orderId txid amount u).
  unfold created_ids, created.
  destruct (respond (MaybeInternalCreateDeposit orderId txid amount u) w)
    as [r w1].
  cbn in r, Hrep, Hnew |- *.
  destruct r as [[|] | e]; cbn; try solve [split; [intros ? [] | constructor]].
  split.
  - intros u' [<- | []]. split; [auto |].
    intros Hcred. specialize (Hrep Hcred). discriminate Hrep.
  - constructor; [intros [] | constructor].
Qed.

Lemma run_ledger_step {R : Type} (p : Prog R) (w : W) :
  ledger_step credited w (snd (fst (run respond p w))) (snd (run respond p w)).
Proof.
  revert w; induction p as [r | e | l k IH | c k IH]; intros w; simpl.
  - apply ledger_step_nil.
  - apply ledger_step_nil.
  - specialize (IH w). destruct (run respond k w) as [[o w'] t]. exact IH.
  - pose proof (ledger_step_call c w) as Hcall.
    destruct (respond c w) as [r w1]. cbn [fst snd] in Hcall.
    specialize (IH r w1).
    destruct (run respond (k r) w1) as [[o w2] t]. cbn [fst snd] in *.
    apply (ledger_step_trans w w1 w2 [EvCall c r] t); assumption.
Qed.

Lemma run_all_ledger_step (ps : list (Prog unit)) (w : W) :
  ledger_step credited w (snd (fst (run_all respond ps w))) (snd (run_all respond ps w)).
Proof.
  revert w; induction ps as [| p ps IH]; intros w; simpl.
  - apply ledger_step_nil.
  - pose proof (run_ledger_step p w) as Hp.
    destruct (run respond p w) as [[o w1] t1]. cbn [fst snd] in Hp.
    specialize (IH w1).
    destruct (run_all respond ps w1) as [[os w2] t2]. cbn [fst snd] in *.
    apply (ledger_step_trans w w1 w2); assumption.
Qed.

Lemma run_task_ledger_step (t : Prog TaskEnd) (w : W) :
  ledger_step credited w (snd (fst (run_task respond t w))) (snd (run_task respond t w)).
Proof.
  unfold run_task.
  pose proof (run_ledger_step t w) as Ht.
  destruct (run respond t w) as [[o w1] tr]. cbn [fst snd] in Ht.
  destruct o as [[v | mappers] | e]; cbn [fst snd]; try exact Ht.
  pose proof (run_all_ledger_step mappers w1) as Hm.
  destruct (run_all respond mappers w1) as [[outs w2] tr2]. cbn [fst snd] in *.
  apply (ledger_step_trans w w1 w2); assumption.
Qed.

(** A task, and then any task from a world that kept the credits: no
    unique id is credited twice. *)
Lemma redelivery_creates_no_duplicate (t1 t2 : Prog TaskEnd) (w w' : W) :
  (forall u, credited (snd (fst (run_task respond t1 w))) u -> credited w' u) ->
  NoDup (created_ids (snd (run_task respond t1 w))
           ++ created_ids (snd (run_task respond t2 w'))).
Proof.
  intros Hbetween.
  destruct (run_task_ledger_step t1 w) as (_ & Hn1 & Hd1).
  destruct (run_task_ledger_step t2 w') as (_ & Hn2 & Hd2).
  induction (created_ids (snd (run_task respond t1 w))) as [| u l IH]; simpl;
    [exact Hd2 |].
  inversion Hd1 as [| ? ? Hnotin Hd1']; subst.
  constructor.
  - intros Hin. apply in_app_or in Hin. destruct Hin as [Hin | Hin];
      [contradiction |].
    destruct (Hn2 u Hin) as [_ Hfresh]. apply Hfresh, Hbetween.
    apply (Hn1 u). left. reflexivity.
  - apply IH; [| exact Hd1'].
    intros u' Hin'. apply Hn1. right. exact Hin'.
Qed.

Lemma scan_credit_facts (tx : JsVal) (w : W) :
  (forall c,
      In c (credit_calls (snd (run respond (V2.scanTxid ctx uniqueId tx) w))) ->
      cr_uniqueId c = uniqueId (nativeMethod ctx) (field tx "hash")) /\
  (fst (fst (run respond (V2.scanTxid ctx uniqueId tx) w)) = Ok true ->
   credited (snd (fst (run respond (V2.scanTxid ctx uniqueId tx) w)))
     (uniqueId (nativeMethod ctx) (field tx "hash"))) /\
  (forall u,
      credited w u ->
      credited (snd (fst (run respond (V2.scanTxid ctx uniqueId tx) w))) u) /\
  (credited w (uniqueId (nativeMethod ctx) (field tx "hash")) ->
   fst (fst (run respond (V2.scanTxid ctx uniqueId tx) w)) <> Ok true /\
   forall c,
     In c (credit_calls (snd (run respond (V2.scanTxid ctx uniqueId tx) w))) ->
     cr_answer c = Ok false) /\
  (length
     (filter created
        (credit_calls (snd (run respond (V2.scanTxid ctx uniqueId tx) w))))
   <= 1)%nat /\
  (fst (fst (run respond (V2.scanTxid ctx uniqueId tx) w)) <> Ok true ->
   filter created
     (credit_calls (snd (run respond (V2.scanTxid ctx uniqueId tx) w))) = []).
Proof.
  pose proof (scan_run_spec ctx uniqueId W respond tx w) as Hrun.
  destruct (run respond (V2.scanTxid ctx uniqueId tx) w) as [[o w'] tr].
  cbn [fst snd].
  inversion Hrun as [o0 Ho | r1 w1 o0 Hr1 Ho
                     | order h valueAsEther tot totalAsEther w1 r2 w2
                         Hh Hr1 Htot Hve Hte Hr2]; subst.
  - simpl. repeat split; auto; try contradiction; try lia.
  - simpl. pose proof (ledger_keeps (lookup_call ctx tx) w) as Hk.
    rewrite Hr1 in Hk. simpl in Hk.
    repeat split; auto; try contradiction; try lia.
  - pose proof (ledger_keeps (lookup_call ctx tx) w) as Hk1.
    rewrite Hr1 in Hk1. simpl in Hk1.
    pose proof (ledger_keeps (credit_call ctx uniqueId order h totalAsEther) w1) as Hk2.
    pose proof (ledger_new w1 (order_id order) (JStr h) totalAsEther
                  (uniqueId (nativeMethod ctx) (JStr h))) as Hnew.
    pose proof (ledger_replay w1 (order_id order) (JStr h) totalAsEther
                  (uniqueId (nativeMethod ctx) (JStr h))) as Hrep.
    unfold credit_call in Hr2, Hk2. rewrite Hr2 in Hk2, Hnew, Hrep.
    simpl in Hk2, Hnew, Hrep. rewrite Hh.
    assert (Hcalls :
      credit_calls
        (EvCall (lookup_call ctx tx) (Ok (Some order))
           :: EvCall (credit_call ctx uniqueId order h totalAsEther) o
           :: match o with
              | Ok true => [EvLog (stored_deposit ctx h valueAsEther (order_id order))]
              | _ => []
              end)
      = [{| cr_orderId := order_id order; cr_txid := JStr h;
            cr_amount := totalAsEther;
            cr_uniqueId := uniqueId (nativeMethod ctx) (JStr h);
            cr_answer := o |}]).
    { destruct o as [[|] | e]; reflexivity. }
    rewrite Hcalls. clear Hcalls.
    split; [intros c [<- | []]; reflexivity |].
    split; [exact Hnew |].
    split; [auto |].
    split.
    { intros Hcred. specialize (Hrep (Hk1 _ Hcred)). subst o.
      split; [discriminate | intros c [<- | []]; reflexivity]. }
    split.
    { simpl. destruct (created _); simpl; lia. }
    intros Ho. simpl. unfold created. simpl.
    destruct o as [[|] | e]; try reflexivity. now elim Ho.
Qed.

(** C1: the unique id passed to the credit call is
    [getEthereumNativeDepositUniqueId(nativeMethod, hash)], so two scans
    of transactions with the same hash pass the same unique id; with a
    ledger that is idempotent by unique id, when the first scan created
    the credit the second scan's credit call is answered false and the
    second scan does not credit, and the two scans together create at
    most one credit, whatever happened in between; a task of either
    worker, delivered again (or followed by any other task), creates no
    second credit under a unique id. *)
Theorem replay_credits_at_most_once (tx1 tx2 : JsVal) (w w1' : W) :
  field tx1 "hash" = field tx2 "hash" ->
  (forall u,
      credited (snd (fst (run respond (V2.scanTxid ctx uniqueId tx1) w))) u ->
      credited w1' u) ->
  (forall c1 c2,
      In c1 (credit_calls (snd (run respond (V2.scanTxid ctx uniqueId tx1) w))) ->
      In c2 (credit_calls (snd (run respond (V2.scanTxid ctx uniqueId tx2) w1'))) ->
      cr_uniqueId c1 = cr_uniqueId c2 /\
      cr_uniqueId c1 = uniqueId (nativeMethod ctx) (field tx1 "hash")) /\
  (fst (fst (run respond (V2.scanTxid ctx uniqueId tx1) w)) = Ok true ->
   fst (fst (run respond (V2.scanTxid ctx uniqueId tx2) w1')) <> Ok true /\
   forall c2,
     In c2 (credit_calls (snd (run respond (V2.scanTxid ctx uniqueId tx2) w1'))) ->
     cr_answer c2 = Ok false) /\
  (length
     (filter created
        (credit_calls (snd (run respond (V2.scanTxid ctx uniqueId tx1) w))
           ++ credit_calls (snd (run respond (V2.scanTxid ctx uniqueId tx2) w1'))))
   <= 1)%nat /\
  run respond (V1.scanTxid ctx uniqueId tx1) w
    = run respond (V2.scanTxid ctx uniqueId tx1) w /\
  run respond (V1.scanTxid ctx uniqueId tx2) w1'
    = run respond (V2.scanTxid ctx uniqueId tx2) w1' /\
  (forall (first again : string) (wa wb : W),
      (forall u,
          credited (snd (fst (run_task respond
                                (V1.runScanByOrderId ctx uniqueId first) wa))) u ->
          credited wb u) ->
      NoDup (created_ids (snd (run_task respond
                                 (V1.runScanByOrderId ctx uniqueId first) wa))
               ++ created_ids (snd (run_task respond
                                      (V1.runScanByOrderId ctx uniqueId again) wb)))) /\
  (forall (first again : string) (wa wb : W),
      (forall u,
          credited (snd (fst (run_task respond
                                (V2.runScanByOrderId ctx uniqueId first) wa))) u ->
          credited wb u) ->
      NoDup (created_ids (snd (run_task respond
                                 (V2.runScanByOrderId ctx uniqueId first) wa))
               ++ created_ids (snd (run_task respond
                                      (V2.runScanByOrderId ctx uniqueId again) wb)))).
Proof.
  intros Hhash Hbetween.
  destruct (scan_credit_facts tx1 w) as (Hid1 & Hnew1 & _ & _ & Hone1 & Hnone1).
  destruct (scan_credit_facts tx2 w1') as (Hid2 & _ & _ & Hrep2 & Hone2 & _).
  rewrite <- Hhash in *.
  split.
  { intros c1 c2 H1 H2. rewrite (Hid1 c1 H1), (Hid2 c2 H2). auto. }
  split.
  { intros Hfirst. apply Hrep2. apply Hbetween. apply Hnew1. exact Hfirst. }
  split.
  { rewrite filter_app, length_app.
    destruct (fst (fst (run respond (V2.scanTxid ctx uniqueId tx1) w)))
      as [[|] | e] eqn:Hfirst.
    - destruct (Hrep2 (Hbetween _ (Hnew1 eq_refl))) as [_ Hfalse].
      assert (Hnil :
        filter created
          (credit_calls (snd (run respond (V2.scanTxid ctx uniqueId tx2) w1')))
        = []).
      { clear - Hfalse.
        induction (credit_calls (snd (run respond (V2.scanTxid ctx uniqueId tx2) w1')))
          as [| c l IH]; [reflexivity |].
        simpl. unfold created at 1. rewrite (Hfalse c (or_introl eq_refl)).
        apply IH. intros c2 Hc2. apply Hfalse. right. exact Hc2. }
      rewrite Hnil. simpl. lia.
    - rewrite Hnone1 by discriminate. simpl. lia.
    - rewrite Hnone1 by discriminate. simpl. lia. }
  rewrite !scanTxid_same.
  repeat split; auto; intros first again wa wb Hbetween';
    apply redelivery_creates_no_duplicate; exact Hbetween'.
Qed.

End Idempotency.

Lemma existsb_eqb_In (u : string) (w : list string) :
  existsb (String.eqb u) w = true <-> In u w.
Proof.
  rewrite existsb_exists. split.
  - intros (x & Hin & Heq). apply String.eqb_eq in Heq. now subst.
  - intros Hin. exists u. split; [exact Hin | apply String.eqb_refl].
Qed.

Lemma scenario_ledger_replay (w : list string) (orderId : string) (txid : JsVal)
    (amount u : string) :
  scenario_credited w u ->
  fst (Scenario.respond (MaybeInternalCreateDeposit orderId txid amount u) w) = Ok false.
Proof.
  intros Hin. apply existsb_eqb_In in Hin. simpl. rewrite Hin. reflexivity.
Qed.

Lemma scenario_ledger_new (w : list string) (orderId : string) (txid : JsVal)
    (amount u : string) :
  fst (Scenario.respond (MaybeInternalCreateDeposit orderId txid amount u) w) = Ok true ->
  scenario_credited
    (snd (Scenario.respond (MaybeInternalCreateDeposit orderId txid amount u) w)) u.
Proof.
  simpl. destruct (existsb (String.eqb u) w); simpl; [discriminate |].
  intros _. left. reflexivity.
Qed.

Lemma scenario_ledger_keeps (c : Call) (w : list string) (u : string) :
  scenario_credited w u -> scenario_credited (snd (Scenario.respond c w)) u.
Proof.
  intros Hin. destruct c; simpl; try exact Hin.
  destruct (existsb (String.eqb uniqueId) w); simpl; [exact Hin | right; exact Hin].
Qed.

Example replayed_scan_is_refused :
  replayed_scan
  = (Ok false,
     ["ethereum-native/0xgood"],
     [EvCall (GetOne "ethereum-native" (JStr Scenario.payer)) (Ok (Some Scenario.order));
      EvCall (MaybeInternalCreateDeposit "order-1" (JStr "0xgood") "1.00105"
                "ethereum-native/0xgood") (Ok false)]).
Proof. vm_compute. reflexivity. Qed.

(** The task of the scenario credits the deposit once; delivered again on
    the ledger it left, it credits nothing. *)
Example redelivered_task_credits_nothing :
  created_ids
    (snd (run_task Scenario.respond
            (V2.runScanByOrderId Scenario.ctx Scenario.uniqueId "order-1") []))
    = ["ethereum-native/0xgood"] /\
  created_ids
    (snd (run_task Scenario.respond
            (V2.runScanByOrderId Scenario.ctx Scenario.uniqueId "order-1")
            ["ethereum-native/0xgood"]))
    = [].
Proof. vm_compute. split; reflexivity. Qed.

Lemma replay_credits_at_most_once_witness :
  (forall c1 c2,
      In c1 (credit_calls (snd good_scan)) ->
      In c2 (credit_calls (snd replayed_scan)) ->
      cr_uniqueId c1 = cr_uniqueId c2 /\
      cr_uniqueId c1 =
        Scenario.uniqueId (nativeMethod Scenario.ctx)
          (field (Scenario.deposit "0xgood") "hash")) /\
  (fst (fst good_scan) = Ok true ->
   fst (fst replayed_scan) <> Ok true /\
   forall c2, In c2 (credit_calls (snd replayed_scan)) -> cr_answer c2 = Ok false) /\
  (length (filter created
             (credit_calls (snd good_scan) ++ credit_calls (snd replayed_scan)))
   <= 1)%nat /\
  run Scenario.respond
    (V1.scanTxid Scenario.ctx Scenario.uniqueId (Scenario.deposit "0xgood")) []
    = good_scan /\
  run Scenario.respond
    (V1.scanTxid Scenario.ctx Scenario.uniqueId (Scenario.deposit "0xgood"))
    ["ethereum-native/0xgood"]
    = replayed_scan /\
  (forall (first again : string) (wa wb : list string),
      (forall u,
          scenario_credited
            (snd (fst (run_task Scenario.respond
                         (V1.runScanByOrderId Scenario.ctx Scenario.uniqueId first)
                         wa))) u ->
          scenario_credited wb u) ->
      NoDup (created_ids
               (snd (run_task Scenario.respond
                       (V1.runScanByOrderId Scenario.ctx Scenario.uniqueId first) wa))
               ++ created_ids
                    (snd (run_task Scenario.respond
                            (V1.runScanByOrderId Scenario.ctx Scenario.uniqueId again)
                            wb)))) /\
  (forall (first again : string) (wa wb : list string),
      (forall u,
          scenario_credited
            (snd (fst (run_task Scenario.respond
                         (V2.runScanByOrderId Scenario.ctx Scenario.uniqueId first)
                         wa))) u ->
          scenario_credited wb u) ->
      NoDup (created_ids
               (snd (run_task Scenario.respond
                       (V2.runScanByOrderId Scenario.ctx Scenario.uniqueId first) wa))
               ++ created_ids
                    (snd (run_task Scenario.respond
                            (V2.runScanByOrderId Scenario.ctx Scenario.uniqueId again)
                            wb)))).
Proof.
  apply (replay_credits_at_most_once Scenario.ctx Scenario.uniqueId (list string)
           Scenario.respond scenario_credited
           scenario_ledger_replay scenario_ledger_new scenario_ledger_keeps
           (Scenario.deposit "0xgood") (Scenario.deposit "0xgood")
           [] ["ethereum-native/0xgood"]).
  - reflexivity.
  - vm_compute. intros u H. exact H.
Defined.

(* ===================================================================== *)
(** * The two workers agree *)
(* ===================================================================== *)

#[local] Arguments V1.getEtherScanBlocknumber : simpl never.
#[local] Arguments V2.getEtherScanBlocknumber : simpl never.
#[local] Arguments V1.getEtherScanTxListForAddress : simpl never.
#[local] Arguments V2.getEtherScanTxListForAddressInDesc : simpl never.

Section Agreement.

Variable ctx : Context.
Variable uniqueId : NativeMethod -> JsVal -> string.

Lemma mapper_sim (c : EtherscanTx) :
  sim eq (V1.mapper ctx uniqueId c) (V2.mapper ctx uniqueId c).
Proof.
  unfold V1.mapper, V2.mapper. simpl.
  constructor. intros [ethersTx | e]; simpl; [| constructor].
  destruct (truthy ethersTx); simpl; [| apply sim_refl; reflexivity].
  constructor.
  apply sim_bind with (RA := eq).
  - apply sim_of_eq, scanTxid_same.
  - intros a b _. constructor. reflexivity.
Qed.

Lemma mappers_sim (cs : list EtherscanTx) :
  Forall2 (sim eq) (map (V1.mapper ctx uniqueId) cs) (map (V2.mapper ctx uniqueId) cs).
Proof.
  induction cs as [| c cs IH]; simpl; constructor; auto using mapper_sim.
Qed.

Lemma fetch_sim (address : string) (blockNumber : JsVal) (orderId : string) :
  sim eq
    (try_catch
       (txs <- V1.getEtherScanTxListForAddress ctx address blockNumber ;;
        Ret (Some txs))
       (fun err =>
          logger_error (Some err) "Error fetching txs for order %s: %s"
            [JStr orderId; JStr (fault_message err)] ;;
          Ret None))
    (V2.getEtherScanTxListForAddressInDesc ctx address blockNumber orderId).
Proof.
  unfold V1.getEtherScanTxListForAddress, V2.getEtherScanTxListForAddressInDesc.
  simpl. constructor. intros [res | e]; simpl.
  - destruct (accountTxListResultSchema_parse res); simpl;
      apply sim_refl; reflexivity.
  - apply sim_refl; reflexivity.
Qed.

Lemma scanning_sim (txs : list EtherscanTx) (orderId : string) :
  sim same_end
    (trimmed <- lift (trimmedTxs txs) ;;
     logger_info "Found %s transactions for order %s"
       [JNum (Z.of_nat (length txs)); JStr orderId] ;;
     Ret (AwaitsPMap (map (V1.mapper ctx uniqueId) trimmed)))
    (trimmed <- lift (trimmedTxs txs) ;;
     logger_info "Found %s transactions for order %s"
       [JNum (Z.of_nat (length txs)); JStr orderId] ;;
     Ret (AwaitsPMap (map (V2.mapper ctx uniqueId) trimmed))).
Proof.
  destruct (trimmedTxs txs) as [trimmed | e]; simpl; constructor.
  constructor. constructor. apply mappers_sim.
Qed.

(** The handlers of the two workers are the same tree of calls and log
    lines, up to the value returned at the end. *)
Lemma runScanByOrderId_sim (orderId : string) :
  sim same_end
    (V1.runScanByOrderId ctx uniqueId orderId)
    (V2.runScanByOrderId ctx uniqueId orderId).
Proof.
  unfold V1.runScanByOrderId, V2.runScanByOrderId. cbn.
  constructor. constructor. intros [[o |] | e]; cbn.
  - destruct (order_depositAddress o) as [d |] eqn:Hd; cbn.
    + apply sim_bind with (RA := eq).
      * apply sim_refl; reflexivity.
      * intros blockNumber ? <-.
        destruct (truthy blockNumber); cbn; [| repeat constructor].
        apply sim_bind with (RA := eq).
        -- apply fetch_sim.
        -- intros fetched ? <-.
           destruct fetched as [txs |]; [apply scanning_sim | repeat constructor].
    + repeat constructor.
  - repeat constructor.
  - constructor.
Qed.

End Agreement.

Section AgreementOfRuns.

Variable ctx : Context.
Variable uniqueId : NativeMethod -> JsVal -> string.
Variable W : Type.
Variable respond : forall c : Call, W -> Outcome (Resp c) * W.

(** C10: for every order id, the handlers of the original and of the
    refactored worker are the same tree of calls (same calls, same
    arguments, whatever the collaborators answer); run against the same
    outside world from the same state they produce the same trace of calls,
    answers and log lines, hence the same credit calls with the same
    answers, leave the world in the same state, and fail with the same
    fault or both return. *)
Theorem workers_agree (orderId : string) (w : W) :
  sim same_end
    (V1.runScanByOrderId ctx uniqueId orderId)
    (V2.runScanByOrderId ctx uniqueId orderId) /\
  let r1 := run_task respond (V1.runScanByOrderId ctx uniqueId orderId) w in
  let r2 := run_task respond (V2.runScanByOrderId ctx uniqueId orderId) w in
  snd r1 = snd r2 /\
  calls (snd r1) = calls (snd r2) /\
  credit_calls (snd r1) = credit_calls (snd r2) /\
  snd (fst r1) = snd (fst r2) /\
  same_settlement (fst (fst r1)) (fst (fst r2)).
Proof.
  pose proof (runScanByOrderId_sim ctx uniqueId orderId) as Hsim.
  split; [exact Hsim |].
  pose proof (run_sim W respond same_end _ _ Hsim w) as Hrun.
  unfold run_task.
  destruct (run respond (V1.runScanByOrderId ctx uniqueId orderId) w)
    as [[o1 w1] t1].
  destruct (run respond (V2.runScanByOrderId ctx uniqueId orderId) w)
    as [[o2 w2] t2].
  destruct Hrun as (<- & <- & Hend).
  destruct o1 as [end1 | e1], o2 as [end2 | e2]; try contradiction.
  - destruct Hend as [v1 v2 | ms1 ms2 Hms].
    + cbn. repeat split; reflexivity.
    + rewrite (run_all_sim W respond ms1 ms2 Hms w1).
      destruct (run_all respond ms2 w1) as [[outs w3] t3].
      cbn. repeat split; try reflexivity.
      destruct (settle outs); cbn; auto.
  - subst e2. cbn. repeat split; reflexivity.
Qed.

End AgreementOfRuns.


(* ===================================================================== *)
(** * The stages of a task *)
(* ===================================================================== *)

Section TaskStagesFacts.

Variable ctx : Context.
Variable uniqueId : NativeMethod -> JsVal -> string.
Variable W : Type.
Variable respond : forall c : Call, W -> Outcome (Resp c) * W.

(** One script for both handlers: follow the calls one by one. *)
Ltac next_call r w' H :=
  match goal with
  | |- context [respond ?c ?w] => destruct (respond c w) as [r w'] eqn:H
  end.

Lemma V2_task_prefix (orderId : string) (w : W) :
  task_prefix ctx W respond (V2.mapper ctx uniqueId) orderId w
    (run respond (V2.runScanByOrderId ctx uniqueId orderId) w).
Proof.
  unfold V2.runScanByOrderId, V2.checkIfOrderExistsAndOrderAddressAssigned. cbn.
  next_call r w1 Hfind.
  destruct r as [[o |] | e]; cbn;
    [| apply prefix_no_order; exact Hfind
     | apply prefix_store_rejects; exact Hfind].
  destruct (order_depositAddress o) as [d |] eqn:Hd; cbn;
    [| apply prefix_no_address; assumption].
  unfold V2.getEtherScanBlocknumber. cbn.
  next_call r1 w2 Hblock.
  destruct (block_number_of r1) as [blockNumber | e] eqn:Hbn;
    unfold block_number_of in Hbn;
    destruct r1 as [res | e1]; cbn in Hbn |- *; try discriminate Hbn;
    try rewrite Hbn; cbn.
  - destruct (truthy blockNumber) eqn:Htruthy; cbn;
      [| eapply prefix_no_block; eauto].
    unfold V2.getEtherScanTxListForAddressInDesc. cbn.
    next_call r2 w3 Hlist.
    destruct (listing_of r2) as [txs | e] eqn:Htxs;
      unfold listing_of in Htxs;
      destruct r2 as [body | e2]; cbn in Htxs |- *; try discriminate Htxs;
      try rewrite Htxs; cbn.
    + destruct (trimmedTxs txs) as [selected | e] eqn:Hsel; cbn.
      * eapply prefix_scanning; eauto.
      * eapply prefix_selection_throws; eauto.
    + eapply prefix_no_listing; eauto.
    + injection Htxs as <-. eapply prefix_no_listing; eauto.
  - eapply prefix_block_fails; eauto.
  - injection Hbn as <-. eapply prefix_block_fails; eauto.
Qed.

Lemma V1_task_prefix (orderId : string) (w : W) :
  task_prefix ctx W respond (V1.mapper ctx uniqueId) orderId w
    (run respond (V1.runScanByOrderId ctx uniqueId orderId) w).
Proof.
  unfold V1.runScanByOrderId. cbn.
  next_call r w1 Hfind.
  destruct r as [[o |] | e]; cbn;
    [| apply prefix_no_order; exact Hfind
     | apply prefix_store_rejects; exact Hfind].
  destruct (order_depositAddress o) as [d |] eqn:Hd; cbn;
    [| apply prefix_no_address; assumption].
  unfold V1.getEtherScanBlocknumber. cbn.
  next_call r1 w2 Hblock.
  destruct (block_number_of r1) as [blockNumber | e] eqn:Hbn;
    unfold block_number_of in Hbn;
    destruct r1 as [res | e1]; cbn in Hbn |- *; try discriminate Hbn;
    try rewrite Hbn; cbn.
  - destruct (truthy blockNumber) eqn:Htruthy; cbn;
      [| eapply prefix_no_block; eauto].
    unfold V1.getEtherScanTxListForAddress. cbn.
    next_call r2 w3 Hlist.
    destruct (listing_of r2) as [txs | e] eqn:Htxs;
      unfold listing_of in Htxs;
      destruct r2 as [body | e2]; cbn in Htxs |- *; try discriminate Htxs;
      try rewrite Htxs; cbn.
    + destruct (trimmedTxs txs) as [selected | e] eqn:Hsel; cbn.
      * eapply prefix_scanning; eauto.
      * eapply prefix_selection_throws; eauto.
    + eapply prefix_no_listing; eauto.
    + injection Htxs as <-. eapply prefix_no_listing; eauto.
  - eapply prefix_block_fails; eauto.
  - injection Hbn as <-. eapply prefix_block_fails; eauto.
Qed.

(** The runs of the two mappers are the same. *)
Lemma mapper_run_same (c : EtherscanTx) (w : W) :
  run respond (V1.mapper ctx uniqueId c) w = run respond (V2.mapper ctx uniqueId c) w.
Proof.
  pose proof (run_sim W respond eq _ _ (mapper_sim ctx uniqueId c) w) as H.
  destruct (run respond (V1.mapper ctx uniqueId c) w) as [[o1 w1] t1].
  destruct (run respond (V2.mapper ctx uniqueId c) w) as [[o2 w2] t2].
  destruct H as (-> & -> & Ho).
  destruct o1, o2; try contradiction; subst; reflexivity.
Qed.

Lemma run_all_same (cs : list EtherscanTx) (w : W) :
  run_all respond (map (V1.mapper ctx uniqueId) cs) w
  = run_all respond (map (V2.mapper ctx uniqueId) cs) w.
Proof.
  apply run_all_sim, mappers_sim.
Qed.

(** What a mapper call does: the node lookup; then nothing more when the
    lookup is rejected, one error line when the node does not know the
    hash, and otherwise the scan of what the node answered. *)
Lemma V2_mapper_run (c : EtherscanTx) (w : W) :
  run respond (V2.mapper ctx uniqueId c) w =
  let '(r, w1) := respond (GetTransaction (tx_hash c)) w in
  match r with
  | Fail e => (Fail e, w1, [EvCall (GetTransaction (tx_hash c)) r])
  | Ok ethersTx =>
      if truthy ethersTx then
        let '(o, w2, t) := run respond (V2.scanTxid ctx uniqueId ethersTx) w1 in
        (match o with Ok _ => Ok tt | Fail e => Fail e end, w2,
         EvCall (GetTransaction (tx_hash c)) r
           :: EvLog (scanning_line (tx_hash c)) :: t)
      else
        (Ok tt, w1,
         [EvCall (GetTransaction (tx_hash c)) r; EvLog (not_found_line (tx_hash c))])
  end.
Proof.
  unfold V2.mapper. cbn.
  destruct (respond (GetTransaction (tx_hash c)) w) as [r w1].
  destruct r as [ethersTx | e]; cbn; [| reflexivity].
  destruct (truthy ethersTx); cbn; [| reflexivity].
  rewrite run_bind.
  destruct (run respond (V2.scanTxid ctx uniqueId ethersTx) w1) as [[o w2] t].
  destruct o; cbn; [rewrite app_nil_r |]; reflexivity.
Qed.

Lemma node_lookups_app (t1 t2 : list Event) :
  node_lookups (t1 ++ t2) = (node_lookups t1 ++ node_lookups t2)%list.
Proof.
  unfold node_lookups. now rewrite calls_app, flat_map_app.
Qed.

Lemma explorer_requests_app (t1 t2 : list Event) :
  explorer_requests (t1 ++ t2) = (explorer_requests t1 ++ explorer_requests t2)%list.
Proof.
  unfold explorer_requests. now rewrite calls_app, flat_map_app.
Qed.

Lemma credits_app (t1 t2 : list Event) :
  credit_calls (t1 ++ t2) = (credit_calls t1 ++ credit_calls t2)%list.
Proof.
  induction t1 as [| e t1 IH]; simpl; [reflexivity |].
  destruct (credit_of e); simpl; now rewrite IH.
Qed.

(** A scan asks nothing of the node or of the explorer, and asks the ledger
    at most once. *)
Lemma scan_calls (tx : JsVal) (w : W) :
  node_lookups (snd (run respond (V2.scanTxid ctx uniqueId tx) w)) = [] /\
  explorer_requests (snd (run respond (V2.scanTxid ctx uniqueId tx) w)) = [] /\
  (length (credit_calls (snd (run respond (V2.scanTxid ctx uniqueId tx) w))) <= 1)%nat.
Proof.
  pose proof (scan_run_spec ctx uniqueId W respond tx w) as Hrun.
  destruct (run respond (V2.scanTxid ctx uniqueId tx) w) as [[o w'] tr].
  cbn [fst snd].
  inversion Hrun as [o0 Ho | r1 w1 o0 Hr1 Ho
                     | order h valueAsEther tot totalAsEther w1 r2 w2
                         Hh Hr1 Htot Hve Hte Hr2]; subst.
  - cbn. auto.
  - cbn. auto.
  - destruct o as [[|] | e]; cbn; auto.
Qed.

Lemma mapper_calls (c : EtherscanTx) (w : W) :
  node_lookups (snd (run respond (V2.mapper ctx uniqueId c) w)) = [tx_hash c] /\
  explorer_requests (snd (run respond (V2.mapper ctx uniqueId c) w)) = [] /\
  (length (credit_calls (snd (run respond (V2.mapper ctx uniqueId c) w))) <= 1)%nat.
Proof.
  rewrite V2_mapper_run.
  destruct (respond (GetTransaction (tx_hash c)) w) as [r w1].
  destruct r as [ethersTx | e]; [| cbn; auto].
  destruct (truthy ethersTx); [| cbn; auto].
  destruct (scan_calls ethersTx w1) as (Hn & He & Hc).
  destruct (run respond (V2.scanTxid ctx uniqueId ethersTx) w1) as [[o w2] t].
  cbn [fst snd] in *.
  match goal with
  | |- context [?a :: ?b :: t] => change (a :: b :: t) with ([a; b] ++ t)%list
  end.
  rewrite node_lookups_app, explorer_requests_app, credits_app, Hn, He.
  cbn. auto.
Qed.

Lemma run_all_calls (cs : list EtherscanTx) (w : W) :
  node_lookups (snd (run_all respond (map (V2.mapper ctx uniqueId) cs) w))
    = map tx_hash cs /\
  explorer_requests (snd (run_all respond (map (V2.mapper ctx uniqueId) cs) w)) = [] /\
  (length (credit_calls (snd (run_all respond (map (V2.mapper ctx uniqueId) cs) w)))
   <= length cs)%nat.
Proof.
  revert w; induction cs as [| c cs IH]; intros w; [cbn; auto |].
  cbn [map run_all].
  destruct (mapper_calls c w) as (Hn & He & Hc).
  destruct (run respond (V2.mapper ctx uniqueId c) w) as [[o w1] t1].
  destruct (IH w1) as (Hn' & He' & Hc').
  destruct (run_all respond (map (V2.mapper ctx uniqueId) cs) w1) as [[os w2] t2].
  cbn [fst snd] in *.
  rewrite node_lookups_app, explorer_requests_app, credits_app, length_app.
  rewrite Hn, Hn', He, He'. cbn. repeat split; auto. lia.
Qed.

(** The selection throws exactly when a listed value is not a number, and
    then with the fault of the first such value. *)
Lemma BigNumber_value_string_fault (s : string) (e : Fault) :
  BigNumber_value (JStr s) = Fail e -> value_fault e.
Proof.
  unfold BigNumber_value, BigNumber_from.
  destruct (parse_hex s) as [[n | text] |]; cbn.
  - discriminate.
  - intros [= <-]. right. eexists. reflexivity.
  - destruct (parse_decimal s); cbn; [discriminate |].
    intros [= <-]. left. reflexivity.
Qed.

Lemma first_unreadable_fault (txs : list EtherscanTx) (e : Fault) :
  first_unreadable txs e -> value_fault e /\ Exists (fun tx => ~ numeric tx) txs.
Proof.
  intros (good & bad & rest & -> & _ & Hbad). split.
  - exact (BigNumber_value_string_fault _ _ Hbad).
  - apply Exists_app. right. left. intros [n Hn]. congruence.
Qed.

Lemma first_unreadable_exists (txs : list EtherscanTx) :
  Exists (fun tx => ~ numeric tx) txs -> exists e, first_unreadable txs e.
Proof.
  induction txs as [| tx txs IH]; intros Hex; [inversion Hex |].
  destruct (BigNumber_value (JStr (tx_value tx))) as [n | e] eqn:Hn.
  - inversion Hex as [? ? Hbad | ? ? Htail]; subst.
    + elim Hbad. exists n. exact Hn.
    + destruct (IH Htail) as (e & good & bad & rest & -> & Hgood & Hbad).
      exists e, (tx :: good), bad, rest.
      split; [reflexivity |]. split; [| exact Hbad].
      constructor; [exists n; exact Hn | exact Hgood].
  - exists e, [], tx, txs. split; [reflexivity |]. split; [constructor | exact Hn].
Qed.

Lemma js_filter_fault (txs : list EtherscanTx) (e : Fault) :
  js_filter value_gt_0 txs = Fail e <-> first_unreadable txs e.
Proof.
  split.
  - revert e. induction txs as [| tx txs IH]; intros e; cbn; [discriminate |].
    unfold value_gt_0 at 1.
    destruct (BigNumber_value (JStr (tx_value tx))) as [n | e0] eqn:Hn; cbn.
    + destruct (js_filter value_gt_0 txs) as [rest | e1]; cbn; [discriminate |].
      intros [= <-].
      destruct (IH e1 eq_refl) as (good & bad & rest & -> & Hgood & Hbad).
      exists (tx :: good), bad, rest.
      split; [reflexivity |]. split; [| exact Hbad].
      constructor; [exists n; exact Hn | exact Hgood].
    + intros [= <-]. exists [], tx, txs.
      split; [reflexivity |]. split; [constructor | exact Hn].
  - intros (good & bad & rest & -> & Hgood & Hbad).
    induction Hgood as [| tx good [n Hn] _ IH]; cbn.
    + unfold value_gt_0 at 1. rewrite Hbad. reflexivity.
    + unfold value_gt_0 at 1. rewrite Hn. cbn. rewrite IH. reflexivity.
Qed.

Lemma trimmedTxs_fault (txs : list EtherscanTx) (e : Fault) :
  trimmedTxs txs = Fail e <-> first_unreadable txs e.
Proof.
  rewrite <- js_filter_fault. unfold trimmedTxs.
  destruct (js_filter value_gt_0 txs) as [kept | e0]; cbn; split;
    congruence.
Qed.

Section AnyHandler.

Variable handler : string -> Prog TaskEnd.
Variable mapper : EtherscanTx -> Prog unit.

Hypothesis handler_stages :
  forall orderId w,
    task_prefix ctx W respond mapper orderId w (run respond (handler orderId) w).

Hypothesis mapper_runs :
  forall cs w,
    run_all respond (map mapper cs) w
    = run_all respond (map (V2.mapper ctx uniqueId) cs) w.

(** Either the task asks nothing of the node and of the ledger, or the
    explorer listed [txs], and the node is asked for the hashes of the
    first ten positive-value transactions of [txs], in their order. *)
Lemma any_task_calls (orderId : string) (w : W) :
  follows_listing (snd (run_task respond (handler orderId) w)).
Proof.
  unfold follows_listing, run_task.
  pose proof (handler_stages orderId w) as Hrel.
  destruct (run respond (handler orderId) w) as [[o w'] tr].
  inversion Hrel; subst; try (left; cbn; auto; fail).
  right.
  match goal with
  | H : trimmedTxs ?txs = Ok ?selected |- _ =>
      destruct (trimmedTxs_returns txs selected H) as [Hnum ->]
  end.
  rewrite mapper_runs.
  match goal with
  | |- context [run_all respond (map _ ?cs) ?w0] =>
      destruct (run_all_calls cs w0) as (Hn & He & Hc);
      destruct (run_all respond (map (V2.mapper ctx uniqueId) cs) w0)
        as [[outs w4] tr2]
  end.
  cbn [fst snd] in *.
  rewrite node_lookups_app, explorer_requests_app, credits_app, Hn, He.
  do 3 eexists.
  split; [apply in_or_app; left; right; right; right; left; reflexivity |].
  split; [eassumption |].
  split; [exact Hnum |].
  cbn. rewrite length_map in *. repeat split; auto.
Qed.

(** Two answers of the world to the same call from the same state. *)
Ltac same_answers :=
  repeat match goal with
  | H1 : respond ?c ?w0 = _, H2 : respond ?c ?w0 = _ |- _ =>
      rewrite H1 in H2; injection H2 as ?; subst
  | H1 : order_depositAddress ?o = _, H2 : order_depositAddress ?o = _ |- _ =>
      rewrite H1 in H2; injection H2 as ?; subst
  | H1 : block_number_of ?r = _, H2 : block_number_of ?r = _ |- _ =>
      rewrite H1 in H2; injection H2 as ?; subst
  | H1 : listing_of ?r = _, H2 : listing_of ?r = _ |- _ =>
      rewrite H1 in H2; injection H2 as ?; subst
  | H1 : trimmedTxs ?l = _, H2 : trimmedTxs ?l = _ |- _ =>
      rewrite H1 in H2; injection H2 as ?; subst
  end.

Lemma any_handler_faults (orderId : string) (w : W) (e : Fault) :
  fst (fst (run respond (handler orderId) w)) = Fail e ->
  fst (respond (FindOneBy orderId) w) = Fail e \/ value_fault e.
Proof.
  pose proof (handler_stages orderId w) as Hrel.
  destruct (run respond (handler orderId) w) as [[o w'] tr].
  cbn [fst]. intros ->.
  inversion Hrel; subst.
  - left. match goal with H : respond _ _ = _ |- _ => rewrite H end. reflexivity.
  - right. match goal with H : trimmedTxs _ = Fail _ |- _ =>
             apply trimmedTxs_fault in H;
             exact (proj1 (first_unreadable_fault _ _ H)) end.
Qed.

Lemma any_unresolved_block (orderId : string) (w : W)
    (o : Order) (d : DepositAddress) (w1 : W) (r1 : Outcome JsVal) (w2 : W) :
  respond (FindOneBy orderId) w = (Ok (Some o), w1) ->
  order_depositAddress o = Some d ->
  respond (AxiosGet (block_url ctx (order_createdAt o))) w1 = (r1, w2) ->
  match block_number_of r1 with
  | Ok blockNumber => truthy blockNumber = false
  | Fail _ => True
  end ->
  run_task respond (handler orderId) w
  = (Ok JUndefined, w2,
     ([EvLog (processing_line orderId);
       EvCall (FindOneBy orderId) (Ok (Some o));
       EvCall (AxiosGet (block_url ctx (order_createdAt o))) r1]
       ++ match block_number_of r1 with
          | Ok _ => []
          | Fail e => [EvLog (block_error_line (order_createdAt o) e)]
          end)%list).
Proof.
  intros Hfind Hd Hblock Hbn.
  unfold run_task.
  pose proof (handler_stages orderId w) as Hrel.
  destruct (run respond (handler orderId) w) as [[o' w'] tr].
  inversion Hrel; subst; same_answers; try congruence;
    match goal with
    | H : block_number_of _ = _ |- _ => rewrite H in Hbn |- *
    end; try congruence; reflexivity.
Qed.

Lemma any_failed_listing (orderId : string) (w : W)
    (o : Order) (d : DepositAddress) (w1 : W) (r1 : Outcome JsVal) (w2 : W)
    (blockNumber : JsVal) (r2 : Outcome JsVal) (w3 : W) (e : Fault) :
  respond (FindOneBy orderId) w = (Ok (Some o), w1) ->
  order_depositAddress o = Some d ->
  respond (AxiosGet (block_url ctx (order_createdAt o))) w1 = (r1, w2) ->
  block_number_of r1 = Ok blockNumber ->
  truthy blockNumber = true ->
  respond (AxiosGet (txlist_url ctx (da_address d) blockNumber)) w2 = (r2, w3) ->
  listing_of r2 = Fail e ->
  run_task respond (handler orderId) w
  = (Ok JUndefined, w3,
     [EvLog (processing_line orderId);
      EvCall (FindOneBy orderId) (Ok (Some o));
      EvCall (AxiosGet (block_url ctx (order_createdAt o))) r1;
      EvCall (AxiosGet (txlist_url ctx (da_address d) blockNumber)) r2;
      EvLog (fetch_error_line orderId e)]).
Proof.
  intros Hfind Hd Hblock Hbn Htruthy Hlist Htxs.
  unfold run_task.
  pose proof (handler_stages orderId w) as Hrel.
  destruct (run respond (handler orderId) w) as [[o' w'] tr].
  inversion Hrel; subst; same_answers; try congruence; reflexivity.
Qed.

Lemma any_bad_value (orderId : string) (w : W)
    (o : Order) (d : DepositAddress) (w1 : W) (r1 : Outcome JsVal) (w2 : W)
    (blockNumber : JsVal) (r2 : Outcome JsVal) (w3 : W) (txs : list EtherscanTx)
    (e : Fault) :
  respond (FindOneBy orderId) w = (Ok (Some o), w1) ->
  order_depositAddress o = Some d ->
  respond (AxiosGet (block_url ctx (order_createdAt o))) w1 = (r1, w2) ->
  block_number_of r1 = Ok blockNumber ->
  truthy blockNumber = true ->
  respond (AxiosGet (txlist_url ctx (da_address d) blockNumber)) w2 = (r2, w3) ->
  listing_of r2 = Ok txs ->
  first_unreadable txs e ->
  run_task respond (handler orderId) w
  = (Fail e, w3,
     [EvLog (processing_line orderId);
      EvCall (FindOneBy orderId) (Ok (Some o));
      EvCall (AxiosGet (block_url ctx (order_createdAt o))) r1;
      EvCall (AxiosGet (txlist_url ctx (da_address d) blockNumber)) r2]).
Proof.
  intros Hfind Hd Hblock Hbn Htruthy Hlist Htxs Hbad.
  apply trimmedTxs_fault in Hbad.
  unfold run_task.
  pose proof (handler_stages orderId w) as Hrel.
  destruct (run respond (handler orderId) w) as [[o' w'] tr].
  inversion Hrel; subst; same_answers; try congruence; reflexivity.
Qed.

Lemma any_scanning (orderId : string) (w : W)
    (o : Order) (d : DepositAddress) (w1 : W) (r1 : Outcome JsVal) (w2 : W)
    (blockNumber : JsVal) (r2 : Outcome JsVal) (w3 : W)
    (txs cs : list EtherscanTx) :
  respond (FindOneBy orderId) w = (Ok (Some o), w1) ->
  order_depositAddress o = Some d ->
  respond (AxiosGet (block_url ctx (order_createdAt o))) w1 = (r1, w2) ->
  block_number_of r1 = Ok blockNumber ->
  truthy blockNumber = true ->
  respond (AxiosGet (txlist_url ctx (da_address d) blockNumber)) w2 = (r2, w3) ->
  listing_of r2 = Ok txs ->
  trimmedTxs txs = Ok cs ->
  run respond (handler orderId) w
  = (Ok (AwaitsPMap (map mapper cs)), w3,
     [EvLog (processing_line orderId);
      EvCall (FindOneBy orderId) (Ok (Some o));
      EvCall (AxiosGet (block_url ctx (order_createdAt o))) r1;
      EvCall (AxiosGet (txlist_url ctx (da_address d) blockNumber)) r2;
      EvLog (found_line (length txs) orderId)]).
Proof.
  intros Hfind Hd Hblock Hbn Htruthy Hlist Htxs Hsel.
  pose proof (handler_stages orderId w) as Hrel.
  destruct (run respond (handler orderId) w) as [[o' w'] tr].
  inversion Hrel; subst; same_answers; try congruence; reflexivity.
Qed.

Lemma any_selection_calls (orderId : string) (w : W)
    (o : Order) (d : DepositAddress) (w1 : W) (r1 : Outcome JsVal) (w2 : W)
    (blockNumber : JsVal) (r2 : Outcome JsVal) (w3 : W)
    (txs cs : list EtherscanTx) :
  respond (FindOneBy orderId) w = (Ok (Some o), w1) ->
  order_depositAddress o = Some d ->
  respond (AxiosGet (block_url ctx (order_createdAt o))) w1 = (r1, w2) ->
  block_number_of r1 = Ok blockNumber ->
  truthy blockNumber = true ->
  respond (AxiosGet (txlist_url ctx (da_address d) blockNumber)) w2 = (r2, w3) ->
  listing_of r2 = Ok txs ->
  trimmedTxs txs = Ok cs ->
  run_task respond (handler orderId) w
  = (settle (fst (fst (run_all respond (map (V2.mapper ctx uniqueId) cs) w3))),
     snd (fst (run_all respond (map (V2.mapper ctx uniqueId) cs) w3)),
     ([EvLog (processing_line orderId);
       EvCall (FindOneBy orderId) (Ok (Some o));
       EvCall (AxiosGet (block_url ctx (order_createdAt o))) r1;
       EvCall (AxiosGet (txlist_url ctx (da_address d) blockNumber)) r2;
       EvLog (found_line (length txs) orderId)]
       ++ snd (run_all respond (map (V2.mapper ctx uniqueId) cs) w3))%list).
Proof.
  intros Hfind Hd Hblock Hbn Htruthy Hlist Htxs Hsel.
  unfold run_task.
  rewrite (any_scanning orderId w o d w1 r1 w2 blockNumber r2 w3 txs cs
             Hfind Hd Hblock Hbn Htruthy Hlist Htxs Hsel).
  rewrite mapper_runs.
  destruct (run_all respond (map (V2.mapper ctx uniqueId) cs) w3) as [[outs w4] tr2].
  reflexivity.
Qed.

End AnyHandler.

Lemma follows_listing_bounds (tr : list Event) :
  follows_listing tr ->
  (length (node_lookups tr) <= 10)%nat /\
  (length (credit_calls tr) <= 10)%nat /\
  (length (explorer_requests tr) <= 2)%nat.
Proof.
  intros [(Hn & Hc & He) | (url & r & txs & _ & _ & _ & Hn & Hc & He)].
  - rewrite Hn, Hc. cbn. repeat split; [lia | lia | exact He].
  - assert (length (node_lookups tr) <= 10)%nat.
    { rewrite Hn, length_map. apply firstn_le_length. }
    repeat split; lia.
Qed.

(** X1: when the order has an address, the explorer gives a block number
    and a listing, and every listed value is the text of a number, the
    task of either worker asks the node for exactly the hashes of the
    first ten positive-value transactions of the listing, in the order of
    the listing when the calls are answered one after the other, after
    exactly the two requests to the explorer, and it calls the ledger at
    most once per hash asked.  The two workers run alike. *)
Theorem task_asks_node_for_the_selection (orderId : string) (w : W)
    (o : Order) (d : DepositAddress) (w1 : W) (r1 : Outcome JsVal) (w2 : W)
    (blockNumber : JsVal) (r2 : Outcome JsVal) (w3 : W) (txs : list EtherscanTx) :
  respond (FindOneBy orderId) w = (Ok (Some o), w1) ->
  order_depositAddress o = Some d ->
  respond (AxiosGet (block_url ctx (order_createdAt o))) w1 = (r1, w2) ->
  block_number_of r1 = Ok blockNumber ->
  truthy blockNumber = true ->
  respond (AxiosGet (txlist_url ctx (da_address d) blockNumber)) w2 = (r2, w3) ->
  listing_of r2 = Ok txs ->
  Forall (fun tx => number_text (tx_value tx) = true) txs ->
  node_lookups (snd (run_task respond (V2.runScanByOrderId ctx uniqueId orderId) w))
    = map tx_hash (firstn 10 (filter positive txs)) /\
  explorer_requests
    (snd (run_task respond (V2.runScanByOrderId ctx uniqueId orderId) w))
    = [block_url ctx (order_createdAt o); txlist_url ctx (da_address d) blockNumber] /\
  (length (credit_calls
             (snd (run_task respond (V2.runScanByOrderId ctx uniqueId orderId) w)))
   <= length (firstn 10 (filter positive txs)))%nat /\
  run_task respond (V1.runScanByOrderId ctx uniqueId orderId) w
  = run_task respond (V2.runScanByOrderId ctx uniqueId orderId) w.
Proof.
  intros Hfind Hd Hblock Hbn Htruthy Hlist Htxs Hnum.
  apply Forall_numeric_number_text in Hnum.
  pose proof (trimmedTxs_numeric txs Hnum) as Hsel.
  rewrite (any_selection_calls (V1.runScanByOrderId ctx uniqueId)
             (V1.mapper ctx uniqueId) V1_task_prefix run_all_same
             orderId w o d w1 r1 w2 blockNumber r2 w3 txs _
             Hfind Hd Hblock Hbn Htruthy Hlist Htxs Hsel).
  rewrite (any_selection_calls (V2.runScanByOrderId ctx uniqueId)
             (V2.mapper ctx uniqueId) V2_task_prefix (fun _ _ => eq_refl)
             orderId w o d w1 r1 w2 blockNumber r2 w3 txs _
             Hfind Hd Hblock Hbn Htruthy Hlist Htxs Hsel).
  destruct (run_all_calls (firstn 10 (filter positive txs)) w3) as (Hn & He & Hc).
  cbn [fst snd].
  rewrite node_lookups_app, explorer_requests_app, credits_app, Hn, He.
  repeat split; try reflexivity. exact Hc.
Qed.

(** X2: one task, in either worker, sends at most two requests to the
    explorer, asks the node for at most ten transactions and calls the
    ledger at most ten times, whatever the explorer lists. *)
Theorem task_calls_are_bounded (orderId : string) (w : W) :
  ((length (node_lookups
      (snd (run_task respond (V1.runScanByOrderId ctx uniqueId orderId) w))) <= 10)%nat /\
   (length (credit_calls
      (snd (run_task respond (V1.runScanByOrderId ctx uniqueId orderId) w))) <= 10)%nat /\
   (length (explorer_requests
      (snd (run_task respond (V1.runScanByOrderId ctx uniqueId orderId) w))) <= 2)%nat) /\
  ((length (node_lookups
      (snd (run_task respond (V2.runScanByOrderId ctx uniqueId orderId) w))) <= 10)%nat /\
   (length (credit_calls
      (snd (run_task respond (V2.runScanByOrderId ctx uniqueId orderId) w))) <= 10)%nat /\
   (length (explorer_requests
      (snd (run_task respond (V2.runScanByOrderId ctx uniqueId orderId) w))) <= 2)%nat).
Proof.
  split; apply follows_listing_bounds.
  - apply (any_task_calls (V1.runScanByOrderId ctx uniqueId)
             (V1.mapper ctx uniqueId) V1_task_prefix run_all_same).
  - apply (any_task_calls (V2.runScanByOrderId ctx uniqueId)
             (V2.mapper ctx uniqueId) V2_task_prefix (fun _ _ => eq_refl)).
Qed.

(** X3: before the mapping starts, the handler of either worker throws
    only the rejection of the order store, or the fault of a listed value
    that is not a number: the error of [BigNumber.from], or the one of
    bn.js on a text with an upper-case [0X]; a failure of the explorer
    never makes it throw. *)
Theorem handler_throws_only_on_store_or_value
    (orderId : string) (w : W) (e : Fault) :
  fst (fst (run respond (V1.runScanByOrderId ctx uniqueId orderId) w)) = Fail e \/
  fst (fst (run respond (V2.runScanByOrderId ctx uniqueId orderId) w)) = Fail e ->
  fst (respond (FindOneBy orderId) w) = Fail e \/ value_fault e.
Proof.
  intros [H | H].
  - exact (any_handler_faults (V1.runScanByOrderId ctx uniqueId)
             (V1.mapper ctx uniqueId) V1_task_prefix orderId w e H).
  - exact (any_handler_faults (V2.runScanByOrderId ctx uniqueId)
             (V2.mapper ctx uniqueId) V2_task_prefix orderId w e H).
Qed.

(** X4: when the block number cannot be had (the request is rejected,
    its answer cannot be read, or its [result] is falsy), the task of
    either worker returns normally after that one request: no listing is
    requested, nothing is asked of the node, and the failure is logged
    when there was one. *)
Theorem unresolved_block_ends_task (orderId : string) (w : W)
    (o : Order) (d : DepositAddress) (w1 : W) (r1 : Outcome JsVal) (w2 : W) :
  respond (FindOneBy orderId) w = (Ok (Some o), w1) ->
  order_depositAddress o = Some d ->
  respond (AxiosGet (block_url ctx (order_createdAt o))) w1 = (r1, w2) ->
  match block_number_of r1 with
  | Ok blockNumber => truthy blockNumber = false
  | Fail _ => True
  end ->
  run_task respond (V1.runScanByOrderId ctx uniqueId orderId) w
  = (Ok JUndefined, w2,
     ([EvLog (processing_line orderId);
       EvCall (FindOneBy orderId) (Ok (Some o));
       EvCall (AxiosGet (block_url ctx (order_createdAt o))) r1]
       ++ match block_number_of r1 with
          | Ok _ => []
          | Fail e => [EvLog (block_error_line (order_createdAt o) e)]
          end)%list) /\
  run_task respond (V2.runScanByOrderId ctx uniqueId orderId) w
  = run_task respond (V1.runScanByOrderId ctx uniqueId orderId) w.
Proof.
  intros Hfind Hd Hblock Hbn.
  rewrite (any_unresolved_block (V1.runScanByOrderId ctx uniqueId)
             (V1.mapper ctx uniqueId) V1_task_prefix orderId w o d w1 r1 w2
             Hfind Hd Hblock Hbn).
  split; [reflexivity |].
  exact (any_unresolved_block (V2.runScanByOrderId ctx uniqueId)
           (V2.mapper ctx uniqueId) V2_task_prefix orderId w o d w1 r1 w2
           Hfind Hd Hblock Hbn).
Qed.

(** X5: when the listing cannot be had (the request is rejected or its
    answer does not fit the schema), the task of either worker logs the
    error and returns normally: nothing is asked of the node. *)
Theorem failed_listing_ends_task (orderId : string) (w : W)
    (o : Order) (d : DepositAddress) (w1 : W) (r1 : Outcome JsVal) (w2 : W)
    (blockNumber : JsVal) (r2 : Outcome JsVal) (w3 : W) (e : Fault) :
  respond (FindOneBy orderId) w = (Ok (Some o), w1) ->
  order_depositAddress o = Some d ->
  respond (AxiosGet (block_url ctx (order_createdAt o))) w1 = (r1, w2) ->
  block_number_of r1 = Ok blockNumber ->
  truthy blockNumber = true ->
  respond (AxiosGet (txlist_url ctx (da_address d) blockNumber)) w2 = (r2, w3) ->
  listing_of r2 = Fail e ->
  run_task respond (V1.runScanByOrderId ctx uniqueId orderId) w
  = (Ok JUndefined, w3,
     [EvLog (processing_line orderId);
      EvCall (FindOneBy orderId) (Ok (Some o));
      EvCall (AxiosGet (block_url ctx (order_createdAt o))) r1;
      EvCall (AxiosGet (txlist_url ctx (da_address d) blockNumber)) r2;
      EvLog (fetch_error_line orderId e)]) /\
  run_task respond (V2.runScanByOrderId ctx uniqueId orderId) w
  = run_task respond (V1.runScanByOrderId ctx uniqueId orderId) w.
Proof.
  intros Hfind Hd Hblock Hbn Htruthy Hlist Htxs.
  rewrite (any_failed_listing (V1.runScanByOrderId ctx uniqueId)
             (V1.mapper ctx uniqueId) V1_task_prefix orderId w o d w1 r1 w2
             blockNumber r2 w3 e Hfind Hd Hblock Hbn Htruthy Hlist Htxs).
  split; [reflexivity |].
  exact (any_failed_listing (V2.runScanByOrderId ctx uniqueId)
           (V2.mapper ctx uniqueId) V2_task_prefix orderId w o d w1 r1 w2
           blockNumber r2 w3 e Hfind Hd Hblock Hbn Htruthy Hlist Htxs).
Qed.

(** X6: a listing that fits the schema but holds a value that is not a
    number makes the task of either worker fail after the two requests to
    the explorer, with the fault of the first such value in the order of
    the listing (the error of [BigNumber.from], or the one of bn.js): the
    number of listed transactions is not logged and nothing is asked of
    the node, also for the entries whose value is a number. *)
Theorem bad_value_fails_task (orderId : string) (w : W)
    (o : Order) (d : DepositAddress) (w1 : W) (r1 : Outcome JsVal) (w2 : W)
    (blockNumber : JsVal) (r2 : Outcome JsVal) (w3 : W) (txs : list EtherscanTx)
    (e : Fault) :
  respond (FindOneBy orderId) w = (Ok (Some o), w1) ->
  order_depositAddress o = Some d ->
  respond (AxiosGet (block_url ctx (order_createdAt o))) w1 = (r1, w2) ->
  block_number_of r1 = Ok blockNumber ->
  truthy blockNumber = true ->
  respond (AxiosGet (txlist_url ctx (da_address d) blockNumber)) w2 = (r2, w3) ->
  listing_of r2 = Ok txs ->
  first_unreadable txs e ->
  run_task respond (V1.runScanByOrderId ctx uniqueId orderId) w
  = (Fail e, w3,
     [EvLog (processing_line orderId);
      EvCall (FindOneBy orderId) (Ok (Some o));
      EvCall (AxiosGet (block_url ctx (order_createdAt o))) r1;
      EvCall (AxiosGet (txlist_url ctx (da_address d) blockNumber)) r2]) /\
  run_task respond (V2.runScanByOrderId ctx uniqueId orderId) w
  = run_task respond (V1.runScanByOrderId ctx uniqueId orderId) w /\
  value_fault e.
Proof.
  intros Hfind Hd Hblock Hbn Htruthy Hlist Htxs Hbad.
  rewrite (any_bad_value (V1.runScanByOrderId ctx uniqueId)
             (V1.mapper ctx uniqueId) V1_task_prefix orderId w o d w1 r1 w2
             blockNumber r2 w3 txs e Hfind Hd Hblock Hbn Htruthy Hlist Htxs Hbad).
  split; [reflexivity |].
  split; [| exact (proj1 (first_unreadable_fault txs e Hbad))].
  exact (any_bad_value (V2.runScanByOrderId ctx uniqueId)
           (V2.mapper ctx uniqueId) V2_task_prefix orderId w o d w1 r1 w2
           blockNumber r2 w3 txs e Hfind Hd Hblock Hbn Htruthy Hlist Htxs Hbad).
Qed.

End TaskStagesFacts.

Lemma handler_throws_only_on_store_or_value_witness :
  fst (Outage.respond Outage.block Outage.bad_listing (FindOneBy "order-1") tt)
    = Fail (JsError "Invalid character in 0X1F") \/
  value_fault (JsError "Invalid character in 0X1F").
Proof.
  apply (handler_throws_only_on_store_or_value Scenario.ctx Scenario.uniqueId unit
           (Outage.respond Outage.block Outage.bad_listing) "order-1" tt).
  left. vm_compute. reflexivity.
Defined.

Lemma unresolved_block_ends_task_witness :
  run_task (Outage.respond Outage.timeout Outage.timeout)
    (V1.runScanByOrderId Scenario.ctx Scenario.uniqueId "order-1") tt
  = (Ok JUndefined, tt,
     ([EvLog (processing_line "order-1");
       EvCall (FindOneBy "order-1") (Ok (Some Scenario.order));
       EvCall (AxiosGet (block_url Scenario.ctx (order_createdAt Scenario.order)))
         Outage.timeout]
       ++ match block_number_of Outage.timeout with
          | Ok _ => []
          | Fail e => [EvLog (block_error_line (order_createdAt Scenario.order) e)]
          end)%list) /\
  run_task (Outage.respond Outage.timeout Outage.timeout)
    (V2.runScanByOrderId Scenario.ctx Scenario.uniqueId "order-1") tt
  = run_task (Outage.respond Outage.timeout Outage.timeout)
      (V1.runScanByOrderId Scenario.ctx Scenario.uniqueId "order-1") tt.
Proof.
  apply (unresolved_block_ends_task Scenario.ctx Scenario.uniqueId unit
           (Outage.respond Outage.timeout Outage.timeout) "order-1" tt
           Scenario.order {| da_address := Scenario.payer |} tt Outage.timeout tt).
  - reflexivity.
  - reflexivity.
  - vm_compute. reflexivity.
  - exact I.
Defined.

Lemma failed_listing_ends_task_witness :
  run_task (Outage.respond Outage.block Outage.timeout)
    (V1.runScanByOrderId Scenario.ctx Scenario.uniqueId "order-1") tt
  = (Ok JUndefined, tt,
     [EvLog (processing_line "order-1");
      EvCall (FindOneBy "order-1") (Ok (Some Scenario.order));
      EvCall (AxiosGet (block_url Scenario.ctx (order_createdAt Scenario.order)))
        Outage.block;
      EvCall (AxiosGet (txlist_url Scenario.ctx Scenario.payer (JStr "18500000")))
        Outage.timeout;
      EvLog (fetch_error_line "order-1" (External "timeout of 10000ms exceeded"))]) /\
  run_task (Outage.respond Outage.block Outage.timeout)
    (V2.runScanByOrderId Scenario.ctx Scenario.uniqueId "order-1") tt
  = run_task (Outage.respond Outage.block Outage.timeout)
      (V1.runScanByOrderId Scenario.ctx Scenario.uniqueId "order-1") tt.
Proof.
  apply (failed_listing_ends_task Scenario.ctx Scenario.uniqueId unit
           (Outage.respond Outage.block Outage.timeout) "order-1" tt
           Scenario.order {| da_address := Scenario.payer |} tt Outage.block tt
           (JStr "18500000") Outage.timeout tt
           (External "timeout of 10000ms exceeded")).
  - reflexivity.
  - reflexivity.
  - vm_compute. reflexivity.
  - reflexivity.
  - reflexivity.
  - vm_compute. reflexivity.
  - reflexivity.
Defined.

Lemma bad_value_fails_task_witness :
  run_task (Outage.respond Outage.block Outage.bad_listing)
    (V1.runScanByOrderId Scenario.ctx Scenario.uniqueId "order-1") tt
  = (Fail (JsError "Invalid character in 0X1F"), tt,
     [EvLog (processing_line "order-1");
      EvCall (FindOneBy "order-1") (Ok (Some Scenario.order));
      EvCall (AxiosGet (block_url Scenario.ctx (order_createdAt Scenario.order)))
        Outage.block;
      EvCall (AxiosGet (txlist_url Scenario.ctx Scenario.payer (JStr "18500000")))
        Outage.bad_listing]) /\
  run_task (Outage.respond Outage.block Outage.bad_listing)
    (V2.runScanByOrderId Scenario.ctx Scenario.uniqueId "order-1") tt
  = run_task (Outage.respond Outage.block Outage.bad_listing)
      (V1.runScanByOrderId Scenario.ctx Scenario.uniqueId "order-1") tt /\
  value_fault (JsError "Invalid character in 0X1F").
Proof.
  apply (bad_value_fails_task Scenario.ctx Scenario.uniqueId unit
           (Outage.respond Outage.block Outage.bad_listing) "order-1" tt
           Scenario.order {| da_address := Scenario.payer |} tt Outage.block tt
           (JStr "18500000") Outage.bad_listing tt
           [Scenario.listed_tx "0x01" "5"; Scenario.listed_tx "0x02" "0X1F";
            Scenario.listed_tx "0x03" "five"]).
  - reflexivity.
  - reflexivity.
  - vm_compute. reflexivity.
  - reflexivity.
  - reflexivity.
  - vm_compute. reflexivity.
  - reflexivity.
  - exists [Scenario.listed_tx "0x01" "5"], (Scenario.listed_tx "0x02" "0X1F"),
      [Scenario.listed_tx "0x03" "five"].
    split; [reflexivity |].
    split; [repeat constructor; exists 5; reflexivity | reflexivity].
Defined.

(* ===================================================================== *)
(** * The stages of a scan *)
(* ===================================================================== *)

(** A decimal rendering is never read as a hexadecimal number. *)
Lemma parse_hex_decimal (n : Z) : parse_hex (decimal_of_Z n) = None.
Proof.
  unfold decimal_of_Z.
  destruct n as [| q | q]; [reflexivity | |]; cbn [Z.to_int NilZero.string_of_int].
  - destruct (Pos.to_uint q) as [| d | d | d | d | d | d | d | d | d | d];
      try reflexivity;
      destruct d as [| d | d | d | d | d | d | d | d | d | d]; try reflexivity;
      destruct d; reflexivity.
  - destruct (Pos.to_uint q) as [| d | d | d | d | d | d | d | d | d | d];
      try reflexivity;
      destruct d as [| d | d | d | d | d | d | d | d | d | d]; try reflexivity;
      destruct d; reflexivity.
Qed.

Lemma BigNumber_value_decimal (n : Z) : BigNumber_value (JStr (decimal_of_Z n)) = Ok n.
Proof.
  unfold BigNumber_value, BigNumber_from.
  now rewrite parse_hex_decimal, parse_decimal_of_Z.
Qed.

Lemma formatEther_decimal (n : Z) :
  formatEther (JStr (decimal_of_Z n)) = formatEther (JBig n).
Proof.
  unfold formatEther. now rewrite BigNumber_value_decimal.
Qed.

Section ScanStages.

Variable ctx : Context.
Variable uniqueId : NativeMethod -> JsVal -> string.
Variable W : Type.
Variable respond : forall c : Call, W -> Outcome (Resp c) * W.

Lemma scan_reaches_store_inv (tx : JsVal) (w : W) :
  snd (run respond (V2.scanTxid ctx uniqueId tx) w) <> [] ->
  pays_account ctx tx /\ exists tot, total_of_tx tx = Ok tot.
Proof.
  unfold V2.scanTxid.
  destruct (V2.validateTx tx) as [[] | e] eqn:Hv; simpl; [| congruence].
  destruct (validateTx_ok_inv tx Hv) as (fields & h & b & -> & Hfrom & Hh & Hb).
  simpl. rewrite Hh.
  destruct (truthy (lookup_field "to" fields)) eqn:Ht; simpl; [| congruence].
  destruct (lookup_field "to" fields) as [| | bo | n | s | n | xs | fs] eqn:Hto;
    simpl; try congruence.
  destruct (lower s =? lower (account ctx))%string eqn:Hlow; simpl; [| congruence].
  destruct (is_undefined (lookup_field "gasPrice" fields)) eqn:Hgp;
    simpl; [congruence |].
  match goal with
  | |- context [lift ?o] => destruct o as [tot | e] eqn:Htot
  end; simpl; [| congruence].
  intros _. split.
  - split; [exact Hv |]. split.
    + exists s. unfold field. simpl. rewrite Hto.
      split; [reflexivity |]. split.
      * intros ->. simpl in Ht. discriminate.
      * apply String.eqb_eq. exact Hlow.
    + unfold field. simpl. intros Hu. rewrite Hu in Hgp. discriminate.
  - exists tot. exact Htot.
Qed.

Lemma scan_reaches_store (tx : JsVal) (w : W) (tot : string) :
  pays_account ctx tx ->
  total_of_tx tx = Ok tot ->
  snd (run respond (V2.scanTxid ctx uniqueId tx) w) <> [].
Proof.
  intros (Hv & (s & Hto & Hs & Hlow) & Hgp) Htot.
  unfold V2.scanTxid. rewrite Hv.
  destruct (validateTx_ok_inv tx Hv) as (fields & h & b & -> & Hfrom & Hh & Hb).
  unfold field in Hto, Hgp. simpl in Hto, Hgp.
  assert (Hs' : (s =? EmptyString)%string = false)
    by (apply String.eqb_neq; exact Hs).
  assert (Hgp' : is_undefined (lookup_field "gasPrice" fields) = false)
    by (destruct (lookup_field "gasPrice" fields); simpl; congruence).
  simpl. rewrite Hh, Hto. simpl. rewrite Hs'. simpl.
  rewrite Hlow, String.eqb_refl. simpl. rewrite Hgp'. simpl.
  match goal with
  | |- context [lift ?o] =>
      replace o with (Ok tot : Outcome string) by (symmetry; exact Htot)
  end.
  simpl.
  match goal with
  | |- context [respond ?c ?w0] => destruct (respond c w0) as [r1 w1]
  end.
  match goal with
  | |- context [run respond ?p ?w0] => destruct (run respond p w0) as [[o w2] t]
  end.
  simpl. discriminate.
Qed.

Lemma scan_credit_inv (tx : JsVal) (w : W) (c : Credit) :
  In c (credit_calls (snd (run respond (V2.scanTxid ctx uniqueId tx) w))) ->
  exists order h tot,
    fst (respond (lookup_call ctx tx) w) = Ok (Some order) /\
    field tx "hash" = JStr h /\
    total_of_tx tx = Ok tot /\
    formatEther (JStr tot) = Ok (cr_amount c) /\
    cr_orderId c = order_id order /\
    cr_txid c = JStr h /\
    cr_uniqueId c = uniqueId (nativeMethod ctx) (JStr h) /\
    credit_calls (snd (run respond (V2.scanTxid ctx uniqueId tx) w)) = [c].
Proof.
  pose proof (scan_run_spec ctx uniqueId W respond tx w) as Hrun.
  destruct (run respond (V2.scanTxid ctx uniqueId tx) w) as [[o w'] tr].
  cbn [fst snd].
  inversion Hrun as [o0 Ho | r1 w1 o0 Hr1 Ho
                     | order h valueAsEther tot totalAsEther w1 r2 w2
                         Hh Hr1 Htot Hve Hte Hr2]; subst.
  - intros [].
  - intros [].
  - assert (Hcalls :
      credit_calls
        (EvCall (lookup_call ctx tx) (Ok (Some order))
           :: EvCall (credit_call ctx uniqueId order h totalAsEther) o
           :: match o with
              | Ok true => [EvLog (stored_deposit ctx h valueAsEther (order_id order))]
              | _ => []
              end)
      = [{| cr_orderId := order_id order; cr_txid := JStr h;
            cr_amount := totalAsEther;
            cr_uniqueId := uniqueId (nativeMethod ctx) (JStr h);
            cr_answer := o |}]).
    { destruct o as [[|] | e]; reflexivity. }
    rewrite Hcalls. intros [<- | []].
    exists order, h, tot. rewrite Hr1. cbn [fst].
    repeat split; auto.
Qed.

(** X7: a scan contacts the order store (and so the ledger) exactly for
    the records that pass the guard, are addressed to the account up to
    case, carry a gas price and have a computable total; for every other
    record it ends without any call and any log line.  Both workers scan
    alike. *)
Theorem scan_contacts_exactly_for_payments (tx : JsVal) (w : W) :
  (snd (run respond (V2.scanTxid ctx uniqueId tx) w) <> [] <->
   pays_account ctx tx /\ exists tot, total_of_tx tx = Ok tot) /\
  run respond (V1.scanTxid ctx uniqueId tx) w
  = run respond (V2.scanTxid ctx uniqueId tx) w.
Proof.
  split; [| now rewrite scanTxid_same].
  split.
  - apply scan_reaches_store_inv.
  - intros [Hpays [tot Htot]]. exact (scan_reaches_store tx w tot Hpays Htot).
Qed.

(** X8: every call of a scan to the ledger is for the order that the
    store found for the sender of the record: it carries the id of that
    order, the hash of the record as transaction id, the unique id of
    that hash, and as amount the total of the record in ether; the record
    is a payment to the account, and the scan makes no other call to the
    ledger. *)
Theorem credit_is_for_the_senders_order (tx : JsVal) (w : W) (c : Credit) :
  In c (credit_calls (snd (run respond (V2.scanTxid ctx uniqueId tx) w))) ->
  pays_account ctx tx /\
  exists order h tot,
    fst (respond (lookup_call ctx tx) w) = Ok (Some order) /\
    field tx "hash" = JStr h /\
    total_of_tx tx = Ok tot /\
    formatEther (JStr tot) = Ok (cr_amount c) /\
    cr_orderId c = order_id order /\
    cr_txid c = JStr h /\
    cr_uniqueId c = uniqueId (nativeMethod ctx) (JStr h) /\
    credit_calls (snd (run respond (V2.scanTxid ctx uniqueId tx) w)) = [c].
Proof.
  intros Hin. split.
  - apply (scan_reaches_store_inv tx w).
    intros Hnil. rewrite Hnil in Hin. exact Hin.
  - exact (scan_credit_inv tx w c Hin).
Qed.

(** X9: a scan returns [true] exactly when it called the ledger and the
    ledger answered [true]. *)
Theorem scan_true_iff_ledger_created (tx : JsVal) (w : W) :
  fst (fst (run respond (V2.scanTxid ctx uniqueId tx) w)) = Ok true <->
  exists c,
    credit_calls (snd (run respond (V2.scanTxid ctx uniqueId tx) w)) = [c] /\
    cr_answer c = Ok true.
Proof.
  pose proof (scan_run_spec ctx uniqueId W respond tx w) as Hrun.
  destruct (run respond (V2.scanTxid ctx uniqueId tx) w) as [[o w'] tr].
  cbn [fst snd].
  inversion Hrun as [o0 Ho | r1 w1 o0 Hr1 Ho
                     | order h valueAsEther tot totalAsEther w1 r2 w2
                         Hh Hr1 Htot Hve Hte Hr2]; subst.
  - split; [intros H; now elim Ho | intros [c [H _]]; discriminate].
  - split; [intros H; now elim Ho | intros [c [H _]]; discriminate].
  - split.
    + intros ->. eexists. split; reflexivity.
    + intros [c [Hc Ha]].
      destruct o as [[|] | e]; [reflexivity | |];
        injection Hc as <-; discriminate.
Qed.

(** X10: when the value, the gas limit and the gas price of a record are
    BigNumbers, the amount of every credit call of its scan is the value
    plus gas limit times gas price, exactly, in ether. *)
Theorem credited_amount_is_value_plus_fee
    (tx : JsVal) (w : W) (c : Credit) (v l p : Z) :
  field tx "value" = JBig v -> 0 <= v ->
  field tx "gasLimit" = JBig l -> 0 <= l ->
  field tx "gasPrice" = JBig p -> 0 <= p ->
  In c (credit_calls (snd (run respond (V2.scanTxid ctx uniqueId tx) w))) ->
  formatEther (JBig (v + l * p)) = Ok (cr_amount c).
Proof.
  intros Hv _ Hl _ Hp _ Hin.
  destruct (scan_credit_inv tx w c Hin) as (order & h & tot & _ & _ & Htot & Hamt & _).
  unfold total_of_tx in Htot. rewrite Hv, Hl, Hp in Htot.
  cbn [call_toString obind ToString] in Htot.
  rewrite (total_exact _ _ _ v l p) in Htot by apply parse_decimal_of_Z.
  injection Htot as <-.
  rewrite <- formatEther_decimal. exact Hamt.
Qed.

End ScanStages.

Lemma credit_is_for_the_senders_order_witness :
  pays_account Scenario.ctx (Scenario.deposit "0xgood") /\
  exists order h tot,
    fst (Scenario.respond
           (lookup_call Scenario.ctx (Scenario.deposit "0xgood")) [])
      = Ok (Some order) /\
    field (Scenario.deposit "0xgood") "hash" = JStr h /\
    total_of_tx (Scenario.deposit "0xgood") = Ok tot /\
    formatEther (JStr tot) = Ok (cr_amount good_credit) /\
    cr_orderId good_credit = order_id order /\
    cr_txid good_credit = JStr h /\
    cr_uniqueId good_credit
      = Scenario.uniqueId (nativeMethod Scenario.ctx) (JStr h) /\
    credit_calls
      (snd (run Scenario.respond
              (V2.scanTxid Scenario.ctx Scenario.uniqueId
                 (Scenario.deposit "0xgood")) []))
    = [good_credit].
Proof.
  apply (credit_is_for_the_senders_order Scenario.ctx Scenario.uniqueId
           (list string) Scenario.respond (Scenario.deposit "0xgood") []
           good_credit).
  vm_compute. left. reflexivity.
Defined.

Lemma credited_amount_is_value_plus_fee_witness :
  formatEther (JBig (1000000000000000000 + 21000 * 50000000000))
  = Ok (cr_amount good_credit).
Proof.
  apply (credited_amount_is_value_plus_fee Scenario.ctx Scenario.uniqueId
           (list string) Scenario.respond (Scenario.deposit "0xgood") []
           good_credit 1000000000000000000 21000 50000000000).
  - reflexivity.
  - lia.
  - reflexivity.
  - lia.
  - reflexivity.
  - lia.
  - vm_compute. left. reflexivity.
Defined.

(* ===================================================================== *)
(** * The helpers of the handler *)
(* ===================================================================== *)

Lemma parse_entry_json (tx : EtherscanTx) : parse_entry (entry_json tx) = Ok tx.
Proof. destruct tx. reflexivity. Qed.

Lemma parse_entry_inv (v : JsVal) (tx : EtherscanTx) :
  parse_entry v = Ok tx <-> entry_of v tx.
Proof.
  split.
  - destruct v as [| | b | n | s | n | xs | fields]; simpl; try discriminate.
    destruct (lookup_field "hash" fields) eqn:Hh; try discriminate.
    destruct (lookup_field "from" fields) eqn:Hf; try discriminate.
    destruct (lookup_field "to" fields) eqn:Ht; try discriminate.
    destruct (lookup_field "value" fields) eqn:Hx; try discriminate.
    intros [= <-]. exists fields. simpl. auto.
  - intros (fields & -> & Hh & Hf & Ht & Hx). simpl.
    rewrite Hh, Hf, Ht, Hx. destruct tx. reflexivity.
Qed.

Lemma parse_entries_inv (xs : list JsVal) (txs : list EtherscanTx) :
  parse_entries xs = Ok txs <-> Forall2 entry_of xs txs.
Proof.
  revert txs. induction xs as [| v xs IH]; intros txs; simpl.
  - split.
    + intros [= <-]. constructor.
    + intros H. inversion H. reflexivity.
  - split.
    + destruct (parse_entry v) as [tx |] eqn:Hv; simpl; [| discriminate].
      destruct (parse_entries xs) as [rest |] eqn:Hrest; simpl; [| discriminate].
      intros [= <-]. constructor.
      * apply parse_entry_inv. exact Hv.
      * apply IH. reflexivity.
    + intros H. inversion H as [| v' tx xs' rest Hv Hrest]; subst.
      apply parse_entry_inv in Hv. apply IH in Hrest.
      rewrite Hv, Hrest. reflexivity.
Qed.

(** X11: the schema accepts exactly the arrays of objects whose [hash],
    [from], [to] and [value] are strings, and gives back those four
    strings of every entry, in order: other keys are dropped, and what the
    explorer sends for a list of transactions is read back as that list. *)
Theorem schema_accepts_exactly_listings (res : JsVal) (txs : list EtherscanTx) :
  (accountTxListResultSchema_parse res = Ok txs <->
   exists xs, res = JArr xs /\ Forall2 entry_of xs txs) /\
  accountTxListResultSchema_parse (JArr (map entry_json txs)) = Ok txs.
Proof.
  split; [split |].
  - destruct res as [| | b | n | s | n | xs | fields]; simpl; try discriminate.
    intros H. exists xs. split; [reflexivity |].
    apply parse_entries_inv. exact H.
  - intros (xs & -> & H). simpl. apply parse_entries_inv. exact H.
  - unfold accountTxListResultSchema_parse.
    induction txs as [| tx txs IH]; cbn [map parse_entries]; [reflexivity |].
    rewrite parse_entry_json, IH. reflexivity.
Qed.

(** X12: the guard accepts exactly the objects with a truthy [from], a
    string [hash] and a string [blockHash]. *)
Theorem guard_accepts_exactly (tx : JsVal) :
  V2.validateTx tx = Ok tt <->
  exists fields h b,
    tx = JObj fields /\
    truthy (lookup_field "from" fields) = true /\
    lookup_field "hash" fields = JStr h /\
    lookup_field "blockHash" fields = JStr b.
Proof.
  split.
  - apply validateTx_ok_inv.
  - intros (fields & h & b & -> & Hfrom & Hh & Hb).
    exact (validateTx_ok_intro fields h b Hfrom Hh Hb).
Qed.

Lemma filter_keeps_all {A : Type} (f : A -> bool) (l : list A) :
  Forall (fun x => f x = true) l -> filter f l = l.
Proof.
  induction 1 as [| x l Hx _ IH]; simpl; [reflexivity |].
  rewrite Hx, IH. reflexivity.
Qed.

Lemma Forall_of_filter {A : Type} (f : A -> bool) (l : list A) :
  Forall (fun x => f x = true) (filter f l).
Proof.
  apply Forall_forall. intros x Hx. apply filter_In in Hx. tauto.
Qed.

Lemma Forall_in_filter {A : Type} (P : A -> Prop) (f : A -> bool) (l : list A) :
  Forall P l -> Forall P (filter f l).
Proof.
  rewrite !Forall_forall. intros H x Hx. apply filter_In in Hx. apply H. tauto.
Qed.

Lemma Forall_in_firstn {A : Type} (P : A -> Prop) (n : nat) (l : list A) :
  Forall P l -> Forall P (firstn n l).
Proof.
  intros H. revert n. induction H as [| x l Hx _ IH]; intros [| n]; simpl;
    constructor; auto.
Qed.

(** X13: the selection is stable: selecting again from a selection gives
    the same selection, and the zero-value entries of a listing have no
    part in it. *)
Theorem selection_is_stable (txs cs : list EtherscanTx) :
  trimmedTxs txs = Ok cs ->
  trimmedTxs cs = Ok cs /\
  trimmedTxs (filter positive txs) = Ok cs.
Proof.
  intros H. destruct (trimmedTxs_returns txs cs H) as [Hnum ->].
  split.
  - rewrite trimmedTxs_numeric
      by (apply Forall_in_firstn, Forall_in_filter; exact Hnum).
    rewrite (filter_keeps_all positive)
      by (apply Forall_in_firstn, Forall_of_filter).
    rewrite firstn_firstn. reflexivity.
  - rewrite trimmedTxs_numeric by (apply Forall_in_filter; exact Hnum).
    rewrite (filter_keeps_all positive (filter positive txs))
      by apply Forall_of_filter.
    reflexivity.
Qed.

(** X14: once a listing holds ten positive-value entries, the entries
    listed after them do not change the selection, as long as their
    values are the texts of numbers. *)
Theorem selection_ignores_what_follows_the_tenth (txs more : list EtherscanTx) :
  Forall (fun tx => number_text (tx_value tx) = true) (txs ++ more) ->
  (10 <= length (filter positive txs))%nat ->
  trimmedTxs (txs ++ more) = trimmedTxs txs.
Proof.
  intros Hnum Hten. apply Forall_numeric_number_text in Hnum.
  rewrite (trimmedTxs_numeric (txs ++ more) Hnum).
  apply Forall_app in Hnum. destruct Hnum as [Hnum _].
  rewrite (trimmedTxs_numeric txs Hnum).
  rewrite filter_app, firstn_app.
  replace (10 - length (filter positive txs))%nat with 0%nat by lia.
  simpl. rewrite app_nil_r. reflexivity.
Qed.

(** X15: the selection throws exactly when some listed value is not the
    text of a number, wherever it is listed, and then with the fault of
    the first such value in the order of the listing: the error of
    [BigNumber.from], or the one of bn.js on a text with an upper-case
    [0X]. *)
Theorem selection_throws_at_first_unreadable_value
    (txs : list EtherscanTx) (e : Fault) :
  (trimmedTxs txs = Fail e <-> first_unreadable txs e) /\
  (first_unreadable txs e -> value_fault e) /\
  ((exists e', trimmedTxs txs = Fail e') <->
   Exists (fun tx => number_text (tx_value tx) = false) txs).
Proof.
  split; [apply trimmedTxs_fault |].
  split; [intros H; exact (proj1 (first_unreadable_fault txs e H)) |].
  split.
  - intros [e' H]. apply trimmedTxs_fault in H.
    apply first_unreadable_fault in H. destruct H as [_ H].
    eapply Exists_impl; [| exact H].
    intros tx Hnot. destruct (number_text (tx_value tx)) eqn:Hn; [| reflexivity].
    elim Hnot. apply numeric_number_text. exact Hn.
  - intros H.
    assert (Hex : Exists (fun tx => ~ numeric tx) txs).
    { eapply Exists_impl; [| exact H].
      intros tx Hn Hnum. apply numeric_number_text in Hnum. congruence. }
    destruct (first_unreadable_exists txs Hex) as [e' He'].
    exists e'. apply trimmedTxs_fault. exact He'.
Qed.

Section Helpers.

Variable ctx : Context.
Variable uniqueId : NativeMethod -> JsVal -> string.
Variable W : Type.
Variable respond : forall c : Call, W -> Outcome (Resp c) * W.

(** X16: the block-number helper of either worker never throws: it sends
    one request and returns the [result] of the answer; when the request
    is rejected or the answer cannot be read, it logs the error and
    returns [undefined]. *)
Theorem block_number_helper_never_throws (timestamp : Z) (w : W) :
  let '(r, w1) := respond (AxiosGet (block_url ctx timestamp)) w in
  run respond (V1.getEtherScanBlocknumber ctx timestamp) w
  = (Ok match block_number_of r with
        | Ok blockNumber => blockNumber
        | Fail _ => JUndefined
        end,
     w1,
     EvCall (AxiosGet (block_url ctx timestamp)) r
       :: match block_number_of r with
          | Ok _ => []
          | Fail e => [EvLog (block_error_line timestamp e)]
          end) /\
  run respond (V2.getEtherScanBlocknumber ctx timestamp) w
  = run respond (V1.getEtherScanBlocknumber ctx timestamp) w.
Proof.
  unfold V1.getEtherScanBlocknumber, V2.getEtherScanBlocknumber, block_url.
  cbn.
  match goal with
  | |- context [respond ?c ?w0] => destruct (respond c w0) as [r w1]
  end.
  destruct r as [res | e]; cbn; [| split; reflexivity].
  destruct (js_get res "result") as [v | e]; cbn; split; reflexivity.
Qed.

(** X17: the listing helper of the original worker sends one request and
    throws what the request or the schema throws; the helper of the
    refactored worker sends the same request and never throws: it logs
    that error and returns nothing. *)
Theorem listing_helper_catches_in_refactored_worker
    (address : string) (blockNumber : JsVal) (orderId : string) (w : W) :
  let '(r, w1) := respond (AxiosGet (txlist_url ctx address blockNumber)) w in
  run respond (V1.getEtherScanTxListForAddress ctx address blockNumber) w
  = (listing_of r, w1, [EvCall (AxiosGet (txlist_url ctx address blockNumber)) r]) /\
  run respond
    (V2.getEtherScanTxListForAddressInDesc ctx address blockNumber orderId) w
  = (Ok match listing_of r with
        | Ok txs => Some txs
        | Fail _ => None
        end,
     w1,
     EvCall (AxiosGet (txlist_url ctx address blockNumber)) r
       :: match listing_of r with
          | Ok _ => []
          | Fail e => [EvLog (fetch_error_line orderId e)]
          end).
Proof.
  unfold V1.getEtherScanTxListForAddress, V2.getEtherScanTxListForAddressInDesc,
    txlist_url.
  cbn.
  match goal with
  | |- context [respond ?c ?w0] => destruct (respond c w0) as [r w1]
  end.
  destruct r as [res | e]; cbn; [| split; reflexivity].
  destruct (accountTxListResultSchema_parse res) as [txs | e]; cbn;
    split; reflexivity.
Qed.

(** X18: a listed transaction that the node does not know is skipped by
    the mapper of either worker: it is logged as not found, it is not
    scanned, and the mapper call ends normally. *)
Theorem unknown_transaction_is_skipped
    (c : EtherscanTx) (w : W) (v : JsVal) (w1 : W) :
  respond (GetTransaction (tx_hash c)) w = (Ok v, w1) ->
  truthy v = false ->
  run respond (V1.mapper ctx uniqueId c) w
  = (Ok tt, w1,
     [EvCall (GetTransaction (tx_hash c)) (Ok v);
      EvLog (not_found_line (tx_hash c))]) /\
  run respond (V2.mapper ctx uniqueId c) w
  = run respond (V1.mapper ctx uniqueId c) w.
Proof.
  intros Hnode Hfalsy.
  rewrite (mapper_run_same ctx uniqueId W respond c w).
  split; [| reflexivity].
  rewrite (V2_mapper_run ctx uniqueId W respond c w), Hnode.
  cbn. rewrite Hfalsy. reflexivity.
Qed.

End Helpers.

Lemma selection_is_stable_witness :
  trimmedTxs (firstn 10 (filter positive Scenario.interleaved))
    = Ok (firstn 10 (filter positive Scenario.interleaved)) /\
  trimmedTxs (filter positive Scenario.interleaved)
    = Ok (firstn 10 (filter positive Scenario.interleaved)).
Proof.
  apply (selection_is_stable Scenario.interleaved).
  vm_compute. reflexivity.
Defined.

Lemma selection_ignores_what_follows_the_tenth_witness :
  trimmedTxs (Scenario.interleaved ++ [Scenario.listed_tx "0x10" "3"])
  = trimmedTxs Scenario.interleaved.
Proof.
  apply (selection_ignores_what_follows_the_tenth Scenario.interleaved
           [Scenario.listed_tx "0x10" "3"]).
  - repeat constructor.
  - vm_compute. lia.
Defined.

Lemma unknown_transaction_is_skipped_witness :
  run (Outage.respond Outage.block Outage.timeout)
    (V1.mapper Scenario.ctx Scenario.uniqueId (Scenario.listed_tx "0x01" "5")) tt
  = (Ok tt, tt,
     [EvCall (GetTransaction (tx_hash (Scenario.listed_tx "0x01" "5"))) (Ok JNull);
      EvLog (not_found_line (tx_hash (Scenario.listed_tx "0x01" "5")))]) /\
  run (Outage.respond Outage.block Outage.timeout)
    (V2.mapper Scenario.ctx Scenario.uniqueId (Scenario.listed_tx "0x01" "5")) tt
  = run (Outage.respond Outage.block Outage.timeout)
      (V1.mapper Scenario.ctx Scenario.uniqueId (Scenario.listed_tx "0x01" "5")) tt.
Proof.
  apply (unknown_transaction_is_skipped Scenario.ctx Scenario.uniqueId unit
           (Outage.respond Outage.block Outage.timeout)
           (Scenario.listed_tx "0x01" "5") tt JNull tt).
  - reflexivity.
  - reflexivity.
Defined.

(* ===================================================================== *)
(** * pMap under any schedule: the calls do not abort one another *)
(* ===================================================================== *)

Lemma length_set_nth {A : Type} (i : nat) (x : A) (l : list A) :
  length (set_nth i x l) = length l.
Proof.
  revert i; induction l as [| y l IH]; intros [| i]; simpl; auto.
Qed.

Lemma nth_error_set_nth_eq {A : Type} (i : nat) (x y : A) (l : list A) :
  nth_error l i = Some y -> nth_error (set_nth i x l) i = Some x.
Proof.
  revert i; induction l as [| z l IH]; intros [| i]; simpl; try discriminate; auto.
Qed.

Lemma nth_error_set_nth_neq {A : Type} (i j : nat) (x : A) (l : list A) :
  i <> j -> nth_error (set_nth i x l) j = nth_error l j.
Proof.
  revert i j; induction l as [| z l IH]; intros [| i] [| j] H; simpl; auto.
  - now elim H.
Qed.

Lemma In_set_nth {A : Type} (i : nat) (x y : A) (l : list A) :
  In y (set_nth i x l) -> y = x \/ In y l.
Proof.
  revert i; induction l as [| z l IH]; intros [| i]; simpl; auto.
  - intros [<- | H]; auto.
  - intros [<- | H]; auto. destruct (IH i H); auto.
Qed.

Lemma In_set_nth_new {A : Type} (i : nat) (x y : A) (l : list A) :
  nth_error l i = Some y -> In x (set_nth i x l).
Proof.
  intros H. eapply nth_error_In. eapply nth_error_set_nth_eq. exact H.
Qed.

Lemma In_set_nth_old {A : Type} (i : nat) (x y z : A) (l : list A) :
  In z l -> nth_error l i = Some y -> z <> y -> In z (set_nth i x l).
Proof.
  intros Hin Hi Hne.
  apply In_nth_error in Hin. destruct Hin as [j Hj].
  apply (nth_error_In _ j). rewrite nth_error_set_nth_neq; [exact Hj |].
  intros ->. congruence.
Qed.

Lemma set_nth_same {A : Type} (i : nat) (x : A) (l : list A) :
  nth_error l i = Some x -> set_nth i x l = l.
Proof.
  revert i; induction l as [| z l IH]; intros [| i]; simpl; try discriminate; auto.
  - now intros [= ->].
  - intros H. now rewrite IH.
Qed.

Lemma set_nth_twice {A : Type} (i : nat) (x y : A) (l : list A) :
  set_nth i x (set_nth i y l) = set_nth i x l.
Proof.
  revert i; induction l as [| z l IH]; intros [| i]; simpl; auto.
  now rewrite IH.
Qed.

Lemma set_nth_middle {A : Type} (x y : A) (l1 l2 : list A) :
  set_nth (length l1) x (l1 ++ y :: l2) = ((l1 ++ [x]) ++ l2)%list.
Proof.
  induction l1 as [| z l1 IH]; simpl; [reflexivity |]. now rewrite IH.
Qed.

Lemma nth_error_middle {A : Type} (y : A) (l1 l2 : list A) :
  nth_error (l1 ++ y :: l2) (length l1) = Some y.
Proof.
  induction l1 as [| z l1 IH]; simpl; auto.
Qed.

Lemma Forall2_set_nth {A B : Type} (P : A -> B -> Prop)
    (i : nat) (a : A) (x : B) (l1 : list A) (l2 : list B) :
  Forall2 P l1 l2 -> nth_error l1 i = Some a -> P a x ->
  Forall2 P l1 (set_nth i x l2).
Proof.
  intros H. revert i. induction H as [| a0 b0 l1 l2 H0 H IH]; intros [| i]; simpl;
    try discriminate.
  - intros [= ->] Hx. constructor; assumption.
  - intros Hi Hx. constructor; auto.
Qed.

Lemma Forall2_nth_r {A B : Type} (P : A -> B -> Prop)
    (i : nat) (b : B) (l1 : list A) (l2 : list B) :
  Forall2 P l1 l2 -> nth_error l2 i = Some b ->
  exists a, nth_error l1 i = Some a /\ P a b.
Proof.
  intros H. revert i. induction H as [| a0 b0 l1 l2 H0 H IH]; intros [| i]; simpl;
    try discriminate.
  - intros [= ->]. eauto.
  - apply IH.
Qed.

Lemma Forall2_In_l {A B : Type} (P : A -> B -> Prop)
    (a : A) (l1 : list A) (l2 : list B) :
  Forall2 P l1 l2 -> In a l1 -> exists b, In b l2 /\ P a b.
Proof.
  induction 1 as [| a0 b0 l1 l2 H0 H IH]; simpl; [contradiction |].
  intros [<- | Hin]; [eauto |].
  destruct (IH Hin) as (b & Hb & Hab). eauto.
Qed.

Lemma Forall_set_nth {A : Type} (P : A -> Prop) (i : nat) (x : A) (l : list A) :
  Forall P l -> P x -> Forall P (set_nth i x l).
Proof.
  intros H Hx. apply Forall_forall. intros y Hy.
  apply In_set_nth in Hy. destruct Hy as [-> | Hy]; [exact Hx |].
  rewrite Forall_forall in H. auto.
Qed.

Lemma advance_ready {R : Type} (p : Prog R) : ready (fst (advance p)) = true.
Proof.
  induction p as [r | e | l k IH | c k IH]; simpl; auto.
  destruct (advance k); exact IH.
Qed.

Lemma advance_of_ready {R : Type} (p : Prog R) :
  ready p = true -> advance p = (p, []).
Proof.
  destruct p; simpl; congruence.
Qed.

Lemma leads_advance {R : Type} (p : Prog R) :
  leads p (snd (advance p)) (fst (advance p)).
Proof.
  induction p as [r | e | l k IH | c k IH]; simpl; try constructor.
  destruct (advance k); simpl in *. constructor. exact IH.
Qed.

Lemma leads_trans {R : Type} (p q q' : Prog R) (t1 t2 : list Event) :
  leads p t1 q -> leads q t2 q' -> leads p (t1 ++ t2) q'.
Proof.
  induction 1; simpl; auto; constructor; auto.
Qed.

Lemma advance_bind_ret {A : Type} (p : Prog A) :
  advance (bind p (fun _ => Ret tt))
  = (bind (fst (advance p)) (fun _ => Ret tt), snd (advance p)).
Proof.
  induction p as [r | e | l k IH | c k IH]; simpl; auto.
  rewrite IH. destruct (advance k); reflexivity.
Qed.

Lemma settle_faults (outs : list (Outcome unit)) :
  settle outs = match faults outs with
                | e :: _ => Fail e
                | [] => Ok JUndefined
                end.
Proof.
  induction outs as [| [u | e] outs IH]; simpl; auto.
Qed.

Section PoolFacts.

Variable W : Type.
Variable respond : forall c : Call, W -> Outcome (Resp c) * W.

Lemma run_advance {R : Type} (p : Prog R) (w : W) :
  run respond p w
  = (fst (fst (run respond (fst (advance p)) w)),
     snd (fst (run respond (fst (advance p)) w)),
     (snd (advance p) ++ snd (run respond (fst (advance p)) w))%list).
Proof.
  induction p as [r | e | l k IH | c k IH]; simpl.
  - reflexivity.
  - reflexivity.
  - rewrite IH. destruct (advance k) as [q t]. simpl.
    destruct (run respond q w) as [[o w'] t']. reflexivity.
  - destruct (respond c w) as [r w1].
    destruct (run respond (k r) w1) as [[o w2] t]. reflexivity.
Qed.

Lemma resume_all_app (s1 s2 : list nat) (st : Pool W) :
  resume_all respond (s1 ++ s2) st = resume_all respond s2 (resume_all respond s1 st).
Proof.
  unfold resume_all. apply fold_left_app.
Qed.

Lemma pMap_run_app (s1 s2 : list nat) (ps : list (Prog unit)) (w : W) :
  pMap_run respond (s1 ++ s2) ps w = resume_all respond s2 (pMap_run respond s1 ps w).
Proof.
  unfold pMap_run. apply resume_all_app.
Qed.

(** What holds when [pMap] starts and is kept by every resumption holds
    under every schedule. *)
Lemma pMap_run_ind (P : Pool W -> Prop) (ps : list (Prog unit)) (w : W) :
  P (start_pool ps w) ->
  (forall st i, P st -> P (resume respond i st)) ->
  forall sched, P (pMap_run respond sched ps w).
Proof.
  intros Hstart Hstep sched. unfold pMap_run, resume_all.
  generalize (start_pool ps w) Hstart.
  induction sched as [| i sched IH]; intros st Hst; simpl; auto.
Qed.

Lemma pool_ready (ps : list (Prog unit)) (w : W) (sched : list nat) :
  Forall (fun f => ready (rest f) = true) (flights (pMap_run respond sched ps w)).
Proof.
  apply pMap_run_ind.
  - simpl. apply Forall_forall. intros f Hf.
    apply in_map_iff in Hf. destruct Hf as (p & <- & _).
    unfold take_off. pose proof (advance_ready p) as H.
    destruct (advance p); exact H.
  - intros st i Hst. unfold resume.
    destruct (nth_error (flights st) i) as [f |]; [| exact Hst].
    destruct (rest f) as [| | | c k]; try exact Hst.
    destruct (respond c (pool_world st)) as [r w'].
    pose proof (advance_ready (k r)) as H.
    destruct (advance (k r)) as [q t]. simpl.
    apply Forall_set_nth; [exact Hst | exact H].
Qed.

Lemma pool_did_in_trace (ps : list (Prog unit)) (w : W) (sched : list nat) :
  forall f, In f (flights (pMap_run respond sched ps w)) ->
            incl (did f) (pool_trace (pMap_run respond sched ps w)).
Proof.
  apply pMap_run_ind with (P := fun st =>
    forall f, In f (flights st) -> incl (did f) (pool_trace st)).
  - simpl. intros f Hf ev Hev. apply in_flat_map. eauto.
  - intros st i Hst. unfold resume.
    destruct (nth_error (flights st) i) as [f |] eqn:Hi; [| exact Hst].
    destruct (rest f) as [| | | c k]; try exact Hst.
    destruct (respond c (pool_world st)) as [r w'].
    destruct (advance (k r)) as [q t]. simpl.
    intros f' Hf'. apply In_set_nth in Hf'. destruct Hf' as [-> | Hf']; simpl.
    + apply incl_app; [| apply incl_appr, incl_refl].
      apply incl_appl. apply Hst. eapply nth_error_In. exact Hi.
    + apply incl_appl. apply Hst. exact Hf'.
Qed.

Lemma pool_rejections (ps : list (Prog unit)) (w : W) (sched : list nat) :
  forall e, In e (rejections (pMap_run respond sched ps w)) <->
            exists f, In f (flights (pMap_run respond sched ps w)) /\ rest f = Throw e.
Proof.
  apply pMap_run_ind with (P := fun st =>
    forall e, In e (rejections st) <-> exists f, In f (flights st) /\ rest f = Throw e).
  - simpl. intros e. rewrite in_flat_map. split.
    + intros (f & Hf & He). exists f. split; [exact Hf |].
      destruct (rest f); simpl in He; try contradiction.
      destruct He as [-> | []]. reflexivity.
    + intros (f & Hf & He). exists f. split; [exact Hf |].
      rewrite He. left. reflexivity.
  - intros st i Hst. unfold resume.
    destruct (nth_error (flights st) i) as [f |] eqn:Hi; [| exact Hst].
    destruct (rest f) as [| | | c k] eqn:Hrest; try exact Hst.
    destruct (respond c (pool_world st)) as [r w'].
    destruct (advance (k r)) as [q t]. simpl.
    intros e. rewrite in_app_iff, Hst. split.
    + intros [(f' & Hf' & He) | He].
      * exists f'. split; [| exact He].
        apply (In_set_nth_old i _ f); [exact Hf' | exact Hi |].
        intros ->. congruence.
      * eexists. split; [eapply In_set_nth_new; exact Hi |]. simpl.
        destruct q; simpl in He; try contradiction.
        destruct He as [-> | []]. reflexivity.
    + intros (f' & Hf' & He). apply In_set_nth in Hf'.
      destruct Hf' as [-> | Hf'].
      * right. simpl in He. rewrite He. left. reflexivity.
      * left. eauto.
Qed.

Lemma resume_all_rejections (more : list nat) (st : Pool W) :
  exists later, rejections (resume_all respond more st) = (rejections st ++ later)%list.
Proof.
  revert st. induction more as [| i more IH]; intros st; simpl.
  - exists []. now rewrite app_nil_r.
  - destruct (IH (resume respond i st)) as [later Hlater].
    fold (resume_all respond more (resume respond i st)). rewrite Hlater.
    unfold resume.
    destruct (nth_error (flights st) i) as [f |]; [| eauto].
    destruct (rest f) as [| | | c k]; eauto.
    destruct (respond c (pool_world st)) as [r w'].
    destruct (advance (k r)) as [q t]. simpl.
    rewrite <- app_assoc. eauto.
Qed.

(** The call on item [i], resumed until it ends, does what it does when
    run on its own from the world as it is. *)
Lemma finish_flight (p : Prog unit) :
  forall (st : Pool W) (i : nat) (f : Flight),
    nth_error (flights st) i = Some f ->
    rest f = fst (advance p) ->
    exists n,
      resume_all respond (repeat i n) st
      = {| flights :=
             set_nth i
               {| rest := lift (fst (fst (run respond (rest f) (pool_world st))));
                  did := (did f ++ snd (run respond (rest f) (pool_world st)))%list |}
               (flights st);
           pool_world := snd (fst (run respond (rest f) (pool_world st)));
           pool_trace :=
             (pool_trace st ++ snd (run respond (rest f) (pool_world st)))%list;
           rejections :=
             (rejections st
                ++ (if settled (rest f) then []
                    else faults [fst (fst (run respond (rest f) (pool_world st)))]))%list |}.
Proof.
  induction p as [u | e | l k IH | c k IH]; intros st i f Hi Hrest.
  - exists 0%nat. simpl in Hrest. rewrite Hrest. simpl. rewrite !app_nil_r.
    destruct f as [rf df]. simpl in Hrest. subst rf. simpl.
    rewrite (set_nth_same i _ _ Hi). destruct st; reflexivity.
  - exists 0%nat. simpl in Hrest. rewrite Hrest. simpl. rewrite !app_nil_r.
    destruct f as [rf df]. simpl in Hrest. subst rf. simpl.
    rewrite (set_nth_same i _ _ Hi). destruct st; reflexivity.
  - apply IH; [exact Hi |]. rewrite Hrest. simpl. destruct (advance k); reflexivity.
  - simpl in Hrest. rewrite Hrest. simpl.
    destruct (respond c (pool_world st)) as [r w1] eqn:Hr.
    rewrite (run_advance (k r) w1).
    destruct (advance (k r)) as [q t] eqn:Hadv. simpl.
    destruct (IH r
                {| flights :=
                     set_nth i {| rest := q; did := (did f ++ EvCall c r :: t)%list |}
                       (flights st);
                   pool_world := w1;
                   pool_trace := (pool_trace st ++ EvCall c r :: t)%list;
                   rejections := (rejections st ++ thrown q)%list |}
                i {| rest := q; did := (did f ++ EvCall c r :: t)%list |})
      as [n Hn].
    { simpl. eapply nth_error_set_nth_eq. exact Hi. }
    { simpl. rewrite Hadv. reflexivity. }
    exists (S n). simpl.
    assert (Hstep : resume respond i st
                    = {| flights :=
                           set_nth i
                             {| rest := q; did := (did f ++ EvCall c r :: t)%list |}
                             (flights st);
                         pool_world := w1;
                         pool_trace := (pool_trace st ++ EvCall c r :: t)%list;
                         rejections := (rejections st ++ thrown q)%list |}).
    { unfold resume. rewrite Hi, Hrest, Hr, Hadv. reflexivity. }
    fold (resume_all respond (repeat i n) (resume respond i st)).
    rewrite Hstep, Hn. simpl.
    destruct (run respond q w1) as [[o w2] t'] eqn:Hrun. simpl.
    rewrite set_nth_twice, <- !app_assoc. simpl.
    f_equal.
    destruct q as [u | e | l q' | c' k']; simpl in *.
    + injection Hrun as <- _ _. destruct u. reflexivity.
    + injection Hrun as <- _ _. reflexivity.
    + reflexivity.
    + reflexivity.
Qed.

(** The calls in flight can always be resumed until each has ended. *)
Lemma finish_from (todo : list Flight) :
  forall (done : list Flight) (st : Pool W),
    flights st = (done ++ todo)%list ->
    Forall (fun f => ready (rest f) = true) todo ->
    Forall (fun f => settled (rest f) = true) done ->
    exists more, all_settled (resume_all respond more st) = true.
Proof.
  induction todo as [| f todo IH]; intros done st Hfl Hready Hdone.
  - exists []. simpl. unfold all_settled. rewrite Hfl, app_nil_r.
    apply forallb_forall. rewrite Forall_forall in Hdone. exact Hdone.
  - inversion Hready as [| ? ? Hf Htodo]; subst.
    destruct (finish_flight (rest f) st (length done) f) as [n Hn].
    { rewrite Hfl. apply nth_error_middle. }
    { rewrite (advance_of_ready _ Hf). reflexivity. }
    destruct (IH (done ++ [{| rest := lift (fst (fst (run respond (rest f) (pool_world st))));
                              did := (did f ++ snd (run respond (rest f) (pool_world st)))%list |}])%list
                 (resume_all respond (repeat (length done) n) st))
      as [more Hmore].
    { rewrite Hn. simpl. rewrite Hfl. apply set_nth_middle. }
    { exact Htodo. }
    { apply Forall_app. split; [exact Hdone |].
      constructor; [| constructor]. simpl.
      destruct (fst (fst (run respond (rest f) (pool_world st)))); reflexivity. }
    exists (repeat (length done) n ++ more)%list.
    rewrite resume_all_app. exact Hmore.
Qed.

Lemma pool_can_finish (ps : list (Prog unit)) (w : W) (sched : list nat) :
  exists more, all_settled (pMap_run respond (sched ++ more) ps w) = true.
Proof.
  destruct (finish_from (flights (pMap_run respond sched ps w)) []
              (pMap_run respond sched ps w) eq_refl (pool_ready ps w sched)
              (Forall_nil _))
    as [more Hmore].
  exists more. rewrite pMap_run_app. exact Hmore.
Qed.

(** [run_all] is [pMap] under the schedule that resumes the call on the
    first item until it ends, then the call on the second, and so on. *)
Lemma run_all_schedule (ps : list (Prog unit)) :
  Forall (fun p => awaits p = true) ps ->
  forall (done : list Flight) (st : Pool W),
    flights st = (done ++ map take_off ps)%list ->
    Forall (fun f => settled (rest f) = true) done ->
    exists sched,
      all_settled (resume_all respond sched st) = true /\
      pool_world (resume_all respond sched st)
        = snd (fst (run_all respond ps (pool_world st))) /\
      pool_trace (resume_all respond sched st)
        = (pool_trace st ++ snd (run_all respond ps (pool_world st)))%list /\
      rejections (resume_all respond sched st)
        = (rejections st ++ faults (fst (fst (run_all respond ps (pool_world st)))))%list.
Proof.
  induction 1 as [| p ps Hp Hps IH]; intros done st Hfl Hdone.
  - exists []. simpl. rewrite !app_nil_r.
    split; [| auto].
    unfold all_settled. rewrite Hfl. simpl. rewrite app_nil_r.
    apply forallb_forall. rewrite Forall_forall in Hdone. exact Hdone.
  - assert (Hoff : take_off p = {| rest := p; did := [] |}).
    { unfold take_off. rewrite advance_of_ready; [reflexivity |].
      destruct p; simpl in *; congruence. }
    simpl in Hfl. rewrite Hoff in Hfl.
    destruct (finish_flight p st (length done) {| rest := p; did := [] |}) as [n Hn].
    { rewrite Hfl. apply nth_error_middle. }
    { simpl. rewrite advance_of_ready; [reflexivity |].
      destruct p; simpl in *; congruence. }
    simpl in Hn.
    assert (Hnot : settled p = false) by (destruct p; simpl in *; congruence).
    rewrite Hnot in Hn.
    destruct (run respond p (pool_world st)) as [[o w1] t1] eqn:Hrun.
    simpl in Hn.
    destruct (IH (done ++ [{| rest := lift o; did := t1 |}])%list
                 (resume_all respond (repeat (length done) n) st))
      as (sched & Hall & Hw & Ht & Hr).
    { rewrite Hn. simpl. rewrite Hfl. apply set_nth_middle. }
    { apply Forall_app. split; [exact Hdone |].
      constructor; [| constructor]. destruct o; reflexivity. }
    exists (repeat (length done) n ++ sched)%list.
    rewrite resume_all_app, Hn.
    rewrite Hn in Hall, Hw, Ht, Hr. cbn [pool_world pool_trace rejections] in Hw, Ht, Hr.
    cbn [run_all]. rewrite Hrun.
    destruct (run_all respond ps w1) as [[os w2] t2]. cbn [fst snd] in *.
    split; [exact Hall |].
    split; [exact Hw |].
    split; [rewrite Ht, <- app_assoc; reflexivity |].
    rewrite Hr, <- !app_assoc. reflexivity.
Qed.

Lemma start_pool_awaits (ps : list (Prog unit)) (w : W) :
  Forall (fun p => awaits p = true) ps ->
  pool_trace (start_pool ps w) = [] /\ rejections (start_pool ps w) = [].
Proof.
  simpl. induction 1 as [| p ps Hp Hps [IH1 IH2]]; simpl; [auto |].
  rewrite IH1, IH2.
  destruct p; simpl in *; try discriminate. auto.
Qed.

Lemma run_all_is_a_schedule (ps : list (Prog unit)) (w : W) :
  Forall (fun p => awaits p = true) ps ->
  exists sched,
    pMap_promise (pMap_run respond sched ps w)
      = Some (settle (fst (fst (run_all respond ps w)))) /\
    pool_world (pMap_run respond sched ps w) = snd (fst (run_all respond ps w)) /\
    pool_trace (pMap_run respond sched ps w) = snd (run_all respond ps w).
Proof.
  intros Hps.
  destruct (run_all_schedule ps Hps [] (start_pool ps w) eq_refl (Forall_nil _))
    as (sched & Hall & Hw & Ht & Hr).
  destruct (start_pool_awaits ps w Hps) as [Ht0 Hr0].
  exists sched. fold (pMap_run respond sched ps w) in Hall, Hw, Ht, Hr.
  rewrite Ht0 in Ht. rewrite Hr0 in Hr. simpl in Hw, Ht, Hr.
  split; [| split; assumption].
  unfold pMap_promise. rewrite Hr, Hall, settle_faults.
  destruct (faults (fst (fst (run_all respond ps w)))); reflexivity.
Qed.

End PoolFacts.

(* ===================================================================== *)
(** * The task: faults while scanning one candidate *)
(* ===================================================================== *)

Section Siblings.

Variable ctx : Context.
Variable uniqueId : NativeMethod -> JsVal -> string.
Variable W : Type.
Variable respond : forall c : Call, W -> Outcome (Resp c) * W.

Section AnyMapper.

Variable mapper : EtherscanTx -> Prog unit.
Variable scan : JsVal -> Prog bool.

(** What both mappers are: the node lookup, then the scan of a
    transaction that the node knows. *)
Hypothesis mapper_shape :
  forall c, mapper c =
    Await (GetTransaction (tx_hash c))
      (fun r =>
         ethersTx <- lift r ;;
         if negb (truthy ethersTx) then
           logger_error None "Transaction %s not found" [JStr (tx_hash c)]
         else
           logger_info "Scanning tx %s" [JStr (tx_hash c)] ;;
           _ <- scan ethersTx ;;
           Ret tt).

Lemma pool_flights (cs : list EtherscanTx) (w : W) (sched : list nat) :
  Forall2 (flight_of mapper scan) cs
    (flights (pMap_run respond sched (map mapper cs) w)).
Proof.
  apply pMap_run_ind.
  - simpl. induction cs as [| c cs IH]; simpl; constructor; [| exact IH].
    unfold take_off. rewrite advance_of_ready; [apply flight_waits |].
    rewrite mapper_shape. reflexivity.
  - intros st i Hst. unfold resume.
    destruct (nth_error (flights st) i) as [f |] eqn:Hi; [| exact Hst].
    destruct (Forall2_nth_r _ i f _ _ Hst Hi) as (c & Hc & Hf).
    destruct Hf as [| e | tx Htx | tx evs q Htx Hleads]; cbn [rest did].
    + rewrite (mapper_shape c).
      destruct (respond (GetTransaction (tx_hash c)) (pool_world st)) as [r w'].
      destruct r as [tx | e]; cbn [lift bind].
      * destruct (truthy tx) eqn:Htx; cbn [negb].
        -- unfold logger_info. cbn [bind advance].
           rewrite advance_bind_ret.
           apply (Forall2_set_nth _ i c); [exact Hst | exact Hc |].
           apply (flight_scans mapper scan c tx); [exact Htx | apply leads_advance].
        -- apply (Forall2_set_nth _ i c); [exact Hst | exact Hc |].
           apply (flight_skipped mapper scan c tx). exact Htx.
      * apply (Forall2_set_nth _ i c); [exact Hst | exact Hc |].
        apply flight_node_failed.
    + exact Hst.
    + exact Hst.
    + destruct q as [b | e | l q' | c0 k0]; cbn [bind]; try exact Hst.
      destruct (respond c0 (pool_world st)) as [r w'].
      rewrite advance_bind_ret.
      apply (Forall2_set_nth _ i c); [exact Hst | exact Hc |].
      apply (flight_scans mapper scan c tx
               (evs ++ EvCall c0 r :: snd (advance (k0 r)))
               (fst (advance (k0 r)))); [exact Htx |].
      eapply leads_trans; [exact Hleads |].
      constructor. apply leads_advance.
Qed.

Lemma calls_go_on_any (cs : list EtherscanTx) (w : W) (sched : list nat) :
  calls_go_on W respond mapper scan cs w sched.
Proof.
  unfold calls_go_on. cbv zeta.
  split; [apply pool_flights |].
  split; [apply pool_did_in_trace |].
  split; [apply pool_rejections |].
  split; [intros more; rewrite pMap_run_app; apply resume_all_rejections |].
  split.
  { intros e more. unfold pMap_promise. rewrite pMap_run_app.
    destruct (resume_all_rejections W respond more
                (pMap_run respond sched (map mapper cs) w)) as [later ->].
    destruct (rejections (pMap_run respond sched (map mapper cs) w)) as [| e0 rej].
    - destruct (all_settled _); discriminate.
    - intros [= ->]. reflexivity. }
  split; [apply pool_can_finish |].
  intros Hall c Hin.
  destruct (Forall2_In_l _ _ _ _ (pool_flights cs w sched) Hin) as (f & Hf & Hshape).
  pose proof (pool_did_in_trace W respond (map mapper cs) w sched f Hf) as Hincl.
  unfold all_settled in Hall. rewrite forallb_forall in Hall.
  specialize (Hall f Hf).
  destruct Hshape as [| e | tx Htx | tx evs q Htx Hleads]; cbn [rest did] in *.
  - rewrite mapper_shape in Hall. discriminate Hall.
  - eexists. apply Hincl. left. reflexivity.
  - eexists. apply Hincl. left. reflexivity.
  - eexists. apply Hincl. left. reflexivity.
Qed.

End AnyMapper.

Lemma task_under_schedule
    (handler : string -> Prog TaskEnd) (mapper : EtherscanTx -> Prog unit)
    (orderId : string) (w w3 : W) (cs : list EtherscanTx) (tr : list Event)
    (sched : list nat) :
  run respond (handler orderId) w = (Ok (AwaitsPMap (map mapper cs)), w3, tr) ->
  run_task_under respond sched (handler orderId) w
  = (pMap_promise (pMap_run respond sched (map mapper cs) w3),
     pool_world (pMap_run respond sched (map mapper cs) w3),
     (tr ++ pool_trace (pMap_run respond sched (map mapper cs) w3))%list).
Proof.
  intros H. unfold run_task_under. rewrite H. reflexivity.
Qed.

(** The runs that answer the mapper calls one after the other, as
    [run_task] does, are the runs of the task under one of the
    schedules. *)
Lemma run_task_is_a_schedule
    (handler : string -> Prog TaskEnd) (mapper : EtherscanTx -> Prog unit)
    (orderId : string) (w : W) :
  task_prefix ctx W respond mapper orderId w (run respond (handler orderId) w) ->
  (forall c, awaits (mapper c) = true) ->
  exists sched,
    run_task_under respond sched (handler orderId) w
    = (Some (fst (fst (run_task respond (handler orderId) w))),
       snd (fst (run_task respond (handler orderId) w)),
       snd (run_task respond (handler orderId) w)).
Proof.
  intros Hrel Hawaits. unfold run_task_under, run_task.
  destruct (run respond (handler orderId) w) as [[o w1] tr].
  inversion Hrel; subst; try (exists []; reflexivity).
  match goal with
  | |- context [run_all respond (map mapper ?cs) ?w0] =>
      destruct (run_all_is_a_schedule W respond (map mapper cs) w0)
        as (sched & Hp & Hw & Ht)
  end.
  { apply Forall_forall. intros p Hp. apply in_map_iff in Hp.
    destruct Hp as (c & <- & _). apply Hawaits. }
  exists sched. rewrite Hp, Hw, Ht.
  match goal with
  | |- context [run_all respond ?ps ?w0] =>
      destruct (run_all respond ps w0) as [[outs w4] tr2]
  end.
  reflexivity.
Qed.

Lemma workers_run_under_a_schedule (orderId : string) (w : W) :
  (exists sched,
      run_task_under respond sched (V1.runScanByOrderId ctx uniqueId orderId) w
      = (Some (fst (fst (run_task respond (V1.runScanByOrderId ctx uniqueId orderId) w))),
         snd (fst (run_task respond (V1.runScanByOrderId ctx uniqueId orderId) w)),
         snd (run_task respond (V1.runScanByOrderId ctx uniqueId orderId) w))) /\
  (exists sched,
      run_task_under respond sched (V2.runScanByOrderId ctx uniqueId orderId) w
      = (Some (fst (fst (run_task respond (V2.runScanByOrderId ctx uniqueId orderId) w))),
         snd (fst (run_task respond (V2.runScanByOrderId ctx uniqueId orderId) w)),
         snd (run_task respond (V2.runScanByOrderId ctx uniqueId orderId) w))).
Proof.
  split.
  - apply (run_task_is_a_schedule _ (V1.mapper ctx uniqueId));
      [apply V1_task_prefix | reflexivity].
  - apply (run_task_is_a_schedule _ (V2.mapper ctx uniqueId));
      [apply V2_task_prefix | reflexivity].
Qed.

(** C6: in the task of either worker, the handler hands every selected
    candidate to its own mapper call, and under every schedule of these
    calls each of them stands at a stage of its own candidate (awaiting
    the node, failed at the node, skipped as unknown, or following the
    scan of its transaction): a fault raised while scanning one candidate
    is the fault of the call of that candidate only.  It rejects the
    promise of the handler when it is the first in time, and it does not
    stop the calls of the sibling candidates: these can always go on to
    their end, and when they have, every candidate has been looked up at
    the node. *)
Theorem scan_fault_does_not_abort_siblings (orderId : string) (w : W)
    (o : Order) (d : DepositAddress) (w1 : W) (r1 : Outcome JsVal) (w2 : W)
    (blockNumber : JsVal) (r2 : Outcome JsVal) (w3 : W)
    (txs cs : list EtherscanTx) (sched : list nat) :
  respond (FindOneBy orderId) w = (Ok (Some o), w1) ->
  order_depositAddress o = Some d ->
  respond (AxiosGet (block_url ctx (order_createdAt o))) w1 = (r1, w2) ->
  block_number_of r1 = Ok blockNumber ->
  truthy blockNumber = true ->
  respond (AxiosGet (txlist_url ctx (da_address d) blockNumber)) w2 = (r2, w3) ->
  listing_of r2 = Ok txs ->
  trimmedTxs txs = Ok cs ->
  (run_task_under respond sched (V1.runScanByOrderId ctx uniqueId orderId) w
   = (pMap_promise (pMap_run respond sched (map (V1.mapper ctx uniqueId) cs) w3),
      pool_world (pMap_run respond sched (map (V1.mapper ctx uniqueId) cs) w3),
      ([EvLog (processing_line orderId);
        EvCall (FindOneBy orderId) (Ok (Some o));
        EvCall (AxiosGet (block_url ctx (order_createdAt o))) r1;
        EvCall (AxiosGet (txlist_url ctx (da_address d) blockNumber)) r2;
        EvLog (found_line (length txs) orderId)]
        ++ pool_trace
             (pMap_run respond sched (map (V1.mapper ctx uniqueId) cs) w3))%list) /\
   calls_go_on W respond (V1.mapper ctx uniqueId) (V1.scanTxid ctx uniqueId)
     cs w3 sched) /\
  (run_task_under respond sched (V2.runScanByOrderId ctx uniqueId orderId) w
   = (pMap_promise (pMap_run respond sched (map (V2.mapper ctx uniqueId) cs) w3),
      pool_world (pMap_run respond sched (map (V2.mapper ctx uniqueId) cs) w3),
      ([EvLog (processing_line orderId);
        EvCall (FindOneBy orderId) (Ok (Some o));
        EvCall (AxiosGet (block_url ctx (order_createdAt o))) r1;
        EvCall (AxiosGet (txlist_url ctx (da_address d) blockNumber)) r2;
        EvLog (found_line (length txs) orderId)]
        ++ pool_trace
             (pMap_run respond sched (map (V2.mapper ctx uniqueId) cs) w3))%list) /\
   calls_go_on W respond (V2.mapper ctx uniqueId) (V2.scanTxid ctx uniqueId)
     cs w3 sched).
Proof.
  intros Hfind Hd Hblock Hbn Htruthy Hlist Htxs Hsel.
  split; (split; [| apply calls_go_on_any; intros c; reflexivity]).
  - apply task_under_schedule.
    exact (any_scanning ctx W respond (V1.runScanByOrderId ctx uniqueId)
             (V1.mapper ctx uniqueId) (V1_task_prefix ctx uniqueId W respond)
             orderId w o d w1 r1 w2 blockNumber r2 w3 txs cs
             Hfind Hd Hblock Hbn Htruthy Hlist Htxs Hsel).
  - apply task_under_schedule.
    exact (any_scanning ctx W respond (V2.runScanByOrderId ctx uniqueId)
             (V2.mapper ctx uniqueId) (V2_task_prefix ctx uniqueId W respond)
             orderId w o d w1 r1 w2 blockNumber r2 w3 txs cs
             Hfind Hd Hblock Hbn Htruthy Hlist Htxs Hsel).
Qed.

End Siblings.

Lemma scan_fault_does_not_abort_siblings_witness :
  calls_go_on (list string) Scenario.respond
    (V2.mapper Scenario.ctx Scenario.uniqueId)
    (V2.scanTxid Scenario.ctx Scenario.uniqueId)
    [Scenario.listed_tx "0xbad" "7";
     Scenario.listed_tx "0xgood" "1000000000000000000"] [] [0; 1; 1; 1]%nat /\
  fst (fst (run_task_under Scenario.respond [0; 1; 1; 1]%nat
              (V2.runScanByOrderId Scenario.ctx Scenario.uniqueId "order-1") []))
    = Some (Fail (JsError "blockHash must be string")) /\
  snd (fst (run_task_under Scenario.respond [0; 1; 1; 1]%nat
              (V2.runScanByOrderId Scenario.ctx Scenario.uniqueId "order-1") []))
    = ["ethereum-native/0xgood"] /\
  map created
    (credit_calls
       (snd (run_task_under Scenario.respond [0; 1; 1; 1]%nat
               (V2.runScanByOrderId Scenario.ctx Scenario.uniqueId "order-1") [])))
    = [true] /\
  run_task_under Scenario.respond [0; 1; 1; 1]%nat
    (V1.runScanByOrderId Scenario.ctx Scenario.uniqueId "order-1") []
  = run_task_under Scenario.respond [0; 1; 1; 1]%nat
      (V2.runScanByOrderId Scenario.ctx Scenario.uniqueId "order-1") [].
Proof.
  assert (Hfind : Scenario.respond (FindOneBy "order-1") []
                  = (Ok (Some Scenario.order), [])) by reflexivity.
  assert (Hblock : Scenario.respond
                     (AxiosGet (block_url Scenario.ctx (order_createdAt Scenario.order))) []
                   = (Ok (JObj [("result", JStr "18500000")]), []))
    by (vm_compute; reflexivity).
  assert (Hlist : Scenario.respond
                    (AxiosGet (txlist_url Scenario.ctx
                                 (da_address {| da_address := Scenario.payer |})
                                 (JStr "18500000"))) []
                  = (Ok (JArr [Scenario.listed "0xbad" "7"; Scenario.listed "0xnone" "0";
                               Scenario.listed "0xgood" "1000000000000000000"]), []))
    by (vm_compute; reflexivity).
  destruct (scan_fault_does_not_abort_siblings Scenario.ctx Scenario.uniqueId
              (list string) Scenario.respond "order-1" []
              Scenario.order {| da_address := Scenario.payer |} []
              (Ok (JObj [("result", JStr "18500000")])) []
              (JStr "18500000")
              (Ok (JArr [Scenario.listed "0xbad" "7"; Scenario.listed "0xnone" "0";
                         Scenario.listed "0xgood" "1000000000000000000"])) []
              [Scenario.listed_tx "0xbad" "7"; Scenario.listed_tx "0xnone" "0";
               Scenario.listed_tx "0xgood" "1000000000000000000"]
              [Scenario.listed_tx "0xbad" "7";
               Scenario.listed_tx "0xgood" "1000000000000000000"]
              [0; 1; 1; 1]%nat
              Hfind eq_refl Hblock eq_refl eq_refl Hlist eq_refl eq_refl)
    as [_ [_ Hgo]].
  split; [exact Hgo |].
  split; [vm_compute; reflexivity |].
  split; [vm_compute; reflexivity |].
  split; vm_compute; reflexivity.
Defined.

Lemma task_asks_node_for_the_selection_witness :
  node_lookups
    (snd (run_task Scenario.respond
            (V2.runScanByOrderId Scenario.ctx Scenario.uniqueId "order-1") []))
    = map tx_hash
        (firstn 10
           (filter positive
              [Scenario.listed_tx "0xbad" "7"; Scenario.listed_tx "0xnone" "0";
               Scenario.listed_tx "0xgood" "1000000000000000000"])) /\
  explorer_requests
    (snd (run_task Scenario.respond
            (V2.runScanByOrderId Scenario.ctx Scenario.uniqueId "order-1") []))
    = [block_url Scenario.ctx (order_createdAt Scenario.order);
       txlist_url Scenario.ctx (da_address {| da_address := Scenario.payer |})
         (JStr "18500000")] /\
  (length
     (credit_calls
        (snd (run_task Scenario.respond
                (V2.runScanByOrderId Scenario.ctx Scenario.uniqueId "order-1") [])))
   <= length
        (firstn 10
           (filter positive
              [Scenario.listed_tx "0xbad" "7"; Scenario.listed_tx "0xnone" "0";
               Scenario.listed_tx "0xgood" "1000000000000000000"])))%nat /\
  run_task Scenario.respond
    (V1.runScanByOrderId Scenario.ctx Scenario.uniqueId "order-1") []
  = run_task Scenario.respond
      (V2.runScanByOrderId Scenario.ctx Scenario.uniqueId "order-1") [].
Proof.
  apply (task_asks_node_for_the_selection Scenario.ctx Scenario.uniqueId
           (list string) Scenario.respond "order-1" []
           Scenario.order {| da_address := Scenario.payer |} []
           (Ok (JObj [("result", JStr "18500000")])) []
           (JStr "18500000")
           (Ok (JArr [Scenario.listed "0xbad" "7"; Scenario.listed "0xnone" "0";
                      Scenario.listed "0xgood" "1000000000000000000"])) []
           [Scenario.listed_tx "0xbad" "7"; Scenario.listed_tx "0xnone" "0";
            Scenario.listed_tx "0xgood" "1000000000000000000"]);
    try (vm_compute; reflexivity).
  repeat constructor.
Defined.
